(** * VirES server: the magnetic-model cache and the cached-product command

    A shallow embedding of
      - [vires/magnetic_models/models.py]
        ([ModelFactory], [ModelCache], [MODEL_ALIASES], [MODEL_FACTORIES],
        [MODEL_CACHE]), and
      - [vires/management/commands/vires_update_cached_product.py]
        ([Command.add_arguments], [Command.handle]).

    Python dictionaries are [gmap]s, Python exceptions are the [Raise]
    outcome of a small state-and-exception monad, and the mutable objects
    the cache works on (its two dictionaries, the change monitors owned by
    the factories, the logger) live in an explicit [Store]. *)

From Stdlib Require Import ZArith Ascii String.
From stdpp Require Import gmap strings list fin_maps.

Local Open Scope string_scope.

(** ** Exceptions and outcomes *)

(** [KeyError] carries the key that was looked up: a string, or with
    [KeyErrorOf] an object of another type. *)
Inductive exn : Type :=
| KeyError (key : string)
| KeyErrorOf {K : Type} (key : K)
| OSError (path : string)
| ValueError (msg : string)
| CommandError (msg : string)
| InvalidSourcesError (msg : string)
| TypeError (msg : string)
| OtherError (msg : string).

Inductive result (A : Type) : Type :=
| Return (a : A)
| Raise (e : exn).
Arguments Return {A} a.
Arguments Raise {A} e.

(** A computation reads and writes a state [S]; an exception leaves the
    state as it was when it was raised (Python does not roll back). *)
Definition M (S A : Type) : Type := S → result A * S.

Definition ret {S A} (a : A) : M S A := λ s, (Return a, s).
Definition raise {S A} (e : exn) : M S A := λ s, (Raise e, s).
Definition bind {S A B} (c : M S A) (k : A → M S B) : M S B :=
  λ s, match c s with
       | (Return a, s') => k a s'
       | (Raise e, s') => (Raise e, s')
       end.
Definition gets {S A} (f : S → A) : M S A := λ s, (Return (f s), s).
Definition modify {S} (f : S → S) : M S unit := λ s, (Return tt, f s).
(** [try: c except h]: the handler sees the exception and the state left
    behind by [c]. *)
Definition try_except {S A} (c : M S A) (h : exn → option (M S A)) : M S A :=
  λ s, match c s with
       | (Return a, s') => (Return a, s')
       | (Raise e, s') =>
           match h e with
           | Some k => k s'
           | None => (Raise e, s')
           end
       end.

Notation "x <~ c ;; k" := (bind c (λ x, k))
  (at level 100, c at next level, right associativity).
Notation "c ;;; k" := (bind c (λ _, k))
  (at level 100, right associativity).

(** [d[key]] on a dictionary. *)
Definition getitem {S V} (d : gmap string V) (key : string) : M S V :=
  match d !! key with
  | Some v => ret v
  | None => raise (KeyError key)
  end.

(** ** The file system seen by the server *)

Record File : Type := { mtime : Z; data : string }.

(** [os.path.getmtime]. *)
Definition getmtime (fs : gmap string File) (path : string) : result Z :=
  match fs !! path with
  | Some f => Return (mtime f)
  | None => Raise (OSError path)
  end.

(** ** [FileChangeMonitor] *)

(** Modelled from the spec: [vires/file_util.py], which defines
    [FileChangeMonitor], is not among the sources.  Per the spec the monitor
    stores one fingerprint (the modification time) per path; [changed]
    compares the current fingerprint of each path with the stored one, any
    mismatch (a path never seen before included) makes the call answer
    [True], and the stored fingerprints are updated to the observed ones.
    A missing file is a reported error: the call raises [OSError]. *)
Fixpoint changed (fs : gmap string File) (paths : list string)
    (last : gmap string Z) : result bool * gmap string Z :=
  match paths with
  | [] => (Return false, last)
  | path :: paths' =>
      match getmtime fs path with
      | Raise e => (Raise e, last)
      | Return fp =>
          let mismatch := bool_decide (last !! path ≠ Some fp) in
          match changed fs paths' (<[path := fp]> last) with
          | (Return rest, last') => (Return (mismatch || rest), last')
          | (Raise e, last') => (Raise e, last')
          end
      end
  end.

Section Models.

(** The model objects built by the loaders are opaque to the cache; all it
    asks of one is its truth value ([not model]). *)
Context {Model : Type} (truthy : Model → bool).

(** A model instance: the object a loader built, with its identity
    (Python's [id], [is]). *)
Record Instance : Type := { inst_id : nat; inst_model : Model }.

(** What the cache needs of a model-file object ([.files] classes are not
    among the sources): its [filename] and its [sources] property. *)
Record ModelFile : Type := {
  filename : string;
  file_sources : gmap string File → result (list string);
}.

(** [class ModelFactory]: [_tracker] is the address of the factory's own
    [FileChangeMonitor] in the store. *)
Record ModelFactory : Type := {
  loader : list string → gmap string File → result Model;
  model_files : list ModelFile;
  tracker : nat;
}.

(** [class ModelCache]: the two tables given to [__init__]. *)
Record ModelCache : Type := {
  model_factories : gmap string ModelFactory;
  model_aliases : gmap string string;
}.

(** The mutable objects: [self.cache], [self.sources], the monitors of the
    factories (a monitor never looked at is the empty one), the records
    sent to the logger, and two counters of the run: the number of loader
    invocations and the next free object identity. *)
Record Store : Type := {
  cache : gmap string Instance;
  sources : gmap string (list (list string));
  monitors : gmap nat (gmap string Z);
  log : list string;
  loader_calls : nat;
  next_id : nat;
}.

Definition empty_store : Store :=
  {| cache := ∅; sources := ∅; monitors := ∅; log := [];
     loader_calls := 0; next_id := 0 |}.

(** Every cached object was allocated before the next free identity. *)
Definition store_ok (st : Store) : Prop :=
  ∀ k m, cache st !! k = Some m → inst_id m < next_id st.

Definition set_cache (k : string) (v : Instance) (st : Store) : Store :=
  {| cache := <[k := v]> (cache st); sources := sources st;
     monitors := monitors st; log := log st;
     loader_calls := loader_calls st; next_id := next_id st |}.

Definition set_sources (k : string) (v : list (list string)) (st : Store)
    : Store :=
  {| cache := cache st; sources := <[k := v]> (sources st);
     monitors := monitors st; log := log st;
     loader_calls := loader_calls st; next_id := next_id st |}.

Definition set_monitor (l : nat) (v : gmap string Z) (st : Store) : Store :=
  {| cache := cache st; sources := sources st;
     monitors := <[l := v]> (monitors st); log := log st;
     loader_calls := loader_calls st; next_id := next_id st |}.

Definition monitor_at (l : nat) (st : Store) : gmap string Z :=
  default ∅ (monitors st !! l).

Definition add_log (msg : string) (st : Store) : Store :=
  {| cache := cache st; sources := sources st; monitors := monitors st;
     log := (log st ++ [msg])%list;
     loader_calls := loader_calls st; next_id := next_id st |}.

Definition count_loader_call (st : Store) : Store :=
  {| cache := cache st; sources := sources st; monitors := monitors st;
     log := log st;
     loader_calls := S (loader_calls st); next_id := next_id st |}.

Definition allocate (st : Store) : Store :=
  {| cache := cache st; sources := sources st; monitors := monitors st;
     log := log st;
     loader_calls := loader_calls st; next_id := S (next_id st) |}.

(** [logger.info]. *)
Definition logger_info (msg : string) : M Store unit := modify (add_log msg).

(** *** [ModelFactory] *)

(** [files]: the list of files required by the model. *)
Definition files (f : ModelFactory) : list string :=
  filename <$> model_files f.

(** [model_changed]: [self._tracker.changed( *self.files )]. *)
Definition model_changed (f : ModelFactory) (fs : gmap string File)
    : M Store bool :=
  λ st,
    let '(r, last) := changed fs (files f) (monitor_at (tracker f) st) in
    (r, set_monitor (tracker f) last st).

(** [__call__]: [self.loader( *self.files )]; a successful call hands back
    a new object. *)
Definition call (f : ModelFactory) (fs : gmap string File)
    : M Store Instance :=
  λ st,
    let st := count_loader_call st in
    match loader f (files f) fs with
    | Raise e => (Raise e, st)
    | Return m =>
        (Return {| inst_id := next_id st; inst_model := m |}, allocate st)
    end.

(** [sources]: [[model_file.sources for model_file in self.model_files]]. *)
Fixpoint collect_sources (fs : gmap string File) (mfs : list ModelFile)
    : result (list (list string)) :=
  match mfs with
  | [] => Return []
  | mf :: mfs' =>
      match file_sources mf fs with
      | Raise e => Raise e
      | Return s =>
          match collect_sources fs mfs' with
          | Raise e => Raise e
          | Return ss => Return (s :: ss)
          end
      end
  end.

Definition factory_sources (f : ModelFactory) (fs : gmap string File)
    : M Store (list (list string)) :=
  λ st, (collect_sources fs (model_files f), st).

(** *** [ModelCache] *)

(** [not model] for [model = self.cache.get(model_id)]. *)
Definition not_model (model : option Instance) : bool :=
  match model with
  | None => true
  | Some i => negb (truthy (inst_model i))
  end.

(** [ModelCache.__init__]: [self.model_aliases = model_aliases or {}]. *)
Definition new_ModelCache (factories : gmap string ModelFactory)
    (aliases : option (gmap string string)) : ModelCache :=
  {| model_factories := factories; model_aliases := default ∅ aliases |}.

(** [self.model_aliases.get(model_id, model_id)]. *)
Definition resolve (mc : ModelCache) (model_id : string) : string :=
  default model_id (model_aliases mc !! model_id).

Definition get_model_with_sources (mc : ModelCache) (fs : gmap string File)
    (model_id : string)
    : M Store (option Instance * option (list (list string))) :=
  let model_id := resolve mc model_id in
  match model_factories mc !! model_id with
  | None => ret (None, None)
  | Some model_factory =>
      model <~ gets (λ st, cache st !! model_id) ;;
      chg <~ model_changed model_factory fs ;;
      if chg || not_model model then
        model <~ call model_factory fs ;;
        modify (set_cache model_id model) ;;;
        srcs <~ factory_sources model_factory fs ;;
        modify (set_sources model_id srcs) ;;;
        logger_info (model_id ++ " model loaded") ;;;
        ret (Some model, Some srcs)
      else
        srcs <~ (λ st, getitem (sources st) model_id st) ;;
        ret (model, Some srcs)
  end.

(** A model reflects the fingerprints the monitor of its factory holds when
    the loader yields it from files that carry those fingerprints. *)
Definition reflects_last_detected (f : ModelFactory) (st : Store)
    (m : Instance) : Prop :=
  ∃ fs : gmap string File,
    (∀ p, p ∈ files f →
       Return <$> monitor_at (tracker f) st !! p = Some (getmtime fs p))
    ∧ loader f (files f) fs = Return (inst_model m).

Definition get_model (mc : ModelCache) (fs : gmap string File)
    (model_id : string) : M Store (option Instance) :=
  r <~ get_model_with_sources mc fs model_id ;;
  ret r.1.

(** No cached model is stale: each reflects the fingerprints the monitor
    of its factory holds. *)
Definition never_stale (mc : ModelCache) (st : Store) : Prop :=
  ∀ k f m,
    model_factories mc !! k = Some f → cache st !! k = Some m →
    reflects_last_detected f st m.

(** Every factory of the table has a monitor of its own: no factory
    object is registered under two identifiers. *)
Definition own_trackers (mc : ModelCache) : Prop :=
  ∀ k1 k2 f1 f2,
    model_factories mc !! k1 = Some f1 → model_factories mc !! k2 = Some f2 →
    tracker f1 = tracker f2 → k1 = k2.

(** A lookup in which neither the fingerprint check nor the build raises:
    the check answers and the loader, when it comes to be called, returns a
    model.  (Reading the sources may raise all the same.) *)
Definition build_ok (mc : ModelCache) (fs : gmap string File)
    (model_id : string) (st : Store) : Prop :=
  ∀ f, model_factories mc !! resolve mc model_id = Some f →
    ∃ chg last,
      changed fs (files f) (monitor_at (tracker f) st) = (Return chg, last)
      ∧ (chg || not_model (cache st !! resolve mc model_id) = true →
         ∃ v, loader f (files f) fs = Return v).

End Models.

(** ** The default tables of [models.py] *)

(** [os.path.basename]: what follows the last slash. *)
Fixpoint basename_from (acc path : string) : string :=
  match path with
  | EmptyString => acc
  | String c rest =>
      if Ascii.eqb c "/"%char then basename_from EmptyString rest
      else basename_from (acc ++ String c EmptyString) rest
  end.

Definition basename (path : string) : string := basename_from EmptyString path.

Definition DIPOLE_MODEL : string := "IGRF".
Definition IGRF12_SOURCE : string :=
  "SW_OPER_AUX_IGR_2__19000101T000000_20191231T235959_0102".
Definition IGRF13_SOURCE : string :=
  "SW_OPER_AUX_IGR_2__19000101T000000_20241231T235959_0103".

Definition MODEL_ALIASES_items : list (string * string) := [
  ("IGRF", "IGRF13");
  ("MCO_SHA_2X", "CHAOS-Core");
  ("CHAOS-6-Core", "CHAOS-Core");
  ("CHAOS-6-Static", "CHAOS-Static");
  ("CHAOS-6-MMA-Primary", "CHAOS-MMA-Primary");
  ("CHAOS-6-MMA-Secondary", "CHAOS-MMA-Secondary")
].

Definition MODEL_ALIASES : gmap string string :=
  list_to_map MODEL_ALIASES_items.

(** The two validity readers handed to the model files. *)
Inductive validity_reader : Type :=
| shc_validity_reader
| mio_validity_reader.

(** What [models.py] imports from [eoxmagmod]: the loaders (for
    [load_model_shc] the flag is [interpolate_in_decimal_years]) and the
    paths of the bundled data files. *)
Record Eoxmagmod (Model : Type) : Type := {
  load_model_shc : bool → list string → gmap string File → result Model;
  load_model_swarm_mma_2c_internal :
    list string → gmap string File → result Model;
  load_model_swarm_mma_2c_external :
    list string → gmap string File → result Model;
  load_model_swarm_mma_2f_geo_internal :
    list string → gmap string File → result Model;
  load_model_swarm_mma_2f_geo_external :
    list string → gmap string File → result Model;
  load_model_swarm_mio_internal :
    list string → gmap string File → result Model;
  load_model_swarm_mio_external :
    list string → gmap string File → result Model;
  IGRF12 : string;
  IGRF13 : string;
  CHAOS_STATIC_LATEST : string;
  LCS1 : string;
  MF7 : string;
}.
Arguments load_model_shc {Model} _ _ _ _.
Arguments load_model_swarm_mma_2c_internal {Model} _ _ _.
Arguments load_model_swarm_mma_2c_external {Model} _ _ _.
Arguments load_model_swarm_mma_2f_geo_internal {Model} _ _ _.
Arguments load_model_swarm_mma_2f_geo_external {Model} _ _ _.
Arguments load_model_swarm_mio_internal {Model} _ _ _.
Arguments load_model_swarm_mio_external {Model} _ _ _.
Arguments IGRF12 {Model} _.
Arguments IGRF13 {Model} _.
Arguments CHAOS_STATIC_LATEST {Model} _.
Arguments LCS1 {Model} _.
Arguments MF7 {Model} _.

(** What [models.py] imports from [.files]: the three model-file classes. *)
Record FilesModule : Type := {
  ModelFileWithLiteralSource : string → string → validity_reader → ModelFile;
  CachedModelFileWithSourceFile : string → validity_reader → ModelFile;
  CachedComposedModelFile : string → ModelFile;
}.

Section Defaults.

Context {Model : Type} (magmod : Eoxmagmod Model) (filesmod : FilesModule).

Definition CHAOS_STATIC_SOURCE : string :=
  basename (CHAOS_STATIC_LATEST magmod).
Definition LCS1_SOURCE : string := basename (LCS1 magmod).
Definition MF7_SOURCE : string := basename (MF7 magmod).

(** [lambda file_: load_model_shc(file_, interpolate_in_decimal_years=True)]:
    a function of exactly one argument. *)
Definition load_model_shc_decimal_years (fls : list string)
    (fs : gmap string File) : result Model :=
  match fls with
  | [file_] => load_model_shc magmod true [file_] fs
  | _ => Raise (TypeError "<lambda>() takes exactly 1 argument")
  end.

Definition literal := ModelFileWithLiteralSource filesmod.
Definition cached := CachedModelFileWithSourceFile filesmod.
Definition composed := CachedComposedModelFile filesmod.

(** The entries of [MODEL_FACTORIES] in the order of the source; every
    entry is a factory object of its own, so each has its own monitor. *)
Definition MODEL_FACTORIES_items : list (string * @ModelFactory Model) := [
  ("IGRF12", {| loader := load_model_shc_decimal_years;
      model_files :=
        [literal (IGRF12 magmod) IGRF12_SOURCE shc_validity_reader];
      tracker := 0 |});
  ("IGRF13", {| loader := load_model_shc_decimal_years;
      model_files :=
        [literal (IGRF13 magmod) IGRF13_SOURCE shc_validity_reader];
      tracker := 1 |});
  ("CHAOS-Static", {| loader := load_model_shc magmod false;
      model_files :=
        [literal (CHAOS_STATIC_LATEST magmod) CHAOS_STATIC_SOURCE
           shc_validity_reader];
      tracker := 2 |});
  ("CHAOS-Core", {| loader := load_model_shc magmod false;
      model_files := [cached "MCO_SHA_2X" shc_validity_reader];
      tracker := 3 |});
  ("LCS-1", {| loader := load_model_shc magmod false;
      model_files := [literal (LCS1 magmod) LCS1_SOURCE shc_validity_reader];
      tracker := 4 |});
  ("MF7", {| loader := load_model_shc magmod false;
      model_files := [literal (MF7 magmod) MF7_SOURCE shc_validity_reader];
      tracker := 5 |});
  ("MCO_SHA_2C", {| loader := load_model_shc magmod false;
      model_files := [cached "MCO_SHA_2C" shc_validity_reader];
      tracker := 6 |});
  ("MCO_SHA_2D", {| loader := load_model_shc magmod false;
      model_files := [cached "MCO_SHA_2D" shc_validity_reader];
      tracker := 7 |});
  ("MLI_SHA_2C", {| loader := load_model_shc magmod false;
      model_files := [cached "MLI_SHA_2C" shc_validity_reader];
      tracker := 8 |});
  ("MLI_SHA_2D", {| loader := load_model_shc magmod false;
      model_files := [cached "MLI_SHA_2D" shc_validity_reader];
      tracker := 9 |});
  ("MMA_SHA_2C-Primary", {|
      loader := load_model_swarm_mma_2c_external magmod;
      model_files := [composed "MMA_SHA_2C"];
      tracker := 10 |});
  ("MMA_SHA_2C-Secondary", {|
      loader := load_model_swarm_mma_2c_internal magmod;
      model_files := [composed "MMA_SHA_2C"];
      tracker := 11 |});
  ("MMA_SHA_2F-Primary", {|
      loader := load_model_swarm_mma_2f_geo_external magmod;
      model_files := [composed "MMA_SHA_2F"];
      tracker := 12 |});
  ("MMA_SHA_2F-Secondary", {|
      loader := load_model_swarm_mma_2f_geo_internal magmod;
      model_files := [composed "MMA_SHA_2F"];
      tracker := 13 |});
  ("MIO_SHA_2C-Primary", {|
      loader := load_model_swarm_mio_external magmod;
      model_files := [cached "MIO_SHA_2C" mio_validity_reader];
      tracker := 14 |});
  ("MIO_SHA_2C-Secondary", {|
      loader := load_model_swarm_mio_internal magmod;
      model_files := [cached "MIO_SHA_2C" mio_validity_reader];
      tracker := 15 |});
  ("MIO_SHA_2D-Primary", {|
      loader := load_model_swarm_mio_external magmod;
      model_files := [cached "MIO_SHA_2D" mio_validity_reader];
      tracker := 16 |});
  ("MIO_SHA_2D-Secondary", {|
      loader := load_model_swarm_mio_internal magmod;
      model_files := [cached "MIO_SHA_2D" mio_validity_reader];
      tracker := 17 |});
  ("CHAOS-MMA-Primary", {|
      loader := load_model_swarm_mma_2c_external magmod;
      model_files := [composed "MMA_CHAOS_"];
      tracker := 18 |});
  ("CHAOS-MMA-Secondary", {|
      loader := load_model_swarm_mma_2c_internal magmod;
      model_files := [composed "MMA_CHAOS_"];
      tracker := 19 |})
].

Definition MODEL_FACTORIES : gmap string (@ModelFactory Model) :=
  list_to_map MODEL_FACTORIES_items.

(** The list of all available models: the keys of the two tables. *)
Definition MODEL_LIST : list string :=
  MODEL_FACTORIES_items.*1 ++ MODEL_ALIASES_items.*1.

Definition MODEL_CACHE : @ModelCache Model :=
  new_ModelCache MODEL_FACTORIES (Some MODEL_ALIASES).

End Defaults.

(** ** The [vires_update_cached_product] command *)

Module UpdateCachedProduct.

(** The update functions wrapped by [simple_cached_product_updater]. *)
Inductive update_function : Type :=
| update_kp
| update_dst
| update_aux_f107_2_
| update_orbit_counter_file.

(** The callables stored in the product table. *)
Inductive callable : Type :=
| copy_file
| merge_mma_sha_2f
| filter_mma_sha_2f
| merge_mma_sha_2c
| filter_mma_sha_2c
| simple_cached_product_updater (f : update_function).

(** The Python values the command handles. *)
Inductive value : Type :=
| PyNone
| PyStr (s : string)
| PyList (l : list string)
| PyCallable (c : callable).

(** The Django settings the module reads; the first two are read with
    [getattr(settings, name, default)]. *)
Record Settings : Type := {
  VIRES_CACHED_PRODUCTS : option (gmap string string);
  VIRES_SPACECRAFTS : option (list string);
  VIRES_AUX_DB_DST : string;
  VIRES_AUX_DB_KP : string;
}.

(** [configure_cached_product]: [dict.update] lets the new keys win. *)
Definition configure_cached_product (product_type : string)
    (kwargs : gmap string value)
    (products : gmap string (gmap string value))
    : gmap string (gmap string value) :=
  match products !! product_type with
  | Some info => <[product_type := kwargs ∪ info]> products
  | None => products
  end.

Definition mma_options (updater filter : callable) : gmap string value :=
  {[ "updater" := PyCallable updater; "filter" := PyCallable filter;
     "tmp_extension" := PyStr ".tmp.cdf" ]}.

Definition orbit_counter_options (spacecraft : string) : gmap string value :=
  {[ "label" := PyStr ("Swarm " ++ spacecraft ++ " orbit counter");
     "updater" :=
       PyCallable (simple_cached_product_updater update_orbit_counter_file);
     "tmp_extension" := PyStr ".tmp.cdf" ]}.

(** The module-level construction of [CACHED_PRODUCTS]. *)
Definition CACHED_PRODUCTS (settings : Settings)
    : gmap string (gmap string value) :=
  let products : gmap string (gmap string value) :=
    (λ filename : string, ({[ "filename" := PyStr filename ]}
                             : gmap string value))
      <$> default ∅ (VIRES_CACHED_PRODUCTS settings) in
  let products :=
    configure_cached_product "MMA_CHAOS6"
      (mma_options merge_mma_sha_2c filter_mma_sha_2c) products in
  let products :=
    configure_cached_product "MMA_SHA_2C"
      (mma_options merge_mma_sha_2c filter_mma_sha_2c) products in
  let products :=
    configure_cached_product "MMA_SHA_2F"
      (mma_options merge_mma_sha_2f filter_mma_sha_2f) products in
  let products :=
    configure_cached_product "AUX_F10_2_"
      {[ "updater" :=
           PyCallable (simple_cached_product_updater update_aux_f107_2_);
         "tmp_extension" := PyStr ".tmp.cdf" ]} products in
  let products :=
    foldl (λ acc spacecraft,
             configure_cached_product ("AUX" ++ spacecraft ++ "ORBCNT")
               (orbit_counter_options spacecraft) acc)
          products (default [] (VIRES_SPACECRAFTS settings)) in
  ({[ "GFZ_AUX_DST" :=
        ({[ "filename" := PyStr (VIRES_AUX_DB_DST settings);
            "label" := PyStr "Dst-index";
            "updater" := PyCallable (simple_cached_product_updater update_dst);
            "tmp_extension" := PyStr ".tmp.cdf" ]} : gmap string value);
      "GFZ_AUX_KP" :=
        ({[ "filename" := PyStr (VIRES_AUX_DB_KP settings);
            "label" := PyStr "Kp-index";
            "updater" := PyCallable (simple_cached_product_updater update_kp);
            "tmp_extension" := PyStr ".tmp.cdf" ]} : gmap string value) ]}
     : gmap string (gmap string value)) ∪ products.

(** The keyword arguments of one call of [update_cached_product]. *)
Record UpdateCall : Type := {
  call_sources : value;
  call_destination : value;
  call_updater : value;
  call_filter_ : value;
  call_tmp_extension : value;
}.

Section Command.

(** [settings], the options every Django command has besides its own
    ([verbosity], [traceback], ...), and [update_cached_product] of
    [vires.cached_products], which is not among the sources. *)
Context (settings : Settings) (base_options : gmap string value)
  (update_cached_product_impl : UpdateCall → result unit).

(** The run state of the command: the calls of [update_cached_product]
    made so far. *)
Definition update_cached_product (c : UpdateCall) : M (list UpdateCall) unit :=
  λ calls, (update_cached_product_impl c, (calls ++ [c])%list).

(** [add_arguments] followed by the parse of the command line: one
    [product_type] out of the known ones, then one or more [source]. *)
Definition parse_args (argv : list string) : result (gmap string value) :=
  match argv with
  | product_type :: source_1 :: source_n =>
      if bool_decide (is_Some (CACHED_PRODUCTS settings !! product_type))
      then Return (<[ "source" := PyList (source_1 :: source_n) ]>
                     (<[ "product_type" := PyStr product_type ]>
                        base_options))
      else Raise (CommandError "argument product_type: invalid choice")
  | _ => Raise (CommandError "too few arguments")
  end.

(** [CACHED_PRODUCTS[product_type]]: the [KeyError] carries the object
    that was looked up. *)
Definition product_info_of (product_type : value)
    : M (list UpdateCall) (gmap string value) :=
  match product_type with
  | PyStr s => getitem (CACHED_PRODUCTS settings) s
  | PyList _ => raise (TypeError "unhashable type: 'list'")
  | _ => raise (KeyErrorOf product_type)
  end.

Definition handle (kwargs : gmap string value) : M (list UpdateCall) unit :=
  product_type <~ getitem kwargs "product_type" ;;
  source <~ getitem kwargs "cource" ;;
  product_info <~ product_info_of product_type ;;
  try_except
    (destination <~ getitem product_info "filename" ;;
     update_cached_product
       {| call_sources := source;
          call_destination := destination;
          call_updater :=
            default (PyCallable copy_file) (product_info !! "updater");
          call_filter_ := default PyNone (product_info !! "filter");
          call_tmp_extension :=
            default PyNone (product_info !! "tmp_extension") |})
    (λ exc, match exc with
            | InvalidSourcesError msg => Some (raise (CommandError msg))
            | _ => None
            end).

(** The command run from the command line. *)
Definition run_command (argv : list string) : M (list UpdateCall) unit :=
  λ calls, match parse_args argv with
           | Return kwargs => handle kwargs calls
           | Raise e => (Raise e, calls)
           end.

End Command.

End UpdateCachedProduct.

(** ** A test bench: one factory over one file

    The set-up of the scenario of the specification: a factory registered
    as ["TEST"] over the file ["f.dat"], here with an alias ["T"].  Models
    are integers with Python's truth value; the loader hands back the
    modification time of the file it read and raises on a corrupt file. *)

Module Scenario.

Definition int_truthy (n : Z) : bool := negb (n =? 0)%Z.

Definition test_loader (fls : list string) (fs : gmap string File)
    : result Z :=
  match fls with
  | [path] =>
      match fs !! path with
      | None => Raise (OSError path)
      | Some f =>
          if bool_decide (data f = "corrupt")
          then Raise (OtherError "corrupt file")
          else Return (mtime f)
      end
  | _ => Raise (TypeError "loader takes exactly 1 argument")
  end.

Definition test_file (path : string) : ModelFile :=
  {| filename := path; file_sources := λ _, Return [path] |}.

Definition test_factory : @ModelFactory Z :=
  {| loader := test_loader; model_files := [test_file "f.dat"];
     tracker := 0 |}.

Definition test_cache : @ModelCache Z :=
  {| model_factories := {[ "TEST" := test_factory ]};
     model_aliases := {[ "T" := "TEST" ]} |}.

(** The file system holding ["f.dat"] with a given time stamp and content,
    and the one where it is gone. *)
Definition fs_with (t : Z) (content : string) : gmap string File :=
  {[ "f.dat" := {| mtime := t; data := content |} ]}.

Definition fs_without : gmap string File := ∅.

(** The life of ["f.dat"]: a first version, a rewrite caught half-way (a
    later time stamp, unreadable content), the rewrite completed within the
    same time stamp. *)
Definition fs_v1 : gmap string File := fs_with 1 "v1".
Definition fs_corrupt : gmap string File := fs_with 2 "corrupt".
Definition fs_v2 : gmap string File := fs_with 2 "v2".

(** The objects the lookups of the bench return. *)
Definition first_model : @Instance Z := {| inst_id := 0; inst_model := 1%Z |}.
Definition second_model : @Instance Z := {| inst_id := 1; inst_model := 2%Z |}.
Definition from_f_dat : list (list string) := [["f.dat"]].

Definition lookup_test (fs : gmap string File) (st : @Store Z) :=
  get_model_with_sources int_truthy test_cache fs "TEST" st.

(** The store after a series of lookups of ["TEST"], one per file-system
    state, from the empty store. *)
Definition after (states : list (gmap string File)) : @Store Z :=
  foldl (λ st fs, (lookup_test fs st).2) empty_store states.

(** Collaborators for the default tables: every loader is the test
    loader, every model file a plain file. *)
Definition test_magmod : Eoxmagmod Z :=
  {| load_model_shc := λ _, test_loader;
     load_model_swarm_mma_2c_internal := test_loader;
     load_model_swarm_mma_2c_external := test_loader;
     load_model_swarm_mma_2f_geo_internal := test_loader;
     load_model_swarm_mma_2f_geo_external := test_loader;
     load_model_swarm_mio_internal := test_loader;
     load_model_swarm_mio_external := test_loader;
     IGRF12 := "/data/IGRF12.shc";
     IGRF13 := "/data/IGRF13.shc";
     CHAOS_STATIC_LATEST := "/data/CHAOS-7_static.shc";
     LCS1 := "/data/LCS-1.shc";
     MF7 := "/data/MF7.shc" |}.

Definition test_filesmod : FilesModule :=
  {| ModelFileWithLiteralSource := λ path _ _, test_file path;
     CachedModelFileWithSourceFile :=
       λ name _, test_file ("/cache/" ++ name);
     CachedComposedModelFile := λ name, test_file ("/cache/" ++ name) |}.

(** A configuration of the command: one cached product. *)
Definition test_settings : UpdateCachedProduct.Settings :=
  {| UpdateCachedProduct.VIRES_CACHED_PRODUCTS :=
       Some {[ "MMA_SHA_2F" := "/cache/MMA_SHA_2F.cdf" ]};
     UpdateCachedProduct.VIRES_SPACECRAFTS := Some ["A"; "B"];
     UpdateCachedProduct.VIRES_AUX_DB_DST := "/cache/dst.cdf";
     UpdateCachedProduct.VIRES_AUX_DB_KP := "/cache/kp.cdf" |}.

Definition test_base_options : gmap string UpdateCachedProduct.value :=
  {[ "verbosity" := UpdateCachedProduct.PyStr "1";
     "traceback" := UpdateCachedProduct.PyNone ]}.

Definition test_update (c : UpdateCachedProduct.UpdateCall) : result unit :=
  Return tt.

End Scenario.

(** ** Sessions of the cache *)

Section Sessions.

Context {Model : Type} (truthy : Model → bool).

(** The store after a series of lookups, each made with the file system of
    its moment. *)
Definition lookups (mc : @ModelCache Model)
    (steps : list (gmap string File * string)) (st : @Store Model)
    : @Store Model :=
  foldl (λ st step,
           (get_model_with_sources truthy mc step.1 step.2 st).2) st steps.

(** A series of lookups in none of which the check or the build raises. *)
Fixpoint builds_ok (mc : @ModelCache Model)
    (steps : list (gmap string File * string)) (st : @Store Model) : Prop :=
  match steps with
  | [] => True
  | step :: steps' =>
      build_ok truthy mc step.1 step.2 st
      ∧ builds_ok mc steps'
          (get_model_with_sources truthy mc step.1 step.2 st).2
  end.

End Sessions.

(** More of the test bench: a factory whose model file cannot tell its
    sources, and one whose loader builds a model that is false in Python's
    sense (the integer 0). *)

Module Scenario2.

Import Scenario.

Definition unsourced_file (path : string) : ModelFile :=
  {| filename := path;
     file_sources := λ _, Raise (OtherError "sources not available") |}.

Definition unsourced_factory : @ModelFactory Z :=
  {| loader := test_loader; model_files := [unsourced_file "f.dat"];
     tracker := 1 |}.

Definition zero_loader (fls : list string) (fs : gmap string File)
    : result Z := Return 0%Z.

Definition zero_factory : @ModelFactory Z :=
  {| loader := zero_loader; model_files := [test_file "f.dat"];
     tracker := 2 |}.

Definition bench_cache : @ModelCache Z :=
  {| model_factories :=
       {[ "TEST" := test_factory; "UNSOURCED" := unsourced_factory;
          "ZERO" := zero_factory ]};
     model_aliases := {[ "T" := "TEST" ]} |}.

Definition lookup_zero (fs : gmap string File) (st : @Store Z) :=
  get_model_with_sources int_truthy bench_cache fs "ZERO" st.

(** The store after a series of lookups of ["ZERO"] from the empty store,
    and the objects these lookups return. *)
Definition after_zero (states : list (gmap string File)) : @Store Z :=
  foldl (λ st fs, (lookup_zero fs st).2) empty_store states.

Definition zero_model (n : nat) : @Instance Z :=
  {| inst_id := n; inst_model := 0%Z |}.

End Scenario2.

(** ** The [vires_update_orbit_counter] command *)

Module UpdateOrbitCounter.

Import UpdateCachedProduct.

Definition DEPRECATION_WARNING : string :=
  "The 'vires_update_orbit_counter' command is deprecated! "
  ++ "Use 'vires_update_cached_file' instead.".

(** One call of [update_cached_product] as this command makes it: the
    sources, the destination, the updater and [tmp_extension]. *)
Record OrbitCall : Type := {
  oc_sources : list value;
  oc_destination : string;
  oc_updater : callable;
  oc_tmp_extension : string;
}.

(** The run state: the warnings sent to the logger and the calls of
    [update_cached_product] made so far. *)
Record Run : Type := {
  warnings : list string;
  update_calls : list OrbitCall;
}.

Section Command.

(** The three entries of the setting [VIRES_ORBIT_COUNTER_FILE] and
    [update_cached_product] of [vires.cached_products]. *)
Context (orbit_counter_file_A orbit_counter_file_B orbit_counter_file_C
           : string)
  (update_cached_product_impl : OrbitCall → result unit).

Definition cached_products : list (string * string) := [
  ("filename_a", orbit_counter_file_A);
  ("filename_b", orbit_counter_file_B);
  ("filename_c", orbit_counter_file_C)
].

Definition logger_warn (msg : string) : M Run unit :=
  modify (λ st, {| warnings := (warnings st ++ [msg])%list;
                   update_calls := update_calls st |}).

Definition update_cached_product (c : OrbitCall) : M Run unit :=
  λ st, (update_cached_product_impl c,
         {| warnings := warnings st;
            update_calls := (update_calls st ++ [c])%list |}).

(** The body of the loop of [handle]. *)
Definition update_one (kwargs : gmap string value)
    (entry : string * string) : M Run unit :=
  source <~ getitem kwargs entry.1 ;;
  match source with
  | PyNone => ret tt
  | _ =>
      update_cached_product
        {| oc_sources := [source];
           oc_destination := entry.2;
           oc_updater :=
             simple_cached_product_updater update_orbit_counter_file;
           oc_tmp_extension := ".tmp.cdf" |}
  end.

Fixpoint for_each {A} (body : A → M Run unit) (items : list A)
    : M Run unit :=
  match items with
  | [] => ret tt
  | item :: items' => body item ;;; for_each body items'
  end.

Definition handle (kwargs : gmap string value) : M Run unit :=
  logger_warn DEPRECATION_WARNING ;;;
  for_each (update_one kwargs) cached_products.

End Command.

(** The call the command owes to one option: none when the option is not
    given ([None]), else one with the option's value as the only source. *)
Definition call_for (source : value) (destination : string)
    : list OrbitCall :=
  match source with
  | PyNone => []
  | _ => [ {| oc_sources := [source];
              oc_destination := destination;
              oc_updater :=
                simple_cached_product_updater update_orbit_counter_file;
              oc_tmp_extension := ".tmp.cdf" |} ]
  end.

End UpdateOrbitCounter.

(** ** Selection of product collections ([_product_collection/common.py]) *)

Module CollectionSelection.

Section Selection.

(** A row of the queried table and the fields the filters look at;
    [None] is a field without value (a missing spacecraft), which no
    [__in] filter accepts. *)
Context {Row : Type} (identifier : Row → string)
  (type_identifier mission spacecraft grade : Row → option string).

(** The parsed command line: [identifier] is a list ([nargs="*"]), the
    filters are [None] or lists ([action="append"]). *)
Record Options : Type := {
  opt_identifier : list string;
  opt_product_type : option (list string);
  opt_mission : option (list string);
  opt_spacecraft : option (list string);
  opt_grade : option (list string);
  opt_select_all : bool;
}.

(** [query.filter(<field>__in=values)]. *)
Definition field_in (field : Row → option string) (values : list string)
    (row : Row) : bool :=
  match field row with
  | Some v => bool_decide (v ∈ values)
  | None => false
  end.

Definition filter_in (field : Row → option string) (values : list string)
    (query : list Row) : list Row :=
  List.filter (field_in field values) query.

(** [values = set(kwargs[name] or []); if values: query = query.filter(...)]. *)
Definition filter_if_given (field : Row → option string)
    (given : option (list string)) (query : list Row) : list Row :=
  match default [] given with
  | [] => query
  | values => filter_in field values query
  end.

(** [ProductCollectionSelectionSubcommand._select_collections_by_id]. *)
Definition select_collections_by_id (kwargs : Options) (query : list Row)
    : M (list string) (list Row) :=
  match opt_identifier kwargs with
  | [] => ret query
  | identifiers => ret (filter_in (λ row, Some (identifier row)) identifiers
                          query)
  end.

Definition NOTHING_SELECTED : string :=
  "No identifier selected and no collection will be removed. "
  ++ "Use the --all option to remove all matched items.".

(** [self.warning]. *)
Definition warning (msg : string) : M (list string) unit :=
  modify (λ warnings, (warnings ++ [msg])%list).

(** [ProductCollectionSelectionProtectedSubcommand._select_collections_by_id]:
    without identifiers nothing is selected unless [--all] is given. *)
Definition select_collections_by_id_protected (kwargs : Options)
    (query : list Row) : M (list string) (list Row) :=
  let identifiers := opt_identifier kwargs in
  if bool_decide (identifiers ≠ []) || negb (opt_select_all kwargs) then
    let query := filter_in (λ row, Some (identifier row)) identifiers query in
    match identifiers with
    | [] => warning NOTHING_SELECTED ;;; ret query
    | _ => ret query
    end
  else ret query.

(** [select_collections], over the [_select_collections_by_id] of the
    class. *)
Definition select_collections
    (by_id : Options → list Row → M (list string) (list Row))
    (query : list Row) (kwargs : Options) : M (list string) (list Row) :=
  let query := filter_if_given type_identifier (opt_product_type kwargs)
                 query in
  let query := filter_if_given mission (opt_mission kwargs) query in
  let query := filter_if_given spacecraft (opt_spacecraft kwargs) query in
  let query := filter_if_given grade (opt_grade kwargs) query in
  by_id kwargs query.

(** A row passes a filter that is not given or given empty; it passes a
    given one when its field has one of the values. *)
Definition passes (field : Row → option string)
    (given : option (list string)) (row : Row) : Prop :=
  default [] given = [] ∨ ∃ v, field row = Some v ∧ v ∈ default [] given.

End Selection.

End CollectionSelection.

(** ** Python string methods used by the commands and the parsers *)

Module Str.

(** [s.find(c)] for a one-character [c]; [None] stands for [-1]. *)
Fixpoint find (c : ascii) (s : string) : option nat :=
  match s with
  | EmptyString => None
  | String c' s' => if Ascii.eqb c' c then Some 0 else S <$> find c s'
  end.

(** [s[:n]] and [s[n:]]. *)
Fixpoint take (n : nat) (s : string) : string :=
  match n, s with
  | S n', String c s' => String c (take n' s')
  | _, _ => EmptyString
  end.

Fixpoint drop (n : nat) (s : string) : string :=
  match n, s with
  | S n', String _ s' => drop n' s'
  | _, _ => s
  end.

(** [s.partition(c)[0]]: what precedes the first [c], all of [s] when
    there is none. *)
Definition before (c : ascii) (s : string) : string :=
  match find c s with
  | Some i => take i s
  | None => s
  end.

(** [s.split(c)]. *)
Fixpoint split (c : ascii) (s : string) : list string :=
  match s with
  | EmptyString => [EmptyString]
  | String c' s' =>
      if Ascii.eqb c' c then EmptyString :: split c s'
      else match split c s' with
           | piece :: pieces => String c' piece :: pieces
           | [] => [String c' EmptyString]
           end
  end.

(** [c in s]. *)
Fixpoint contains (c : ascii) (s : string) : bool :=
  match s with
  | EmptyString => false
  | String c' s' => Ascii.eqb c' c || contains c s'
  end.

(** [s.count(c)]. *)
Fixpoint count (c : ascii) (s : string) : nat :=
  match s with
  | EmptyString => 0
  | String c' s' => (if Ascii.eqb c' c then 1 else 0) + count c s'
  end.

(** [s[len(prefix):]] when [s.startswith(prefix)]. *)
Fixpoint after_prefix (prefix s : string) : option string :=
  match prefix, s with
  | EmptyString, _ => Some s
  | String a prefix', String b s' =>
      if Ascii.eqb a b then after_prefix prefix' s' else None
  | String _ _, EmptyString => None
  end.

(** The white space of a byte string: space, [\t], [\n], [\r], [\x0b],
    [\x0c]. *)
Definition byte_isspace (c : ascii) : bool :=
  let n := nat_of_ascii c in
  (n =? 32)%nat || ((9 <=? n)%nat && (n <=? 13)%nat).

Section Strip.

(** What [strip] takes for white space depends on the string type (bytes or
    Unicode text). *)
Context (isspace : ascii → bool).

Fixpoint lstrip (s : string) : string :=
  match s with
  | EmptyString => EmptyString
  | String c s' => if isspace c then lstrip s' else s
  end.

Fixpoint rstrip (s : string) : string :=
  match s with
  | EmptyString => EmptyString
  | String c s' =>
      match rstrip s' with
      | EmptyString => if isspace c then EmptyString
                       else String c EmptyString
      | rest => String c rest
      end
  end.

(** [s.strip()]. *)
Definition strip (s : string) : string := rstrip (lstrip s).

End Strip.

End Str.

(** ** The [vires_product_add] command: its helper functions *)

Module ProductAdd.

(** [_split_location]: [<format>:<location>], the format being [None]
    when there is no colon. *)
Definition _split_location (item : string) : option string * string :=
  match Str.find ":" item with
  | None => (None, item)
  | Some idx => (Some (Str.take idx item), Str.drop (idx + 1) item)
  end.

(** [get_product_id]: [basename(data_file).partition(".")[0]]. *)
Definition get_product_id (data_file : string) : string :=
  Str.before "." (basename data_file).

Section ReadProducts.

Context (isspace : ascii → bool).

(** [_read_lines] of [read_products]: comments and white-space padding are
    stripped, empty lines ignored. *)
Fixpoint _read_lines (lines : list string) : list string :=
  match lines with
  | [] => []
  | line :: lines' =>
      let line := Str.before "#" line in
      let line := Str.strip isspace line in
      match line with
      | EmptyString => _read_lines lines'
      | _ => line :: _read_lines lines'
      end
  end.

(** An iterator handed to a [for] loop: the items it yields and the
    exception that ends the iteration, if one does. *)
Record Products : Type := {
  yields : list string;
  ends_with : option exn;
}.

(** [read_products]: the command-line arguments, or the lines of the
    standard input for the file name ["-"].  For another file name [open]
    raises when the file cannot be opened; else the generator over its
    lines is made inside the [with] block and started only by the caller,
    when the file is closed: its first step raises [ValueError]. *)
Definition read_products (stdin : list string)
    (open : string → result (list string))
    (filename : option string) (args : list string)
    : result Products :=
  match filename with
  | None => Return {| yields := args; ends_with := None |}
  | Some name =>
      if String.eqb name "-"
      then Return {| yields := _read_lines stdin; ends_with := None |}
      else match open name with
           | Return lines =>
               Return {| yields := [];
                         ends_with :=
                           Some (ValueError
                                   "I/O operation on closed file") |}
           | Raise e => Raise e
           end
  end.

End ReadProducts.

(** The counters of [handle]. *)
Record Tally : Type := {
  total_count : nat;
  inserted_count : nat;
  removed_count : nat;
  skipped_count : nat;
  failed_count : nat;
}.

(** What [handle] prints: for a product that failed the call of
    [print_traceback] and the error line, and the lines of the summary. *)
Inductive message : Type :=
| Traceback (error : exn)
| RegistrationFailed (product_id : string) (error : exn)
| ProductsRegistered (n total : nat)
| ProductsSkipped (n total : nat)
| ProductsDeregistered (n : nat)
| ProductsFailed (n total : nat)
| NoActionPerformed.

Section Handle.

(** The data base, and [_register_product] for a fixed collection and
    conflict policy: it returns the identifiers removed and inserted, or
    raises. *)
Context {DB : Type}
  (_register_product :
     string → string → DB → result (list string * list string) * DB).

(** The state of [handle]: the data base, the counters, the output. *)
Record Run : Type := {
  db : DB;
  tally : Tally;
  output : list message;
}.

(** The body of the loop over the data files. *)
Definition handle_one (data_file : string) (st : Run) : Run :=
  let product_id := get_product_id data_file in
  let t := tally st in
  match _register_product product_id data_file (db st) with
  | (Raise error, db') =>
      {| db := db';
         tally := {| total_count := total_count t + 1;
                     inserted_count := inserted_count t;
                     removed_count := removed_count t;
                     skipped_count := skipped_count t;
                     failed_count := failed_count t + 1 |};
         output :=
           (output st ++ [Traceback error;
                          RegistrationFailed product_id error])%list |}
  | (Return (removed, inserted), db') =>
      {| db := db';
         tally := {| total_count := total_count t + 1;
                     inserted_count :=
                       match inserted with
                       | [] => inserted_count t
                       | _ => inserted_count t + 1
                       end;
                     removed_count := removed_count t + length removed;
                     skipped_count :=
                       match inserted with
                       | [] => skipped_count t + 1
                       | _ => skipped_count t
                       end;
                     failed_count := failed_count t |};
         output := output st |}
  end.

(** The summary printed after the loop. *)
Definition summary (t : Tally) : list message :=
  ((if (0 <? inserted_count t)%nat
    then [ProductsRegistered (inserted_count t) (total_count t)] else [])
   ++ (if (0 <? skipped_count t)%nat
       then [ProductsSkipped (skipped_count t) (total_count t)] else [])
   ++ (if (0 <? removed_count t)%nat
       then [ProductsDeregistered (removed_count t)] else [])
   ++ (if (0 <? failed_count t)%nat
       then [ProductsFailed (failed_count t) (total_count t)] else [])
   ++ (if (total_count t =? 0)%nat then [NoActionPerformed] else []))%list.

(** [handle] from the loop on, the collection being resolved. *)
Definition handle_products (data_files : list string) (database : DB)
    : Run :=
  let st := foldl (λ st data_file, handle_one data_file st)
              {| db := database;
                 tally := {| total_count := 0; inserted_count := 0;
                             removed_count := 0; skipped_count := 0;
                             failed_count := 0 |};
                 output := [] |}
              data_files in
  {| db := db st; tally := tally st;
     output := (output st ++ summary (tally st))%list |}.

End Handle.

End ProductAdd.

(** ** The input parsers of the processes ([processes/util]) *)

Module InputParsers.

(** Why an input was rejected: the parameters of the message that goes
    with [InvalidInputValueError]. *)
Inductive reason : Type :=
| CustomModelInvalid
| ModelInvalid (model_id : string)
| FilterSyntax
| FilterNameEmpty
| FilterBound (text : string)
| FilterDuplicate (name : string)
| ObjectExpected
| ListExpected (label : string)
| CollectionInvalid (collection_id label : string)
| CollectionListEmpty (label : string)
| MasterMismatch (label : string)
| TypeRepeated (label : string).

(** The exceptions leaving a parser: [InvalidInputValueError(input_id,
    message)], or whatever a collaborator raised and the parser did not
    catch. *)
Inductive failure : Type :=
| InvalidInputValueError (input_id : string) (why : reason)
| Uncaught (e : exn).

Inductive outcome (A : Type) : Type :=
| Ok (a : A)
| Fail (f : failure).
Arguments Ok {A} a.
Arguments Fail {A} f.

(** The first result a function gives on the items of a list. *)
Fixpoint list_find_map_first {A B} (f : A → option B) (l : list A)
    : option B :=
  match l with
  | [] => None
  | x :: l' => match f x with Some y => Some y | None => list_find_map_first f l' end
  end.

(** An [OrderedDict]: [od_set] is [d[key] = value], which keeps the place
    of a key that is there already. *)
Fixpoint od_set {V} (key : string) (value : V) (d : list (string * V))
    : list (string * V) :=
  match d with
  | [] => [(key, value)]
  | (k, v) :: d' =>
      if String.eqb k key then (k, value) :: d'
      else (k, v) :: od_set key value d'
  end.

Section Parsers.

Context (isspace : ascii → bool).

(** *** [parse_model], [parse_models] *)

Section Models.

(** The collaborators: [get_model] of [vires.util], which works on some
    state and may raise, and [read_model_shc] of [eoxmagmod], which raises
    [ValueError] ([None]) on coefficients it cannot parse. *)
Context {S Mdl Shc : Type}
  (get_model : string → S → result (option Mdl) * S)
  (read_model_shc : Shc → option Mdl).

Definition parse_model (input_id model_id : string) (shc : Shc)
    (shc_input_id : string) (st : S) : outcome Mdl * S :=
  if String.eqb model_id "Custom_Model" then
    match read_model_shc shc with
    | Some model => (Ok model, st)
    | None =>
        (Fail (InvalidInputValueError shc_input_id CustomModelInvalid), st)
    end
  else
    match get_model model_id st with
    | (Return (Some model), st') => (Ok model, st')
    | (Return None, st') =>
        (Fail (InvalidInputValueError input_id (ModelInvalid model_id)), st')
    | (Raise e, st') => (Fail (Uncaught e), st')
    end.

(** The loop of [parse_models]. *)
Fixpoint parse_model_ids (input_id : string) (model_ids : list string)
    (shc : Shc) (shc_input_id : string) (models : list (string * Mdl))
    (st : S) : outcome (list (string * Mdl)) * S :=
  match model_ids with
  | [] => (Ok models, st)
  | model_id :: model_ids' =>
      match parse_model input_id model_id shc shc_input_id st with
      | (Ok model, st') =>
          parse_model_ids input_id model_ids' shc shc_input_id
            (od_set model_id model models) st'
      | (Fail f, st') => (Fail f, st')
      end
  end.

Definition parse_models (input_id model_ids : string) (shc : Shc)
    (shc_input_id : string) (st : S) : outcome (list (string * Mdl)) * S :=
  match Str.strip isspace model_ids with
  | EmptyString => (Ok [], st)
  | _ =>
      parse_model_ids input_id
        (Str.strip isspace <$> Str.split "," model_ids)
        shc shc_input_id [] st
  end.

End Models.

(** *** [parse_variables] ([parsers/variables.py]) *)

Definition parse_variables (input_id variables_strings : string)
    : list string :=
  let variables_strings := Str.strip isspace variables_strings in
  match variables_strings with
  | EmptyString => []
  | _ => Str.strip isspace <$> Str.split "," variables_strings
  end.

(** *** [parse_filters] *)

Section Filters.

(** [float]: [None] is its [ValueError]. *)
Context {F : Type} (float : string → option F).

(** [[float(v) for v in bounds.split(",")]]. *)
Fixpoint floats (texts : list string) : reason + list F :=
  match texts with
  | [] => inr []
  | text :: texts' =>
      match float text with
      | None => inl (FilterBound text)
      | Some x =>
          match floats texts' with
          | inl why => inl why
          | inr xs => inr (x :: xs)
          end
      end
  end.

(** The body of the loop: the [ValueError]s it raises, by tuple unpacking,
    by [float] and by its own checks. *)
Definition parse_filter (item : string) (filters : list (string * (F * F)))
    : reason + list (string * (F * F)) :=
  match Str.split ":" item with
  | [name; bounds] =>
      let name := Str.strip isspace name in
      match name with
      | EmptyString => inl FilterNameEmpty
      | _ =>
          match floats (Str.split "," bounds) with
          | inl why => inl why
          | inr [lower; upper] =>
              if bool_decide (name ∈ filters.*1)
              then inl (FilterDuplicate name)
              else inr (filters ++ [(name, (lower, upper))])%list
          | inr _ => inl FilterSyntax
          end
      end
  | _ => inl FilterSyntax
  end.

Fixpoint parse_filter_items (items : list string)
    (filters : list (string * (F * F)))
    : reason + list (string * (F * F)) :=
  match items with
  | [] => inr filters
  | item :: items' =>
      match parse_filter item filters with
      | inl why => inl why
      | inr filters' => parse_filter_items items' filters'
      end
  end.

Definition parse_filters (input_id filter_string : string)
    : outcome (list (string * (F * F))) :=
  match Str.strip isspace filter_string with
  | EmptyString => Ok []
  | _ =>
      match parse_filter_items (Str.split ";" filter_string) [] with
      | inl why => Fail (InvalidInputValueError input_id why)
      | inr filters => Ok filters
      end
  end.

End Filters.

End Parsers.

(** *** [get_subtracted_variables] ([parsers/variables.py]) *)

(** The character class [[ABC]]. *)
Definition is_ABC (c : ascii) : bool :=
  Ascii.eqb c "A" || Ascii.eqb c "B" || Ascii.eqb c "C".

(** [_(?:res|diff)([ABC])([ABC])] matched at the start of [s], the
    alternatives being tried in their order: the two letters. *)
Definition match_tail (keywords : list string) (s : string)
    : option (ascii * ascii) :=
  match s with
  | String "_" s' =>
      list_find_map_first
        (λ keyword,
           match Str.after_prefix keyword s' with
           | Some (String x (String y _)) =>
               if is_ABC x && is_ABC y then Some (x, y) else None
           | _ => None
           end) keywords
  | _ => None
  end.

(** [(.+)] followed by the tail, matched at the start of the string
    ([re.match]): the dot takes no newline, and being greedy the group
    takes the longest prefix after which the tail matches.  [base] is what
    the group has taken so far. *)
Fixpoint match_from (keywords : list string) (base s : string)
    : option (string * ascii * ascii) :=
  match s with
  | EmptyString => None
  | String c s' =>
      let here :=
        match base with
        | EmptyString => None
        | _ => (λ xy : ascii * ascii, (base, xy.1, xy.2))
                 <$> match_tail keywords s
        end in
      if Ascii.eqb c "010" then here
      else match match_from keywords (base ++ String c EmptyString) s' with
           | Some groups => Some groups
           | None => here
           end
  end.

(** [RE_SUBTRACTED_VARIABLE.match] with its groups, and
    [RE_RESIDUAL_VARIABLE.match] of [input_parsers.py]. *)
Definition RE_SUBTRACTED_VARIABLE (variable : string)
    : option (string * ascii * ascii) :=
  match_from ["res"; "diff"] EmptyString variable.

Definition RE_RESIDUAL_VARIABLE (variable : string)
    : option (string * ascii * ascii) :=
  match_from ["res"] EmptyString variable.

Definition get_subtracted_variables (variables : list string)
    : list (string * (string * ascii * ascii)) :=
  omap (λ variable,
          (λ groups, (variable, groups)) <$> RE_SUBTRACTED_VARIABLE variable)
       variables.

(** *** [parse_collections] *)

(** A product collection: its identifier and (the name of) its range
    type. *)
Record Collection : Type := {
  identifier : string;
  range_type : string;
}.

(** The decoded JSON input: an object whose values should be lists of
    collection identifiers.  The items of the object are given in the
    order the dictionary yields them; its labels are distinct. *)
Inductive ids_value : Type :=
| NotAList
| IdList (collection_ids : list string).

Inductive source_value : Type :=
| NotAnObject
| Object (items : list (string * ids_value)).

Section Collections.

(** The table of the product collections and the constructor of the time
    series. *)
Context {Series : Type} (collections : list Collection)
  (ProductTimeSeries : Collection → Series).

(** [dict((obj.identifier, obj) for obj in
    ProductCollection.objects.filter(identifier__in=collection_ids))]. *)
Definition available_collections (collection_ids : list string)
    : gmap string Collection :=
  foldl (λ acc obj, <[identifier obj := obj]> acc) ∅
        (filter (λ obj, identifier obj ∈ collection_ids) collections).

(** [[available_collections[id_] for id_ in collection_ids]]; the
    [KeyError] carries the identifier. *)
Fixpoint pick (available : gmap string Collection)
    (collection_ids : list string) : string + list Collection :=
  match collection_ids with
  | [] => inr []
  | id_ :: ids =>
      match available !! id_ with
      | None => inl id_
      | Some obj =>
          match pick available ids with
          | inl missing => inl missing
          | inr objs => inr (obj :: objs)
          end
      end
  end.

(** The first loop: the collection identifiers are resolved. *)
Fixpoint resolve_ids (items : list (string * ids_value))
    : reason + list (string * list Collection) :=
  match items with
  | [] => inr []
  | (label, NotAList) :: _ => inl (ListExpected label)
  | (label, IdList collection_ids) :: items' =>
      match pick (available_collections collection_ids) collection_ids with
      | inl missing => inl (CollectionInvalid missing label)
      | inr objs =>
          match resolve_ids items' with
          | inl why => inl why
          | inr result => inr ((label, objs) :: result)
          end
      end
  end.

(** The inner loop over the slaves of one label. *)
Fixpoint collect_slaves (label master_rtype : string)
    (rtypes slave_rtypes : list string) : reason + list string :=
  match rtypes with
  | [] => inr slave_rtypes
  | rtype :: rtypes' =>
      if String.eqb rtype master_rtype
         || bool_decide (rtype ∈ slave_rtypes)
      then inl (TypeRepeated label)
      else collect_slaves label master_rtype rtypes'
             (slave_rtypes ++ [rtype])%list
  end.

(** The second loop, with its two variables [master_rtype] and
    [range_types]. *)
Fixpoint check_types (result : list (string * list Collection))
    (master_rtype : option string) (range_types : list string)
    : reason + (option string * list string) :=
  match result with
  | [] => inr (master_rtype, range_types)
  | (label, objs) :: result' =>
      match objs with
      | [] => inl (CollectionListEmpty label)
      | master :: slaves =>
          let checked :=
            match master_rtype with
            | None => inr (range_type master, [range_type master])
            | Some rtype =>
                if String.eqb rtype (range_type master)
                then inr (rtype, range_types)
                else inl (MasterMismatch label)
            end in
          match checked with
          | inl why => inl why
          | inr (master_rtype, range_types) =>
              match collect_slaves label master_rtype
                      (range_type <$> slaves) [] with
              | inl why => inl why
              | inr slave_rtypes =>
                  check_types result' (Some master_rtype)
                    (foldl (λ acc rtype,
                              if bool_decide (rtype ∈ acc) then acc
                              else (acc ++ [rtype])%list)
                           range_types slave_rtypes)
              end
          end
      end
  end.

Definition parse_collections (input_id : string) (source : source_value)
    : outcome (list (string * list Series)) :=
  match source with
  | NotAnObject => Fail (InvalidInputValueError input_id ObjectExpected)
  | Object items =>
      match resolve_ids items with
      | inl why => Fail (InvalidInputValueError input_id why)
      | inr result =>
          match check_types result None [] with
          | inl why => Fail (InvalidInputValueError input_id why)
          | inr _ =>
              Ok ((λ entry : string * list Collection,
                     (entry.1, ProductTimeSeries <$> entry.2)) <$> result)
          end
      end
  end.

End Collections.

End InputParsers.

(** More of the test bench: inputs for the commands and the parsers. *)

Module Scenario3.

Import Scenario Scenario2.

(** The default factory of ["MMA_SHA_2C-Secondary"] on the bench. *)
Definition mma_secondary : @ModelFactory Z :=
  {| loader := test_loader;
     model_files := [test_file "/cache/MMA_SHA_2C"];
     tracker := 11 |}.

(** The orbit-counter command run with [--alpha a.txt --charlie -]. *)
Definition orbit_kwargs : gmap string UpdateCachedProduct.value :=
  {[ "filename_a" := UpdateCachedProduct.PyStr "a.txt";
     "filename_b" := UpdateCachedProduct.PyNone;
     "filename_c" := UpdateCachedProduct.PyStr "-" ]}.

Definition orbit_start : UpdateOrbitCounter.Run :=
  {| UpdateOrbitCounter.warnings := [];
     UpdateOrbitCounter.update_calls := [] |}.

Definition update_ok (c : UpdateOrbitCounter.OrbitCall) : result unit :=
  Return tt.

Definition update_broken (c : UpdateOrbitCounter.OrbitCall) : result unit :=
  Raise (OtherError "download failed").

(** A table of collections named by their identifiers alone. *)
Definition no_field (row : string) : option string := None.

Definition no_options : CollectionSelection.Options :=
  {| CollectionSelection.opt_identifier := [];
     CollectionSelection.opt_product_type := None;
     CollectionSelection.opt_mission := None;
     CollectionSelection.opt_spacecraft := None;
     CollectionSelection.opt_grade := None;
     CollectionSelection.opt_select_all := false |}.

Definition all_options : CollectionSelection.Options :=
  {| CollectionSelection.opt_identifier := [];
     CollectionSelection.opt_product_type := None;
     CollectionSelection.opt_mission := None;
     CollectionSelection.opt_spacecraft := None;
     CollectionSelection.opt_grade := None;
     CollectionSelection.opt_select_all := true |}.

(** A [get_model] that knows every identifier, and one that knows ["A"]
    only; models are their names. *)
Definition get_any (model_id : string) (st : unit)
    : result (option string) * unit :=
  (Return (Some model_id), st).

Definition get_A (model_id : string) (st : unit)
    : result (option string) * unit :=
  (if String.eqb model_id "A" then Return (Some model_id) else Return None,
   st).

Definition no_shc (shc : unit) : option string := None.

(** A [float] that reads the numerals 1 and 2. *)
Definition small_float (text : string) : option nat :=
  match Str.strip Str.byte_isspace text with
  | "1" => Some 1
  | "2" => Some 2
  | _ => None
  end.

Definition bench_collections : list InputParsers.Collection := [
  {| InputParsers.identifier := "MAG_A"; InputParsers.range_type := "MAG" |};
  {| InputParsers.identifier := "MAG_B"; InputParsers.range_type := "MAG" |};
  {| InputParsers.identifier := "EFI_A"; InputParsers.range_type := "EFI" |}
].

Definition bench_source : InputParsers.source_value :=
  InputParsers.Object [
    ("A", InputParsers.IdList ["MAG_A"; "EFI_A"]);
    ("B", InputParsers.IdList ["MAG_B"])
  ].

End Scenario3.

(** * Properties *)

(** ** The change monitor *)

Section MonitorFacts.

Implicit Types (fs : gmap string File) (paths : list string)
  (last : gmap string Z).

(** A file that is present has a fingerprint. *)
Lemma getmtime_present fs path :
  is_Some (fs !! path) → ∃ fp, getmtime fs path = Return fp.
Proof. intros [f Hf]. exists (mtime f). unfold getmtime. by rewrite Hf. Qed.

(** The check answers (does not raise) when every path is present. *)
Lemma changed_returns fs paths last :
  (∀ p, p ∈ paths → is_Some (fs !! p)) →
  ∃ b last', changed fs paths last = (Return b, last').
Proof.
  revert last. induction paths as [|p ps IH]; intros last Hall; simpl.
  - eauto.
  - destruct (getmtime_present fs p) as [fp ->]; [apply Hall; left|].
    destruct (IH (<[p:=fp]> last)) as (b & last' & ->).
    + intros q Hq. apply Hall. by right.
    + eauto.
Qed.

(** A missing path makes the check raise [OSError] for a missing path of
    the list. *)
Lemma changed_missing fs paths last p :
  p ∈ paths → fs !! p = None →
  ∃ q last', changed fs paths last = (Raise (OSError q), last')
             ∧ q ∈ paths ∧ fs !! q = None.
Proof.
  revert last. induction paths as [|p0 ps IH]; intros last Hin Hnone.
  - by apply elem_of_nil in Hin.
  - simpl. unfold getmtime at 1. destruct (fs !! p0) as [f0|] eqn:E0.
    + assert (p ∈ ps) as Hps.
      { apply elem_of_cons in Hin as [->|]; [congruence|done]. }
      destruct (IH (<[p0:=mtime f0]> last) Hps Hnone)
        as (q & last' & -> & Hq & Hqn).
      exists q, last'. split_and!; [done| by right | done].
    + exists p0, last. split_and!; [done| by left | done].
Qed.

(** After an answered check the stored fingerprint of every checked path is
    the observed one, and the other paths keep theirs.  (The equation
    [Return <$> last !! p = Some (getmtime fs p)] says that [p] has a stored
    fingerprint, that the file is there, and that the two time stamps
    agree.) *)
Lemma changed_stored fs paths last b last' :
  changed fs paths last = (Return b, last') →
  (∀ p, p ∈ paths → Return <$> last' !! p = Some (getmtime fs p))
  ∧ (∀ p, p ∉ paths → last' !! p = last !! p).
Proof.
  revert last b last'. induction paths as [|p0 ps IH]; intros last b last'.
  - simpl. intros [= <- <-]. split; [|done].
    intros p Hp. by apply elem_of_nil in Hp.
  - simpl. destruct (getmtime fs p0) as [fp|e] eqn:E0; [|done].
    destruct (changed fs ps (<[p0:=fp]> last)) as [[rest|e] l1] eqn:E1;
      [|done].
    intros [= <- <-]. destruct (IH _ _ _ E1) as [IHin IHout]. split.
    + intros p Hp. destruct (decide (p ∈ ps)) as [Hps|Hps]; [by apply IHin|].
      apply elem_of_cons in Hp as [->|]; [|done].
      rewrite IHout by done. by rewrite lookup_insert_eq, E0.
    + intros p Hp. apply not_elem_of_cons in Hp as [Hne Hps].
      rewrite IHout by done. by rewrite lookup_insert_ne.
Qed.

(** The answer is [True] exactly when some checked path has a stored
    fingerprint other than the observed one. *)
Lemma changed_true_iff fs paths last b last' :
  changed fs paths last = (Return b, last') →
  b = true ↔ ∃ p, p ∈ paths ∧ Return <$> last !! p ≠ Some (getmtime fs p).
Proof.
  revert last b last'. induction paths as [|p0 ps IH]; intros last b last'.
  - simpl. intros [= <- <-]. split; [done|].
    intros (p & Hp & _). by apply elem_of_nil in Hp.
  - simpl. destruct (getmtime fs p0) as [fp|e] eqn:E0; [|done].
    destruct (changed fs ps (<[p0:=fp]> last)) as [[rest|e] l1] eqn:E1;
      [|done].
    intros [= <- <-]. specialize (IH _ _ _ E1).
    rewrite orb_true_iff, bool_decide_eq_true, IH. split.
    + intros [Hne | (p & Hp & Hne)].
      * exists p0. split; [by left|]. rewrite E0.
        destruct (last !! p0); simpl; congruence.
      * exists p. split; [by right|].
        destruct (decide (p0 = p)) as [->|Hpp].
        -- exfalso. apply Hne. by rewrite lookup_insert_eq, E0.
        -- by rewrite lookup_insert_ne in Hne.
    + intros (p & Hp & Hne). destruct (decide (p0 = p)) as [->|Hpp].
      * left. rewrite E0 in Hne. destruct (last !! p); simpl in *; congruence.
      * right. exists p. apply elem_of_cons in Hp as [->|Hp]; [done|].
        split; [done|]. by rewrite lookup_insert_ne.
Qed.

(** Only the fingerprints of the checked paths matter. *)
Lemma changed_ext fs fs' paths last :
  (∀ p, p ∈ paths → getmtime fs' p = getmtime fs p) →
  changed fs' paths last = changed fs paths last.
Proof.
  revert last. induction paths as [|p0 ps IH]; intros last Hsame; [done|].
  simpl. rewrite Hsame by (by left).
  destruct (getmtime fs p0); [|done].
  rewrite IH; [done|]. intros p Hp. apply Hsame. by right.
Qed.

(** A check that finds every stored fingerprint up to date answers [False]
    and leaves the monitor as it is. *)
Lemma changed_up_to_date fs paths last :
  (∀ p, p ∈ paths → Return <$> last !! p = Some (getmtime fs p)) →
  changed fs paths last = (Return false, last).
Proof.
  induction paths as [|p0 ps IH]; intros Hup; [done|].
  simpl. pose proof (Hup p0 ltac:(by left)) as H0.
  destruct (getmtime fs p0) as [fp|e] eqn:E0;
    destruct (last !! p0) as [fp0|] eqn:L0; simplify_eq/=.
  rewrite insert_id by done.
  rewrite IH; [|intros p Hp; apply Hup; by right].
  rewrite bool_decide_eq_false_2; [done|]. by intros [].
Qed.

(** Repeating an answered check at once answers [False]. *)
Lemma changed_again fs paths last b last' :
  changed fs paths last = (Return b, last') →
  changed fs paths last' = (Return false, last').
Proof.
  intros H. apply changed_up_to_date. by apply (changed_stored _ _ _ _ _ H).
Qed.

(** A check that answers [False] leaves the monitor as it was. *)
Lemma changed_quiet fs paths last last' :
  changed fs paths last = (Return false, last') → last' = last.
Proof.
  revert last last'. induction paths as [|p0 ps IH]; intros last last'.
  - simpl. by intros [= <-].
  - simpl. destruct (getmtime fs p0) as [fp|e] eqn:E0; [|done].
    destruct (changed fs ps (<[p0:=fp]> last)) as [[rest|e] l1] eqn:E1;
      [|done].
    intros [= Hb <-]. apply orb_false_iff in Hb as [Hb ->].
    apply bool_decide_eq_false in Hb.
    destruct (decide (last !! p0 = Some fp)) as [Hfp|Hfp]; [|by destruct Hb].
    rewrite insert_id in E1 by done. by apply IH.
Qed.

End MonitorFacts.

(** ** The model cache *)

Section CacheFacts.

Context {Model : Type} (truthy : Model → bool).

Implicit Types (mc : @ModelCache Model) (f : @ModelFactory Model)
  (fs : gmap string File) (st : @Store Model) (m : @Instance Model).

Local Abbreviation lookup_model := (get_model_with_sources truthy).

Lemma set_monitor_id l last st :
  monitors st !! l = Some last → set_monitor l last st = st.
Proof.
  intros H. destruct st as [c s mo lg n i]. unfold set_monitor; simpl in *.
  by rewrite insert_id.
Qed.

Lemma monitor_at_set l last st : monitor_at l (set_monitor l last st) = last.
Proof. unfold monitor_at, set_monitor; simpl. by rewrite lookup_insert_eq. Qed.

(** *** The four ways through [get_model_with_sources] *)

(** No factory: the unknown-model answer, nothing touched. *)
Lemma lookup_unknown mc fs model_id st :
  model_factories mc !! resolve mc model_id = None →
  lookup_model mc fs model_id st = (Return (None, None), st).
Proof. intros H. unfold get_model_with_sources. by rewrite H. Qed.

(** The fingerprint check raises: so does the lookup, at once. *)
Lemma lookup_check_raises mc fs model_id st f e last :
  model_factories mc !! resolve mc model_id = Some f →
  changed fs (files f) (monitor_at (tracker f) st) = (Raise e, last) →
  lookup_model mc fs model_id st = (Raise e, set_monitor (tracker f) last st).
Proof.
  intros Hf Hc. unfold get_model_with_sources. rewrite Hf.
  unfold bind, gets, model_changed. by rewrite Hc.
Qed.

(** Nothing changed and a (true) model is cached: the cached pair. *)
Lemma lookup_cached mc fs model_id st f last m :
  model_factories mc !! resolve mc model_id = Some f →
  changed fs (files f) (monitor_at (tracker f) st) = (Return false, last) →
  cache st !! resolve mc model_id = Some m →
  truthy (inst_model m) = true →
  lookup_model mc fs model_id st =
    (match sources st !! resolve mc model_id with
     | Some srcs => Return (Some m, Some srcs)
     | None => Raise (KeyError (resolve mc model_id))
     end, set_monitor (tracker f) last st).
Proof.
  intros Hf Hc Hm Ht. unfold get_model_with_sources. rewrite Hf.
  unfold bind, gets, model_changed. rewrite Hc, Hm. simpl. rewrite Ht. simpl.
  unfold getitem; simpl. by destruct (sources st !! resolve mc model_id).
Qed.

(** A change was seen or no (true) model is cached: the loader runs once;
    its exception, or that of the sources, goes to the caller. *)
Lemma lookup_rebuild mc fs model_id st f chg last :
  model_factories mc !! resolve mc model_id = Some f →
  changed fs (files f) (monitor_at (tracker f) st) = (Return chg, last) →
  chg || not_model truthy (cache st !! resolve mc model_id) = true →
  lookup_model mc fs model_id st =
    let rid := resolve mc model_id in
    let st1 := count_loader_call (set_monitor (tracker f) last st) in
    match loader f (files f) fs with
    | Raise e => (Raise e, st1)
    | Return v =>
        let m := {| inst_id := next_id st; inst_model := v |} in
        let st2 := set_cache rid m (allocate st1) in
        match collect_sources fs (model_files f) with
        | Raise e => (Raise e, st2)
        | Return srcs =>
            (Return (Some m, Some srcs),
             add_log (rid ++ " model loaded") (set_sources rid srcs st2))
        end
    end.
Proof.
  intros Hf Hc Hdue. unfold get_model_with_sources. rewrite Hf.
  unfold bind at 1 2. unfold gets, model_changed. rewrite Hc, Hdue.
  unfold bind, call, factory_sources, modify, logger_info, ret; simpl.
  destruct (loader f (files f) fs) as [v|e]; [|done].
  by destruct (collect_sources fs (model_files f)).
Qed.

(** Whether the rebuild branch is taken is decided by the check and the
    cached model alone. *)
Lemma lookup_cases mc fs model_id st f :
  model_factories mc !! resolve mc model_id = Some f →
  (∃ e last, changed fs (files f) (monitor_at (tracker f) st)
               = (Raise e, last))
  ∨ (∃ last m, changed fs (files f) (monitor_at (tracker f) st)
                 = (Return false, last)
               ∧ cache st !! resolve mc model_id = Some m
               ∧ truthy (inst_model m) = true)
  ∨ (∃ chg last, changed fs (files f) (monitor_at (tracker f) st)
                   = (Return chg, last)
                 ∧ chg || not_model truthy (cache st !! resolve mc model_id)
                   = true).
Proof.
  intros _.
  destruct (changed fs (files f) (monitor_at (tracker f) st))
    as [[chg|e] last] eqn:Hc; [|left; eauto].
  destruct (chg || not_model truthy (cache st !! resolve mc model_id))
    eqn:Hdue; [right; right; eauto|].
  apply orb_false_iff in Hdue as [-> Hnm]. right; left.
  unfold not_model in Hnm.
  destruct (cache st !! resolve mc model_id) as [m|]; [|done].
  exists last, m. split_and!; [done|done|]. by apply negb_false_iff.
Qed.

(** What a lookup that answered with a model leaves behind: the pair is
    the cached one and the monitor holds the fingerprints of the files. *)
Lemma lookup_answer mc fs model_id st f m srcs st' :
  model_factories mc !! resolve mc model_id = Some f →
  lookup_model mc fs model_id st = (Return (Some m, Some srcs), st') →
  cache st' !! resolve mc model_id = Some m
  ∧ sources st' !! resolve mc model_id = Some srcs
  ∧ ∃ chg last,
      changed fs (files f) (monitor_at (tracker f) st) = (Return chg, last)
      ∧ monitors st' !! tracker f = Some last.
Proof.
  intros Hf Hrun.
  destruct (lookup_cases mc fs model_id st f Hf)
    as [(e & last & Hc)
       | [(last & m0 & Hc & Hm & Ht) | (chg & last & Hc & Hd)]].
  - rewrite (lookup_check_raises _ _ _ _ _ _ _ Hf Hc) in Hrun. done.
  - rewrite (lookup_cached _ _ _ _ _ _ _ Hf Hc Hm Ht) in Hrun.
    destruct (sources st !! resolve mc model_id) as [s0|] eqn:Hs; [|done].
    injection Hrun as <- <- <-. simpl. split_and!; [done|done|].
    exists false, last. split; [done|]. apply lookup_insert_eq.
  - rewrite (lookup_rebuild _ _ _ _ _ _ _ Hf Hc Hd) in Hrun. simpl in Hrun.
    destruct (loader f (files f) fs) as [v|e]; [|done].
    destruct (collect_sources fs (model_files f)) as [s0|e]; [|done].
    injection Hrun as <- <- <-. simpl.
    split_and!; [apply lookup_insert_eq | apply lookup_insert_eq |].
    exists chg, last. split; [done|]. apply lookup_insert_eq.
Qed.

(** Lookups keep the store well formed. *)
Lemma lookup_store_ok mc fs model_id st r st' :
  store_ok st →
  lookup_model mc fs model_id st = (r, st') →
  store_ok st' ∧ (next_id st ≤ next_id st')%nat.
Proof.
  intros Hok Hrun.
  destruct (model_factories mc !! resolve mc model_id) as [f|] eqn:Hf.
  2:{ rewrite (lookup_unknown _ _ _ _ Hf) in Hrun.
      injection Hrun as <- <-. split; [done|lia]. }
  destruct (lookup_cases mc fs model_id st f Hf)
    as [(e & last & Hc)
       | [(last & m0 & Hc & Hm & Ht) | (chg & last & Hc & Hd)]].
  - rewrite (lookup_check_raises _ _ _ _ _ _ _ Hf Hc) in Hrun.
    injection Hrun as <- <-. split; [exact Hok | simpl; lia].
  - rewrite (lookup_cached _ _ _ _ _ _ _ Hf Hc Hm Ht) in Hrun.
    injection Hrun as <- <-. split; [exact Hok | simpl; lia].
  - rewrite (lookup_rebuild _ _ _ _ _ _ _ Hf Hc Hd) in Hrun. simpl in Hrun.
    assert (∀ v, store_ok (set_cache (resolve mc model_id)
              {| inst_id := next_id st; inst_model := v |}
              (allocate (count_loader_call
                 (set_monitor (tracker f) last st))))) as Hok2.
    { intros v k m. simpl. intros Hk.
      apply lookup_insert_Some in Hk as [[_ <-]|[_ Hk]]; simpl; [lia|].
      apply Hok in Hk. lia. }
    destruct (loader f (files f) fs) as [v|e].
    + destruct (collect_sources fs (model_files f)) as [s0|e];
        injection Hrun as <- <-; (split; [apply (Hok2 v) | simpl; lia]).
    + injection Hrun as <- <-. split; [exact Hok | simpl; lia].
Qed.

(** A lookup that answered with a true model answers the same again when
    the fingerprints of the files are what they were, and leaves the store
    untouched. *)
Lemma lookup_again mc fs1 fs2 model_id f st0 m srcs st1 :
  model_factories mc !! resolve mc model_id = Some f →
  lookup_model mc fs1 model_id st0 = (Return (Some m, Some srcs), st1) →
  truthy (inst_model m) = true →
  (∀ p, p ∈ files f → getmtime fs2 p = getmtime fs1 p) →
  lookup_model mc fs2 model_id st1 = (Return (Some m, Some srcs), st1).
Proof.
  intros Hf Hrun Ht Hsame.
  destruct (lookup_answer _ _ _ _ _ _ _ _ Hf Hrun)
    as (Hm & Hs & chg & last & Hc & Hmon).
  assert (monitor_at (tracker f) st1 = last) as Hat.
  { unfold monitor_at. by rewrite Hmon. }
  assert (changed fs2 (files f) (monitor_at (tracker f) st1)
          = (Return false, last)) as Hc2.
  { rewrite Hat, (changed_ext fs1 fs2) by done.
    by apply (changed_again _ _ _ _ _ Hc). }
  rewrite (lookup_cached _ _ _ _ _ _ _ Hf Hc2 Hm Ht), Hs.
  by rewrite set_monitor_id.
Qed.

(** With a factory at hand the answer is never the unknown-model one. *)
Lemma lookup_registered mc fs model_id st f :
  model_factories mc !! resolve mc model_id = Some f →
  (lookup_model mc fs model_id st).1 ≠ Return (None, None).
Proof.
  intros Hf.
  destruct (lookup_cases mc fs model_id st f Hf)
    as [(e & last & Hc)
       | [(last & m0 & Hc & Hm & Ht) | (chg & last & Hc & Hd)]].
  - by rewrite (lookup_check_raises _ _ _ _ _ _ _ Hf Hc).
  - rewrite (lookup_cached _ _ _ _ _ _ _ Hf Hc Hm Ht). simpl.
    by destruct (sources st !! resolve mc model_id).
  - rewrite (lookup_rebuild _ _ _ _ _ _ _ Hf Hc Hd). simpl.
    destruct (loader f (files f) fs); [|done].
    by destruct (collect_sources fs (model_files f)).
Qed.

(** The lookup sees an identifier only through its resolved id. *)
Lemma lookup_resolved mc fs id1 id2 st :
  resolve mc id1 = resolve mc id2 →
  lookup_model mc fs id1 st = lookup_model mc fs id2 st.
Proof. intros H. unfold get_model_with_sources. by rewrite H. Qed.

(** In an alias table without chains resolving twice is resolving once. *)
Lemma resolve_no_chain mc model_id :
  (∀ a c, model_aliases mc !! a = Some c → model_aliases mc !! c = None) →
  resolve mc (resolve mc model_id) = resolve mc model_id.
Proof.
  intros Hflat. unfold resolve.
  destruct (model_aliases mc !! model_id) as [c|] eqn:Ha; simpl.
  - by rewrite (Hflat _ _ Ha).
  - by rewrite Ha.
Qed.

Lemma dom_insert_within {A} (c : gmap string A) (k : string) (v : A)
    (D : gset string) :
  k ∈ D → dom (<[k := v]> c) ⊆ dom c ∪ D.
Proof.
  intros Hk x Hx. rewrite dom_insert_L in Hx.
  apply elem_of_union in Hx as [Hx|Hx].
  - apply elem_of_singleton in Hx as ->. by apply elem_of_union_r.
  - by apply elem_of_union_l.
Qed.

(** What one lookup does to the store, whichever way it goes: entries of
    other identifiers and monitors of other factories stay, and the
    counters move by at most one. *)
Lemma lookup_effect mc fs model_id st r st' :
  lookup_model mc fs model_id st = (r, st') →
  (∀ k, k ≠ resolve mc model_id →
     cache st' !! k = cache st !! k ∧ sources st' !! k = sources st !! k)
  ∧ (∀ f l, model_factories mc !! resolve mc model_id = Some f →
       l ≠ tracker f → monitors st' !! l = monitors st !! l)
  ∧ (model_factories mc !! resolve mc model_id = None → st' = st)
  ∧ (loader_calls st ≤ loader_calls st' ≤ S (loader_calls st))%nat
  ∧ (next_id st' - next_id st ≤ loader_calls st' - loader_calls st)%nat
  ∧ (length (log st') - length (log st) ≤ next_id st' - next_id st)%nat
  ∧ (length (log st) ≤ length (log st'))%nat
  ∧ dom (cache st') ⊆ dom (cache st) ∪ dom (model_factories mc)
  ∧ dom (sources st') ⊆ dom (sources st) ∪ dom (cache st').
Proof.
  intros Hrun.
  destruct (model_factories mc !! resolve mc model_id) as [f|] eqn:Hf.
  2:{ rewrite (lookup_unknown _ _ _ _ Hf) in Hrun.
      injection Hrun as <- <-.
      split_and!; try done; try lia; try set_solver. }
  assert (∀ last l f0, Some f = Some f0 → l ≠ tracker f0 →
            <[tracker f := last]> (monitors st) !! l = monitors st !! l)
    as Hmon.
  { intros last l f0 [= <-] Hl. by rewrite lookup_insert_ne. }
  destruct (lookup_cases mc fs model_id st f Hf)
    as [(e & last & Hc)
       | [(last & m0 & Hc & Hm & Ht) | (chg & last & Hc & Hd)]].
  - rewrite (lookup_check_raises _ _ _ _ _ _ _ Hf Hc) in Hrun.
    injection Hrun as <- <-. simpl.
    split_and!; try done; try lia; try (intros f0 l; apply Hmon); try set_solver.
  - rewrite (lookup_cached _ _ _ _ _ _ _ Hf Hc Hm Ht) in Hrun.
    injection Hrun as <- <-. simpl.
    split_and!; try done; try lia; try (intros f0 l; apply Hmon); try set_solver.
  - rewrite (lookup_rebuild _ _ _ _ _ _ _ Hf Hc Hd) in Hrun.
    simpl in Hrun.
    assert (resolve mc model_id ∈ dom (model_factories mc)) as Hdom.
    { apply elem_of_dom. by exists f. }
    assert (∀ st2 : @Store Model,
              monitors st2 = <[tracker f := last]> (monitors st) →
              (∀ k, k ≠ resolve mc model_id →
                 cache st2 !! k = cache st !! k
                 ∧ sources st2 !! k = sources st !! k) →
              loader_calls st2 = S (loader_calls st) →
              (next_id st ≤ next_id st2 ≤ S (next_id st))%nat →
              (length (log st) ≤ length (log st2)
               ≤ length (log st) + (next_id st2 - next_id st))%nat →
              dom (cache st2) ⊆ dom (cache st) ∪ dom (model_factories mc) →
              dom (sources st2) ⊆ dom (sources st) ∪ dom (cache st2) →
              (∀ k, k ≠ resolve mc model_id →
                 cache st2 !! k = cache st !! k
                 ∧ sources st2 !! k = sources st !! k)
              ∧ (∀ f0 l, Some f = Some f0 → l ≠ tracker f0 →
                   monitors st2 !! l = monitors st !! l)
              ∧ (Some f = None → st2 = st)
              ∧ (loader_calls st ≤ loader_calls st2
                 ≤ S (loader_calls st))%nat
              ∧ (next_id st2 - next_id st
                 ≤ loader_calls st2 - loader_calls st)%nat
              ∧ (length (log st2) - length (log st)
                 ≤ next_id st2 - next_id st)%nat
              ∧ (length (log st) ≤ length (log st2))%nat
              ∧ dom (cache st2) ⊆ dom (cache st) ∪ dom (model_factories mc)
              ∧ dom (sources st2) ⊆ dom (sources st) ∪ dom (cache st2))
      as Hsum.
    { intros st2 Hmo Hfr Hlc Hid Hlg Hdc Hds.
      split_and!; try done; try lia.
      intros f0 l Heq Hl. rewrite Hmo. by apply (Hmon last l f0). }
    destruct (loader f (files f) fs) as [v|e].
    + destruct (collect_sources fs (model_files f)) as [s0|e].
      * injection Hrun as <- <-. apply Hsum; simpl; try done; try lia.
        -- intros k Hk. by rewrite !lookup_insert_ne.
        -- rewrite length_app. simpl. lia.
        -- by apply dom_insert_within.
        -- apply dom_insert_within. rewrite dom_insert_L.
           by apply elem_of_union_l, elem_of_singleton.
      * injection Hrun as <- <-. apply Hsum; simpl; try done; try lia.
        -- intros k Hk. by rewrite !lookup_insert_ne.
        -- by apply dom_insert_within.
        -- apply union_subseteq_l.
    + injection Hrun as <- <-. apply Hsum; simpl; try done; try lia;
        apply union_subseteq_l.
Qed.

(** A model that reflected the monitor keeps doing so while the monitor
    of its factory stays. *)
Lemma reflects_frame f st st' m :
  monitor_at (tracker f) st' = monitor_at (tracker f) st →
  reflects_last_detected f st m → reflects_last_detected f st' m.
Proof.
  intros Hsame (fs & Hfp & Hload). exists fs. split; [|done].
  intros p Hp. rewrite Hsame. by apply Hfp.
Qed.

(** What a build that is due does, when the check has answered. *)
Lemma lookup_rebuilt mc fs model_id st f chg last r st' :
  model_factories mc !! resolve mc model_id = Some f →
  changed fs (files f) (monitor_at (tracker f) st) = (Return chg, last) →
  chg || not_model truthy (cache st !! resolve mc model_id) = true →
  lookup_model mc fs model_id st = (r, st') →
  loader_calls st' = S (loader_calls st)
  ∧ (∀ v, loader f (files f) fs = Return v →
       cache st' !! resolve mc model_id
       = Some {| inst_id := next_id st; inst_model := v |}
       ∧ reflects_last_detected f st'
           {| inst_id := next_id st; inst_model := v |})
  ∧ ∀ om osrcs, r = Return (om, osrcs) →
      ∃ m, om = Some m
           ∧ loader f (files f) fs = Return (inst_model m)
           ∧ inst_id m = next_id st
           ∧ cache st' !! resolve mc model_id = Some m
           ∧ (∀ p, p ∈ files f →
                Return <$> monitor_at (tracker f) st' !! p
                = Some (getmtime fs p))
           ∧ reflects_last_detected f st' m.
Proof.
  intros Hf Hc Hdue Hrun.
  rewrite (lookup_rebuild _ _ _ _ _ _ _ Hf Hc Hdue) in Hrun.
  simpl in Hrun. destruct (changed_stored _ _ _ _ _ Hc) as [Hst _].
  assert (∀ st2 : @Store Model,
            monitors st2 = <[tracker f := last]> (monitors st) →
            ∀ p, p ∈ files f →
              Return <$> monitor_at (tracker f) st2 !! p
              = Some (getmtime fs p)) as Hfp.
  { intros st2 Hmo p Hp. unfold monitor_at. rewrite Hmo, lookup_insert_eq.
    simpl. by apply Hst. }
  destruct (loader f (files f) fs) as [v|e] eqn:Hload.
  - destruct (collect_sources fs (model_files f)) as [s0|e];
      injection Hrun as <- <-; (split; [reflexivity|]); split.
    + intros v' [= <-]. split; [apply lookup_insert_eq|].
      exists fs. split; [by apply Hfp | exact Hload].
    + intros om osrcs [= <- <-]. eexists. split; [reflexivity|]. simpl.
      split_and!; [reflexivity | reflexivity | apply lookup_insert_eq
                  | by apply Hfp |].
      exists fs. split; [by apply Hfp | exact Hload].
    + intros v' [= <-]. split; [apply lookup_insert_eq|].
      exists fs. split; [by apply Hfp | exact Hload].
    + intros ? ? ?. discriminate.
  - injection Hrun as <- <-. split; [reflexivity|]. split.
    + intros v' ?. discriminate.
    + intros ? ? ?. discriminate.
Qed.

(** A lookup whose check and build do not raise leaves the entry of its
    identifier in step with the monitor, and what it returns is that
    entry. *)
Lemma lookup_keeps_entry mc fs model_id st f r st' :
  model_factories mc !! resolve mc model_id = Some f →
  lookup_model mc fs model_id st = (r, st') →
  build_ok truthy mc fs model_id st →
  (∀ m0, cache st !! resolve mc model_id = Some m0 →
         reflects_last_detected f st m0) →
  (∀ m, cache st' !! resolve mc model_id = Some m →
        reflects_last_detected f st' m)
  ∧ ∀ om osrcs, r = Return (om, osrcs) →
      ∃ m, om = Some m ∧ cache st' !! resolve mc model_id = Some m
           ∧ reflects_last_detected f st' m.
Proof.
  intros Hf Hrun Hok Hfresh.
  destruct (Hok f Hf) as (chg & last & Hc & Hbuild).
  destruct (chg || not_model truthy (cache st !! resolve mc model_id))
    eqn:Hdue.
  - destruct (Hbuild eq_refl) as [v Hload].
    destruct (lookup_rebuilt _ _ _ _ _ _ _ _ _ Hf Hc Hdue Hrun)
      as (_ & Hnew & Hret).
    destruct (Hnew v Hload) as [Hm Hr]. split.
    + intros m Hm'. rewrite Hm in Hm'. by injection Hm' as <-.
    + intros om osrcs Hr'.
      destruct (Hret om osrcs Hr') as (m & -> & _ & _ & Hm' & _ & Hr'').
      by exists m.
  - apply orb_false_iff in Hdue as [-> Hnm]. unfold not_model in Hnm.
    destruct (cache st !! resolve mc model_id) as [m0|] eqn:Hm0; [|done].
    apply negb_false_iff in Hnm.
    rewrite (lookup_cached _ _ _ _ _ _ _ Hf Hc Hm0 Hnm) in Hrun.
    apply changed_quiet in Hc as ->.
    assert (reflects_last_detected f
              (set_monitor (tracker f) (monitor_at (tracker f) st) st) m0)
      as Hkept.
    { apply (reflects_frame f st); [apply monitor_at_set | by apply Hfresh]. }
    injection Hrun as <- <-. simpl. rewrite Hm0. split.
    + by intros m [= <-].
    + intros om osrcs Hr.
      destruct (sources st !! resolve mc model_id); [|done].
      injection Hr as <- <-. by exists m0.
Qed.

(** So it is for the whole store, each factory having its own monitor. *)
Lemma lookup_keeps_fresh mc fs model_id st r st' :
  own_trackers mc →
  lookup_model mc fs model_id st = (r, st') →
  build_ok truthy mc fs model_id st →
  never_stale mc st → never_stale mc st'.
Proof.
  intros Hown Hrun Hok Hfresh k fk m Hfk Hm.
  destruct (lookup_effect mc fs model_id st r st' Hrun)
    as (Hframe & Hmon & Hnone & _).
  destruct (model_factories mc !! resolve mc model_id) as [f|] eqn:Hf.
  2:{ rewrite (Hnone eq_refl) in Hm |- *. by apply (Hfresh k). }
  destruct (decide (k = resolve mc model_id)) as [->|Hk].
  - assert (fk = f) as -> by congruence.
    apply (lookup_keeps_entry mc fs model_id st f r st' Hf Hrun Hok);
      [|done].
    intros m0 Hm0. by apply (Hfresh (resolve mc model_id)).
  - destruct (Hframe k Hk) as [Hc _]. rewrite Hc in Hm.
    apply (reflects_frame fk st); [|by apply (Hfresh k)].
    unfold monitor_at. rewrite (Hmon f (tracker fk) eq_refl); [done|].
    intros Heq. apply Hk. by apply (Hown k (resolve mc model_id) fk f).
Qed.

(** And for a series of lookups. *)
Lemma lookups_keep_fresh mc (steps : list (gmap string File * string)) st :
  own_trackers mc →
  builds_ok truthy mc steps st →
  never_stale mc st → never_stale mc (lookups truthy mc steps st).
Proof.
  intros Hown. revert st.
  induction steps as [|[fs model_id] steps IH]; intros st Hok Hfresh; [done|].
  simpl in Hok. destruct Hok as [Hok1 Hok]. simpl. apply IH; [done|].
  destruct (lookup_model mc fs model_id st) as [r st'] eqn:Hrun. simpl.
  by apply (lookup_keeps_fresh mc fs model_id st r st').
Qed.

Lemma new_cache_never_stale mc : never_stale mc empty_store.
Proof. intros k f m _ Hm. simpl in Hm. by rewrite lookup_empty in Hm. Qed.

(** *** The claims about one lookup and about consecutive lookups *)

(** C3.  An identifier whose alias-resolved id has no factory gets the
    unknown-model answer [(None, None)]: the lookup returns (no exception)
    and leaves the store as it was. *)
Theorem unknown_identifier_is_soft mc fs model_id st :
  model_factories mc !! resolve mc model_id = None →
  lookup_model mc fs model_id st = (Return (None, None), st).
Proof.
  intros Hnone. unfold get_model_with_sources.
  destruct (model_factories mc !! resolve mc model_id); [congruence|].
  reflexivity.
Qed.

(** C2.  When the lookup gets to build the model (the check answered and
    either saw a change or no true model is cached) and the loader raises,
    the lookup raises that very exception, and both dictionaries of the
    cache are what they were before the call. *)
Theorem loader_exception_keeps_cache mc fs model_id st f chg last e :
  model_factories mc !! resolve mc model_id = Some f →
  changed fs (files f) (monitor_at (tracker f) st) = (Return chg, last) →
  chg || not_model truthy (cache st !! resolve mc model_id) = true →
  loader f (files f) fs = Raise e →
  ∃ st', lookup_model mc fs model_id st = (Raise e, st')
         ∧ cache st' = cache st ∧ sources st' = sources st.
Proof.
  intros Hf Hc Hdue Hload.
  rewrite (lookup_rebuild _ _ _ _ _ _ _ Hf Hc Hdue). simpl.
  rewrite Hload. eexists. split_and!; reflexivity.
Qed.

(** C4 (amended).  Two consecutive lookups of a registered identifier,
    the fingerprints of its files being the same at both and the model the
    first returned being true in Python's sense: the second returns the very
    instance and sources the first returned, and changes nothing in the
    store: no loader call, no log record. *)
Theorem unchanged_files_same_instance mc fs1 fs2 model_id f st0 m srcs st1 :
  model_factories mc !! resolve mc model_id = Some f →
  lookup_model mc fs1 model_id st0 = (Return (Some m, Some srcs), st1) →
  truthy (inst_model m) = true →
  (∀ p, p ∈ files f → getmtime fs2 p = getmtime fs1 p) →
  lookup_model mc fs2 model_id st1 = (Return (Some m, Some srcs), st1).
Proof.
  intros Hf Hrun Ht Hsame.
  (* what the first lookup left: the entry, and a monitor that is current *)
  destruct (lookup_answer _ _ _ _ _ _ _ _ Hf Hrun)
    as (Hm & Hs & chg & last & Hc & Hmon).
  assert (monitor_at (tracker f) st1 = last) as Hat.
  { unfold monitor_at. by rewrite Hmon. }
  (* so the second check answers False and rewrites the monitor with itself *)
  pose proof (changed_again _ _ _ _ _ Hc) as Hc2.
  rewrite <- (changed_ext fs1 fs2 _ _ Hsame), <- Hat in Hc2 at 1.
  rewrite (lookup_cached _ _ _ _ _ _ _ Hf Hc2 Hm Ht), Hs.
  by rewrite set_monitor_id.
Qed.

(** C5 (amended).  After a lookup that returned [m1], let the fingerprint
    of a backing file change (all files still there, loader and sources
    working).  The next lookup calls the loader exactly once, logs one
    record, and returns a new instance, not [m1].  One more lookup with no
    further change returns that second instance again, with no loader
    call, when its model is true in Python's sense; when it is false, the
    model is built once more and a third instance is returned. *)
Theorem changed_file_one_rebuild mc fs1 fs2 model_id f st0 m1 srcs1 st1
    v srcs2 :
  store_ok st0 →
  model_factories mc !! resolve mc model_id = Some f →
  lookup_model mc fs1 model_id st0 = (Return (Some m1, Some srcs1), st1) →
  (∃ p, p ∈ files f ∧ getmtime fs2 p ≠ getmtime fs1 p) →
  (∀ p, p ∈ files f → is_Some (fs2 !! p)) →
  loader f (files f) fs2 = Return v →
  collect_sources fs2 (model_files f) = Return srcs2 →
  ∃ m2 st2,
    lookup_model mc fs2 model_id st1 = (Return (Some m2, Some srcs2), st2)
    ∧ loader_calls st2 = S (loader_calls st1)
    ∧ log st2
      = (log st1 ++ [(resolve mc model_id ++ " model loaded")%string])%list
    ∧ inst_model m2 = v
    ∧ inst_id m2 ≠ inst_id m1
    ∧ (truthy v = true →
       lookup_model mc fs2 model_id st2
       = (Return (Some m2, Some srcs2), st2))
    ∧ (truthy v = false →
       ∃ m3 st3,
         lookup_model mc fs2 model_id st2
         = (Return (Some m3, Some srcs2), st3)
         ∧ inst_id m3 ≠ inst_id m2
         ∧ loader_calls st3 = S (loader_calls st2)).
Proof.
  intros Hok Hf Hrun1 (p & Hp & Hdiff) Hall Hload Hsrc.
  destruct (lookup_answer _ _ _ _ _ _ _ _ Hf Hrun1)
    as (Hm1 & Hs1 & chg1 & last1 & Hc1 & Hmon1).
  destruct (lookup_store_ok _ _ _ _ _ _ Hok Hrun1) as [Hok1 _].
  assert (monitor_at (tracker f) st1 = last1) as Hat.
  { unfold monitor_at. by rewrite Hmon1. }
  destruct (changed_returns fs2 (files f) last1 Hall) as (chg2 & last2 & Hc2).
  assert (chg2 = true) as ->.
  { apply (changed_true_iff _ _ _ _ _ Hc2). exists p. split; [done|].
    destruct (changed_stored _ _ _ _ _ Hc1) as [Hst _].
    rewrite (Hst p Hp). congruence. }
  rewrite <- Hat in Hc2.
  pose proof (lookup_rebuild mc fs2 model_id st1 f true last2
                Hf Hc2 eq_refl) as Hrun2.
  simpl in Hrun2. rewrite Hload, Hsrc in Hrun2.
  eexists _, _. split; [exact Hrun2|]. simpl.
  split_and!; try reflexivity.
  - apply Hok1 in Hm1. lia.
  - intros Ht. by eapply (lookup_again _ fs2 fs2); [exact Hf|exact Hrun2|exact Ht|].
  - intros Ht.
    pose proof (changed_again _ _ _ _ _ Hc2) as Hc3.
    erewrite lookup_rebuild; [| exact Hf | | ].
    + simpl. rewrite Hload, Hsrc. eexists _, _. split; [reflexivity|].
      simpl. split; [lia | reflexivity].
    + unfold monitor_at; simpl. rewrite lookup_insert_eq. exact Hc3.
    + simpl. rewrite lookup_insert_eq. simpl. by rewrite Ht.
Qed.

(** C1 (amended).  The entry of an identifier is never stale as long as
    no fingerprint check and no build has raised.
    - A lookup whose check detects a change, or which finds no true model
      cached, calls the loader once, and if it returns, the model it
      returns is the one just built from the files as they are: a new
      object, stored in the cache, the monitor holding the current
      fingerprints of the files.
    - A lookup in which neither the check nor the build raises keeps the
      entry of its identifier in step: if the cached model (if any)
      reflected the last detected fingerprints before, the cached model
      does so after, and the model the lookup returns is the cached one.
    - So after any series of such lookups on a new cache whose factories
      have monitors of their own, no cached model is stale. *)
Theorem detected_change_forces_rebuild mc fs model_id st f r st' :
  model_factories mc !! resolve mc model_id = Some f →
  lookup_model mc fs model_id st = (r, st') →
  (∀ chg last,
     changed fs (files f) (monitor_at (tracker f) st) = (Return chg, last) →
     chg || not_model truthy (cache st !! resolve mc model_id) = true →
     loader_calls st' = S (loader_calls st)
     ∧ ∀ om osrcs, r = Return (om, osrcs) →
         ∃ m, om = Some m
              ∧ loader f (files f) fs = Return (inst_model m)
              ∧ inst_id m = next_id st
              ∧ cache st' !! resolve mc model_id = Some m
              ∧ (∀ p, p ∈ files f →
                   Return <$> monitor_at (tracker f) st' !! p
                   = Some (getmtime fs p))
              ∧ reflects_last_detected f st' m)
  ∧ (build_ok truthy mc fs model_id st →
     (∀ m0, cache st !! resolve mc model_id = Some m0 →
            reflects_last_detected f st m0) →
     (∀ m, cache st' !! resolve mc model_id = Some m →
           reflects_last_detected f st' m)
     ∧ ∀ om osrcs, r = Return (om, osrcs) →
         ∃ m, om = Some m ∧ cache st' !! resolve mc model_id = Some m
              ∧ reflects_last_detected f st' m)
  ∧ (∀ steps : list (gmap string File * string),
       own_trackers mc →
       builds_ok truthy mc steps empty_store →
       never_stale mc (lookups truthy mc steps empty_store)).
Proof.
  intros Hf Hrun. split_and!.
  - intros chg last Hc Hdue.
    destruct (lookup_rebuilt _ _ _ _ _ _ _ _ _ Hf Hc Hdue Hrun)
      as (Hcalls & _ & Hret).
    by split.
  - intros Hok Hfresh.
    by apply (lookup_keeps_entry mc fs model_id st f r st').
  - intros steps Hown Hok.
    apply lookups_keep_fresh; [done | done | apply new_cache_never_stale].
Qed.

End CacheFacts.

(** ** The claim about the change monitor alone *)

(** C7.  A check that meets a path it has no fingerprint of answers [True]
    and stores the observed fingerprints, so the same check repeated at
    once, the files untouched, answers [False]. *)
Theorem first_observation_then_quiet (fs : gmap string File)
    (paths : list string) (last : gmap string Z) (p : string) :
  p ∈ paths → last !! p = None →
  (∀ q, q ∈ paths → is_Some (fs !! q)) →
  ∃ last',
    changed fs paths last = (Return true, last')
    ∧ (∀ q, q ∈ paths → Return <$> last' !! q = Some (getmtime fs q))
    ∧ changed fs paths last' = (Return false, last').
Proof.
  intros Hp Hnew Hall.
  destruct (changed_returns fs paths last Hall) as (b & last' & Hc).
  assert (b = true) as ->.
  { apply (changed_true_iff _ _ _ _ _ Hc). exists p. split; [done|].
    rewrite Hnew. simpl. destruct (getmtime_present fs p (Hall p Hp)) as [fp ->].
    done. }
  exists last'. split_and!; [done | | by apply (changed_again _ _ _ _ _ Hc)].
  by apply (changed_stored _ _ _ _ _ Hc).
Qed.

(** ** The default tables *)

Section DefaultFacts.

Context {Model : Type} (truthy : Model → bool)
  (magmod : Eoxmagmod Model) (filesmod : FilesModule).

Local Abbreviation the_cache := (MODEL_CACHE magmod filesmod).

(** Every alias names a factory, and no alias names an alias. *)
Lemma alias_target (a c : string) :
  MODEL_ALIASES !! a = Some c →
  is_Some (MODEL_FACTORIES magmod filesmod !! c) ∧ MODEL_ALIASES !! c = None.
Proof.
  intros H. apply elem_of_list_to_map_2 in H. unfold MODEL_ALIASES_items in H.
  repeat (apply elem_of_cons in H as [H|H];
          [injection H as -> ->;
           split; [eexists; vm_compute; reflexivity | vm_compute; reflexivity]
          |]).
  by apply elem_of_nil in H.
Qed.

Lemma resolve_idempotent (model_id : string) :
  resolve the_cache (resolve the_cache model_id) = resolve the_cache model_id.
Proof.
  apply resolve_no_chain. intros a c Ha.
  exact (proj2 (alias_target a c Ha)).
Qed.

(** C6.  On the default cache the alias table is looked up once and holds
    no chain (no alias maps to an alias), so resolving a resolved id changes
    nothing, and a lookup by any identifier is the lookup by its resolved
    id: same answer (model instance and sources), same store. *)
Theorem alias_lookup_is_canonical_lookup (fs : gmap string File)
    (model_id : string) (st : @Store Model) :
  resolve the_cache model_id = default model_id (MODEL_ALIASES !! model_id)
  ∧ map_Forall (λ _ c, MODEL_ALIASES !! c = None) MODEL_ALIASES
  ∧ resolve the_cache (resolve the_cache model_id)
    = resolve the_cache model_id
  ∧ get_model_with_sources truthy the_cache fs model_id st
    = get_model_with_sources truthy the_cache fs
        (resolve the_cache model_id) st.
Proof.
  split_and!.
  - reflexivity.
  - intros a c Ha. by apply alias_target in Ha as [_ ?].
  - apply resolve_idempotent.
  - apply lookup_resolved. symmetry. apply resolve_idempotent.
Qed.

(** C10.  The target of every alias is a key of [MODEL_FACTORIES] and is
    not an alias, and so a lookup of an alias on the default cache never
    answers [(None, None)]. *)
Theorem alias_never_unknown (a c : string) (fs : gmap string File)
    (st : @Store Model) :
  MODEL_ALIASES !! a = Some c →
  is_Some (MODEL_FACTORIES magmod filesmod !! c)
  ∧ MODEL_ALIASES !! c = None
  ∧ (get_model_with_sources truthy the_cache fs a st).1
    ≠ Return (None, None).
Proof.
  intros Ha. destruct (alias_target _ _ Ha) as [[f Hf] Hc].
  split_and!; [by exists f | done |].
  apply (lookup_registered truthy the_cache fs a st f).
  unfold resolve; simpl. by rewrite Ha.
Qed.

End DefaultFacts.

(** ** The command *)

Section CommandFacts.

Import UpdateCachedProduct.

Context (settings : Settings) (base_options : gmap string value)
  (update_impl : UpdateCall → result unit).

(** C9.  Whatever command line the parser accepts, [handle] raises
    [KeyError] for the key it misspells before it gets to
    [update_cached_product]: the list of calls made is left as it was. *)
Theorem handle_raises_key_error (argv : list string)
    (kwargs : gmap string value) (calls : list UpdateCall) :
  base_options !! "cource" = None →
  parse_args settings base_options argv = Return kwargs →
  handle settings update_impl kwargs calls = (Raise (KeyError "cource"), calls).
Proof.
  intros Hbase Hparse. unfold parse_args in Hparse.
  destruct argv as [|product_type [|source_1 source_n]]; try discriminate.
  case_bool_decide; [|discriminate]. injection Hparse as <-.
  unfold handle, bind, getitem.
  rewrite lookup_insert_ne, lookup_insert_eq by done. simpl.
  rewrite !lookup_insert_ne by done. by rewrite Hbase.
Qed.

End CommandFacts.

(** ** The claims on the test bench *)

Section Bench.

Import Scenario Scenario2 UpdateCachedProduct.

Local Open Scope Z_scope.

Lemma bench_store_ok : store_ok (@empty_store Z).
Proof. intros k m H. simpl in H. by rewrite lookup_empty in H. Qed.

Lemma bench_files (p : string) : p ∈ files test_factory → p = "f.dat"%string.
Proof. intros H. by apply list_elem_of_singleton in H. Qed.

(** The scenario of the specification, in loader calls: 1 after the first
    lookup, 2 after the file was touched, still 2 after one more lookup. *)
Example counter_scenario :
  loader_calls (after [fs_v1]) = 1%nat
  ∧ loader_calls (after [fs_v1; fs_v2]) = 2%nat
  ∧ loader_calls (after [fs_v1; fs_v2; fs_v2]) = 2%nat.
Proof. by vm_compute. Qed.

(** C3 at work: ["NOPE"] is neither an alias nor a factory. *)
Lemma unknown_identifier_is_soft_witness :
  get_model_with_sources int_truthy test_cache fs_v1 "NOPE" (after [fs_v1])
  = (Return (None, None), after [fs_v1]).
Proof.
  apply (unknown_identifier_is_soft int_truthy test_cache).
  vm_compute. reflexivity.
Defined.

(** C2 at work: the rewrite of the file is caught half-way. *)
Lemma loader_exception_keeps_cache_witness :
  ∃ st', lookup_test fs_corrupt (after [fs_v1])
         = (Raise (OtherError "corrupt file"), st')
         ∧ cache st' = cache (after [fs_v1])
         ∧ sources st' = sources (after [fs_v1]).
Proof.
  apply (loader_exception_keeps_cache int_truthy test_cache fs_corrupt "TEST"
           (after [fs_v1]) test_factory true {[ "f.dat"%string := 2 ]});
    vm_compute; reflexivity.
Defined.

(** C4 at work: a second lookup with the file untouched. *)
Lemma unchanged_files_same_instance_witness :
  lookup_test fs_v1 (after [fs_v1])
  = (Return (Some first_model, Some from_f_dat), after [fs_v1]).
Proof.
  apply (unchanged_files_same_instance int_truthy test_cache fs_v1 fs_v1
           "TEST" test_factory empty_store);
    [vm_compute; reflexivity | vm_compute; reflexivity | reflexivity
    | intros p _; reflexivity].
Defined.

(** C5 (amended) at work: the file gets a new time stamp between two
    lookups. *)
Lemma changed_file_one_rebuild_witness :
  ∃ m2 st2,
    lookup_test fs_v2 (after [fs_v1])
    = (Return (Some m2, Some from_f_dat), st2)
    ∧ loader_calls st2 = S (loader_calls (after [fs_v1]))
    ∧ log st2 = (log (after [fs_v1]) ++ ["TEST model loaded"%string])%list
    ∧ inst_model m2 = 2
    ∧ inst_id m2 ≠ inst_id first_model
    ∧ (int_truthy 2 = true →
       lookup_test fs_v2 st2 = (Return (Some m2, Some from_f_dat), st2))
    ∧ (int_truthy 2 = false →
       ∃ m3 st3,
         lookup_test fs_v2 st2 = (Return (Some m3, Some from_f_dat), st3)
         ∧ inst_id m3 ≠ inst_id m2
         ∧ loader_calls st3 = S (loader_calls st2)).
Proof.
  apply (changed_file_one_rebuild int_truthy test_cache fs_v1 fs_v2 "TEST"
           test_factory empty_store first_model from_f_dat (after [fs_v1])
           2 from_f_dat).
  - exact bench_store_ok.
  - vm_compute; reflexivity.
  - vm_compute; reflexivity.
  - exists "f.dat"%string. split; [apply list_elem_of_singleton; reflexivity|].
    vm_compute. discriminate.
  - intros p Hp. apply bench_files in Hp as ->. eexists. vm_compute.
    reflexivity.
  - vm_compute; reflexivity.
  - vm_compute; reflexivity.
Defined.

(** C4 as stated fails.  ["ZERO"] is registered and its loader builds the
    integer 0, a model that is false in Python's sense.  Two consecutive
    lookups with ["f.dat"] untouched: the second calls the loader again and
    returns another object than the first. *)
Lemma false_model_built_again :
  model_factories bench_cache !! resolve bench_cache "ZERO"
  = Some zero_factory
  ∧ lookup_zero fs_v1 empty_store
    = (Return (Some (zero_model 0), Some from_f_dat), after_zero [fs_v1])
  ∧ lookup_zero fs_v1 (after_zero [fs_v1])
    = (Return (Some (zero_model 1), Some from_f_dat),
       after_zero [fs_v1; fs_v1])
  ∧ inst_id (zero_model 1) ≠ inst_id (zero_model 0)
  ∧ loader_calls (after_zero [fs_v1; fs_v1])
    = S (loader_calls (after_zero [fs_v1])).
Proof. split_and!; try (vm_compute; reflexivity). vm_compute. discriminate. Qed.

(** C5 as stated fails in its last part.  The file of ["ZERO"] gets a new
    time stamp between the first and the second lookup: the second builds
    one new model.  The third lookup, with no further change, does not
    return that second instance: the model being false, it is built once
    more. *)
Lemma false_model_not_kept :
  lookup_zero fs_v1 empty_store
  = (Return (Some (zero_model 0), Some from_f_dat), after_zero [fs_v1])
  ∧ getmtime fs_v2 "f.dat" ≠ getmtime fs_v1 "f.dat"
  ∧ lookup_zero fs_v2 (after_zero [fs_v1])
    = (Return (Some (zero_model 1), Some from_f_dat),
       after_zero [fs_v1; fs_v2])
  ∧ loader_calls (after_zero [fs_v1; fs_v2])
    = S (loader_calls (after_zero [fs_v1]))
  ∧ lookup_zero fs_v2 (after_zero [fs_v1; fs_v2])
    = (Return (Some (zero_model 2), Some from_f_dat),
       after_zero [fs_v1; fs_v2; fs_v2])
  ∧ inst_id (zero_model 2) ≠ inst_id (zero_model 1)
  ∧ loader_calls (after_zero [fs_v1; fs_v2; fs_v2])
    = S (loader_calls (after_zero [fs_v1; fs_v2])).
Proof.
  split_and!; try (vm_compute; reflexivity); vm_compute; discriminate.
Qed.

(** C7 at work: a fresh monitor meets ["f.dat"]. *)
Lemma first_observation_then_quiet_witness :
  ∃ last',
    changed fs_v1 ["f.dat"%string] ∅ = (Return true, last')
    ∧ (∀ q, q ∈ ["f.dat"%string] →
         Return <$> last' !! q = Some (getmtime fs_v1 q))
    ∧ changed fs_v1 ["f.dat"%string] last' = (Return false, last').
Proof.
  apply (first_observation_then_quiet fs_v1 ["f.dat"%string] ∅
           "f.dat"%string).
  - apply list_elem_of_singleton; reflexivity.
  - vm_compute; reflexivity.
  - intros q Hq. apply list_elem_of_singleton in Hq as ->. eexists.
    vm_compute. reflexivity.
Defined.

(** C9 at work: [vires_update_cached_product MMA_SHA_2F a.cdf]. *)
Lemma handle_raises_key_error_witness :
  handle test_settings test_update
    (<[ "source"%string := PyList ["a.cdf"%string] ]>
       (<[ "product_type"%string := PyStr "MMA_SHA_2F" ]> test_base_options))
    []
  = (Raise (KeyError "cource"), []).
Proof.
  apply (handle_raises_key_error test_settings test_base_options test_update
           ["MMA_SHA_2F"%string; "a.cdf"%string]);
    vm_compute; reflexivity.
Defined.

(** C10 at work: the alias ["IGRF"] of ["IGRF13"]. *)
Lemma alias_never_unknown_witness :
  is_Some (MODEL_FACTORIES test_magmod test_filesmod !! "IGRF13"%string)
  ∧ MODEL_ALIASES !! "IGRF13"%string = None
  ∧ (get_model_with_sources int_truthy (MODEL_CACHE test_magmod test_filesmod)
       fs_v1 "IGRF" empty_store).1
    ≠ Return (None, None).
Proof.
  apply (alias_never_unknown int_truthy test_magmod test_filesmod
           "IGRF"%string "IGRF13"%string fs_v1 empty_store).
  vm_compute; reflexivity.
Defined.

Lemma bench_own_trackers : own_trackers test_cache.
Proof.
  intros k1 k2 f1 f2 H1 H2 _.
  unfold test_cache in H1, H2. cbn [model_factories] in H1, H2.
  apply lookup_singleton_Some in H1 as [<- _].
  by apply lookup_singleton_Some in H2 as [<- _].
Qed.

Lemma bench_builds_ok :
  builds_ok int_truthy test_cache
    [(fs_v1, "TEST"%string); (fs_v2, "TEST"%string)] empty_store.
Proof.
  split; [|split; [|exact I]]; intros f Hf; vm_compute in Hf;
    injection Hf as <-; eexists _, _;
    (split; [vm_compute; reflexivity | intros _; eexists; vm_compute;
                                       reflexivity]).
Qed.

(** C1 (amended) at work: the lookup that sees the new time stamp, and the
    store it leaves. *)
Lemma detected_change_forces_rebuild_witness :
  loader_calls (after [fs_v1; fs_v2]) = S (loader_calls (after [fs_v1]))
  ∧ (∃ m, Some second_model = Some m
          ∧ loader test_factory (files test_factory) fs_v2
            = Return (inst_model m)
          ∧ inst_id m = next_id (after [fs_v1])
          ∧ cache (after [fs_v1; fs_v2]) !! resolve test_cache "TEST"
            = Some m
          ∧ (∀ p, p ∈ files test_factory →
               Return <$> monitor_at (tracker test_factory)
                            (after [fs_v1; fs_v2]) !! p
               = Some (getmtime fs_v2 p))
          ∧ reflects_last_detected test_factory (after [fs_v1; fs_v2]) m)
  ∧ never_stale test_cache
      (lookups int_truthy test_cache
         [(fs_v1, "TEST"%string); (fs_v2, "TEST"%string)] empty_store).
Proof.
  destruct (detected_change_forces_rebuild int_truthy test_cache fs_v2 "TEST"
              (after [fs_v1]) test_factory
              (Return (Some second_model, Some from_f_dat))
              (after [fs_v1; fs_v2]))
    as (Hdue & _ & Hrun); [vm_compute; reflexivity | vm_compute; reflexivity|].
  destruct (Hdue true {[ "f.dat"%string := 2 ]})
    as [Hcalls Hret]; [vm_compute; reflexivity | reflexivity|].
  split_and!.
  - exact Hcalls.
  - exact (Hret _ _ eq_refl).
  - exact (Hrun _ bench_own_trackers bench_builds_ok).
Defined.

(** C1 as stated fails.  The first lookup builds the model of time stamp
    1.  The second sees the new time stamp 2, a detected change, and its
    build raises.  The third lookup, the file untouched since, is handed the
    model of time stamp 1 again with no loader call, while the monitor
    holds 2; and so it is when the file has been repaired within the same
    time stamp and would load as the model of time stamp 2. *)
Lemma stale_entry_after_failed_build :
  lookup_test fs_v1 empty_store
  = (Return (Some first_model, Some from_f_dat), after [fs_v1])
  ∧ changed fs_corrupt (files test_factory)
      (monitor_at (tracker test_factory) (after [fs_v1]))
    = (Return true, {[ "f.dat"%string := 2 ]})
  ∧ lookup_test fs_corrupt (after [fs_v1])
    = (Raise (OtherError "corrupt file"), after [fs_v1; fs_corrupt])
  ∧ monitor_at (tracker test_factory) (after [fs_v1; fs_corrupt])
      !! "f.dat"%string = Some 2
  ∧ lookup_test fs_corrupt (after [fs_v1; fs_corrupt])
    = (Return (Some first_model, Some from_f_dat),
       after [fs_v1; fs_corrupt; fs_corrupt])
  ∧ loader_calls (after [fs_v1; fs_corrupt; fs_corrupt])
    = loader_calls (after [fs_v1; fs_corrupt])
  ∧ ¬ reflects_last_detected test_factory
        (after [fs_v1; fs_corrupt; fs_corrupt]) first_model
  ∧ lookup_test fs_v2 (after [fs_v1; fs_corrupt])
    = (Return (Some first_model, Some from_f_dat),
       after [fs_v1; fs_corrupt; fs_v2])
  ∧ loader test_factory (files test_factory) fs_v2 = Return 2.
Proof.
  split_and!; try (vm_compute; reflexivity).
  intros (fs & Hfp & Hload).
  specialize (Hfp "f.dat"%string
                ltac:(apply list_elem_of_singleton; reflexivity)).
  assert (monitor_at (tracker test_factory)
            (after [fs_v1; fs_corrupt; fs_corrupt]) !! "f.dat"%string
          = Some 2) as Hmon by (vm_compute; reflexivity).
  rewrite Hmon in Hfp. simpl in Hfp. injection Hfp as Hfp.
  change (test_loader ["f.dat"%string] fs = Return 1) in Hload.
  unfold getmtime in Hfp. unfold test_loader in Hload.
  destruct (fs !! "f.dat"%string) as [file|]; [|discriminate].
  injection Hfp as Hfp. case_bool_decide; [discriminate|].
  injection Hload as Hload. lia.
Qed.

End Bench.

(** * Further properties *)

(** ** More on the model cache *)

Section CacheMore.

Context {Model : Type} (truthy : Model → bool).

Implicit Types (mc : @ModelCache Model) (f : @ModelFactory Model)
  (fs : gmap string File) (st : @Store Model) (m : @Instance Model).

Local Abbreviation lookup_model := (get_model_with_sources truthy).

(** A lookup removes no cached model and takes back no identity. *)
Lemma lookup_grows mc fs model_id st r st' :
  lookup_model mc fs model_id st = (r, st') →
  (∀ k, is_Some (cache st !! k) → is_Some (cache st' !! k))
  ∧ (next_id st ≤ next_id st')%nat.
Proof.
  intros Hrun.
  destruct (model_factories mc !! resolve mc model_id) as [f|] eqn:Hf.
  2:{ rewrite (lookup_unknown _ _ _ _ _ Hf) in Hrun.
      by injection Hrun as <- <-. }
  destruct (lookup_cases truthy mc fs model_id st f Hf)
    as [(e & last & Hc)
       | [(last & m0 & Hc & Hm & Ht) | (chg & last & Hc & Hd)]].
  - rewrite (lookup_check_raises _ _ _ _ _ _ _ _ Hf Hc) in Hrun.
    by injection Hrun as <- <-.
  - rewrite (lookup_cached _ _ _ _ _ _ _ _ Hf Hc Hm Ht) in Hrun.
    by injection Hrun as <- <-.
  - rewrite (lookup_rebuild _ _ _ _ _ _ _ _ Hf Hc Hd) in Hrun.
    simpl in Hrun.
    assert (∀ (k : string) (m : @Instance Model),
              is_Some (cache st !! k) →
              is_Some (<[resolve mc model_id := m]> (cache st) !! k)) as Hin.
    { intros k m Hk. destruct (decide (resolve mc model_id = k)) as [->|Hne].
      - rewrite lookup_insert_eq. by eexists.
      - by rewrite lookup_insert_ne. }
    destruct (loader f (files f) fs) as [v|e].
    + destruct (collect_sources fs (model_files f)) as [s0|e];
        injection Hrun as <- <-; simpl; (split; [intros k; apply Hin | lia]).
    + injection Hrun as <- <-. simpl. split; [done | lia].
Qed.

(** X1.  A lookup touches the cached model and the cached sources of the
    resolved identifier only: every other entry of the two dictionaries is
    what it was, however the lookup ends. *)
Theorem lookup_touches_one_entry mc fs model_id st r st' k :
  lookup_model mc fs model_id st = (r, st') →
  k ≠ resolve mc model_id →
  cache st' !! k = cache st !! k ∧ sources st' !! k = sources st !! k.
Proof.
  intros Hrun Hk.
  destruct (lookup_effect truthy mc fs model_id st r st' Hrun) as (Hframe & _).
  exact (Hframe k Hk).
Qed.

(** X2.  Whatever lookups are made on a new cache, models are cached only
    under identifiers of the factory table, and sources only under
    identifiers that have a cached model. *)
Theorem session_keys mc (steps : list (gmap string File * string)) :
  dom (sources (lookups truthy mc steps empty_store))
    ⊆ dom (cache (lookups truthy mc steps empty_store))
  ∧ dom (cache (lookups truthy mc steps empty_store))
    ⊆ dom (model_factories mc).
Proof.
  assert (∀ st, dom (sources st) ⊆ dom (cache st) →
                dom (cache st) ⊆ dom (model_factories mc) →
                dom (sources (lookups truthy mc steps st))
                  ⊆ dom (cache (lookups truthy mc steps st))
                ∧ dom (cache (lookups truthy mc steps st))
                  ⊆ dom (model_factories mc)) as Hgen.
  { induction steps as [|[fs model_id] steps IH]; intros st Hs Hc; [done|].
    simpl.
    destruct (lookup_model mc fs model_id st) as [r st'] eqn:Hrun. simpl.
    destruct (lookup_effect truthy mc fs model_id st r st' Hrun)
      as (_ & _ & _ & _ & _ & _ & _ & Hdc & Hds).
    destruct (lookup_grows mc fs model_id st r st' Hrun) as [Hkeep _].
    apply IH.
    - intros k Hk. apply Hds in Hk. apply elem_of_union in Hk as [Hk|Hk];
        [|done].
      apply elem_of_dom, Hkeep, elem_of_dom, Hs, Hk.
    - intros k Hk. apply Hdc in Hk. apply elem_of_union in Hk as [Hk|Hk];
        [by apply Hc | done]. }
  apply Hgen; done.
Qed.

(** X3.  On a new cache, after any lookups: there are at most as many log
    records as models built, at most as many models built as loader calls,
    and at most one loader call per lookup. *)
Theorem session_counters mc (steps : list (gmap string File * string)) :
  (length (log (lookups truthy mc steps empty_store))
   ≤ next_id (lookups truthy mc steps empty_store))%nat
  ∧ (next_id (lookups truthy mc steps empty_store)
     ≤ loader_calls (lookups truthy mc steps empty_store))%nat
  ∧ (loader_calls (lookups truthy mc steps empty_store)
     ≤ length steps)%nat.
Proof.
  assert (∀ st n, (length (log st) ≤ next_id st)%nat →
                  (next_id st ≤ loader_calls st)%nat →
                  (loader_calls st ≤ n)%nat →
                  (length (log (lookups truthy mc steps st))
                   ≤ next_id (lookups truthy mc steps st))%nat
                  ∧ (next_id (lookups truthy mc steps st)
                     ≤ loader_calls (lookups truthy mc steps st))%nat
                  ∧ (loader_calls (lookups truthy mc steps st)
                     ≤ n + length steps)%nat) as Hgen.
  { induction steps as [|[fs model_id] steps IH]; intros st n H1 H2 H3.
    - simpl. lia.
    - simpl.
      destruct (lookup_model mc fs model_id st) as [r st'] eqn:Hrun. simpl.
      destruct (lookup_effect truthy mc fs model_id st r st' Hrun)
        as (_ & _ & _ & Hlc & Hid & Hlg & Hlen & _).
      destruct (lookup_grows mc fs model_id st r st' Hrun) as [_ Hmono].
      destruct (IH st' (S n)) as (G1 & G2 & G3); lia. }
  apply (Hgen empty_store 0%nat); simpl; lia.
Qed.

(** X4.  The model is stored before the sources are read: when the loader
    succeeds and reading the sources raises, the lookup raises that
    exception with the new model already in the cache, the cached sources
    and the log being what they were. *)
Theorem sources_failure_keeps_new_model mc fs model_id st f chg last v e :
  model_factories mc !! resolve mc model_id = Some f →
  changed fs (files f) (monitor_at (tracker f) st) = (Return chg, last) →
  chg || not_model truthy (cache st !! resolve mc model_id) = true →
  loader f (files f) fs = Return v →
  collect_sources fs (model_files f) = Raise e →
  ∃ st', lookup_model mc fs model_id st = (Raise e, st')
         ∧ cache st' !! resolve mc model_id
           = Some {| inst_id := next_id st; inst_model := v |}
         ∧ sources st' = sources st
         ∧ log st' = log st.
Proof.
  intros Hf Hc Hdue Hload Hsrc.
  rewrite (lookup_rebuild _ _ _ _ _ _ _ _ Hf Hc Hdue). simpl.
  rewrite Hload, Hsrc. eexists. split; [reflexivity|]. simpl.
  split_and!; [apply lookup_insert_eq | reflexivity | reflexivity].
Qed.

(** X5.  After such a failure on an identifier that had no cached sources,
    the next lookup, the files being the same, finds the model but no
    sources for it: it raises [KeyError] for the resolved identifier and
    does not call the loader. *)
Theorem lookup_after_sources_failure mc fs model_id st f chg last v e :
  model_factories mc !! resolve mc model_id = Some f →
  changed fs (files f) (monitor_at (tracker f) st) = (Return chg, last) →
  chg || not_model truthy (cache st !! resolve mc model_id) = true →
  loader f (files f) fs = Return v →
  collect_sources fs (model_files f) = Raise e →
  truthy v = true →
  sources st !! resolve mc model_id = None →
  ∃ st1 st2,
    lookup_model mc fs model_id st = (Raise e, st1)
    ∧ lookup_model mc fs model_id st1
      = (Raise (KeyError (resolve mc model_id)), st2)
    ∧ loader_calls st2 = loader_calls st1.
Proof.
  intros Hf Hc Hdue Hload Hsrc Ht Hnone.
  rewrite (lookup_rebuild _ _ _ _ _ _ _ _ Hf Hc Hdue). simpl.
  rewrite Hload, Hsrc. eexists _, _. split; [reflexivity|].
  pose proof (changed_again _ _ _ _ _ Hc) as Hc2.
  erewrite lookup_cached; [| exact Hf | | apply lookup_insert_eq | exact Ht].
  - simpl. rewrite Hnone. split; reflexivity.
  - unfold monitor_at; simpl. rewrite lookup_insert_eq. exact Hc2.
Qed.

(** X6.  A cached model that is false in Python's sense is never served:
    every lookup whose fingerprint check answers calls the loader, changed
    files or not, and a model it returns is a newly built one. *)
Theorem false_model_is_rebuilt mc fs model_id st f m chg last r st' :
  model_factories mc !! resolve mc model_id = Some f →
  cache st !! resolve mc model_id = Some m →
  truthy (inst_model m) = false →
  changed fs (files f) (monitor_at (tracker f) st) = (Return chg, last) →
  lookup_model mc fs model_id st = (r, st') →
  loader_calls st' = S (loader_calls st)
  ∧ ∀ m' srcs, r = Return (Some m', srcs) →
      inst_id m' = next_id st
      ∧ loader f (files f) fs = Return (inst_model m').
Proof.
  intros Hf Hm Ht Hc Hrun.
  assert (chg || not_model truthy (cache st !! resolve mc model_id) = true)
    as Hdue.
  { rewrite Hm. simpl. rewrite Ht. apply orb_true_r. }
  rewrite (lookup_rebuild _ _ _ _ _ _ _ _ Hf Hc Hdue) in Hrun.
  simpl in Hrun.
  destruct (loader f (files f) fs) as [v|e].
  - destruct (collect_sources fs (model_files f)) as [s0|e];
      injection Hrun as <- <-; (split; [reflexivity|]);
      intros m' srcs Hr; [|discriminate].
    by injection Hr as <- _.
  - injection Hrun as <- <-. split; [reflexivity|]. intros ? ? ?. discriminate.
Qed.

(** X28.  The lookup does not handle an error of the fingerprint check:
    when the check raises, for whatever reason, the lookup raises the same
    exception at once; the loader is not called, no object is made,
    nothing is logged and the two dictionaries are what they were.  The
    monitor keeps what the check had stored when it raised. *)
Theorem check_error_reaches_caller mc fs model_id st f e last :
  model_factories mc !! resolve mc model_id = Some f →
  changed fs (files f) (monitor_at (tracker f) st) = (Raise e, last) →
  ∃ st',
    lookup_model mc fs model_id st = (Raise e, st')
    ∧ loader_calls st' = loader_calls st
    ∧ next_id st' = next_id st
    ∧ log st' = log st
    ∧ cache st' = cache st ∧ sources st' = sources st
    ∧ monitors st' = <[tracker f := last]> (monitors st).
Proof.
  intros Hf Hc. exists (set_monitor (tracker f) last st).
  rewrite (lookup_check_raises _ _ _ _ _ _ _ _ Hf Hc).
  split_and!; reflexivity.
Qed.

(** X7.  [get_model] answers [None] exactly for the identifiers whose
    resolved id has no factory: with a factory it raises or returns a
    model. *)
Theorem get_model_none_iff_unknown mc fs model_id st :
  (get_model truthy mc fs model_id st).1 = Return None
  ↔ model_factories mc !! resolve mc model_id = None.
Proof.
  unfold get_model, bind, ret. split.
  - intros Hnone.
    destruct (model_factories mc !! resolve mc model_id) as [f|] eqn:Hf;
      [exfalso|done].
    pose proof (lookup_registered truthy mc fs model_id st f Hf) as Hreg.
    destruct (lookup_cases truthy mc fs model_id st f Hf)
      as [(e & last & Hc)
         | [(last & m0 & Hc & Hm & Ht) | (chg & last & Hc & Hd)]].
    + by rewrite (lookup_check_raises _ _ _ _ _ _ _ _ Hf Hc) in Hnone.
    + rewrite (lookup_cached _ _ _ _ _ _ _ _ Hf Hc Hm Ht) in Hnone.
      by destruct (sources st !! resolve mc model_id).
    + rewrite (lookup_rebuild _ _ _ _ _ _ _ _ Hf Hc Hd) in Hnone.
      simpl in Hnone. destruct (loader f (files f) fs); [|done].
      by destruct (collect_sources fs (model_files f)).
  - intros Hf. by rewrite (lookup_unknown _ _ _ _ _ Hf).
Qed.

End CacheMore.

(** ** More on the default tables *)

Section DefaultMore.

Context {Model : Type} (truthy : Model → bool)
  (magmod : Eoxmagmod Model) (filesmod : FilesModule).

Local Abbreviation the_cache := (MODEL_CACHE magmod filesmod).

(** The monitor of each default factory sits at the position of the
    factory in the table. *)
Lemma default_tracker (model_id : string) (f : @ModelFactory Model) :
  MODEL_FACTORIES magmod filesmod !! model_id = Some f →
  (MODEL_FACTORIES_items magmod filesmod).*1 !! tracker f = Some model_id.
Proof.
  intros H. apply elem_of_list_to_map_2 in H.
  unfold MODEL_FACTORIES_items in H.
  repeat (apply elem_of_cons in H as [H|H];
          [injection H as -> ->; reflexivity|]).
  by apply elem_of_nil in H.
Qed.

(** X8.  [MODEL_LIST] lists exactly the identifiers the default cache
    knows: a lookup answers [(None, None)] if and only if the identifier is
    not in the list. *)
Theorem model_list_is_complete (fs : gmap string File) (model_id : string)
    (st : @Store Model) :
  (get_model_with_sources truthy the_cache fs model_id st).1
    = Return (None, None)
  ↔ model_id ∉ MODEL_LIST magmod filesmod.
Proof.
  unfold MODEL_LIST. rewrite not_elem_of_app.
  destruct (MODEL_ALIASES !! model_id) as [c|] eqn:Ha.
  - split.
    + intros Hnone. exfalso.
      destruct (alias_target magmod filesmod _ _ Ha) as [[f Hf] _].
      apply (lookup_registered truthy the_cache fs model_id st f);
        [|exact Hnone].
      unfold resolve; simpl. by rewrite Ha.
    + intros [_ Hnot]. exfalso. apply Hnot.
      apply elem_of_list_to_map_2 in Ha.
      apply list_elem_of_fmap. by exists (model_id, c).
  - assert (resolve the_cache model_id = model_id) as Hres.
    { unfold resolve; simpl. by rewrite Ha. }
    split.
    + intros Hnone. split; [|by apply not_elem_of_list_to_map].
      apply not_elem_of_list_to_map.
      destruct (MODEL_FACTORIES magmod filesmod !! model_id) as [f|] eqn:Hf;
        [exfalso|done].
      apply (lookup_registered truthy the_cache fs model_id st f);
        [|exact Hnone].
      by rewrite Hres.
    + intros [Hnot _]. apply not_elem_of_list_to_map in Hnot.
      rewrite (lookup_unknown truthy the_cache fs model_id st); [done|].
      by rewrite Hres.
Qed.

(** X9.  The default factories do not share their monitors: a lookup by one
    identifier leaves the monitor, the cached model and the cached sources
    of every other canonical identifier as they were (so a change of a file
    two factories share is seen by both). *)
Theorem default_factories_independent (fs : gmap string File)
    (id1 id2 : string) (f2 : @ModelFactory Model) (st st' : @Store Model)
    (r : result (option Instance * option (list (list string)))) :
  resolve the_cache id1 ≠ id2 →
  MODEL_FACTORIES magmod filesmod !! id2 = Some f2 →
  get_model_with_sources truthy the_cache fs id1 st = (r, st') →
  monitors st' !! tracker f2 = monitors st !! tracker f2
  ∧ cache st' !! id2 = cache st !! id2
  ∧ sources st' !! id2 = sources st !! id2.
Proof.
  intros Hne Hf2 Hrun.
  destruct (lookup_effect truthy the_cache fs id1 st r st' Hrun)
    as (Hframe & Hmon & Hunk & _).
  split; [|apply Hframe; congruence].
  destruct (model_factories the_cache !! resolve the_cache id1)
    as [f1|] eqn:Hf1.
  - apply (Hmon f1); [done|]. intros Heq.
    apply default_tracker in Hf1, Hf2. rewrite Heq in Hf2. congruence.
  - by rewrite Hunk.
Qed.

End DefaultMore.

(** ** More on the cached-product command *)

Section CachedProductsFacts.

Import UpdateCachedProduct.

Implicit Types (products : gmap string (gmap string value))
  (kwargs info : gmap string value) (settings : Settings).

(** The file name stored for a product type, if there is one. *)
Local Abbreviation filename_of products k :=
  ((λ info : gmap string value, info !! "filename") <$> products !! k).

(** Configuring a product type adds no product type, and leaves every file
    name alone when the new keys do not include ["filename"]. *)
Lemma configure_keeps_filenames (product_type : string) kwargs products k :
  kwargs !! "filename" = None →
  filename_of (configure_cached_product product_type kwargs products) k
  = filename_of products k.
Proof.
  intros Hkw. unfold configure_cached_product.
  destruct (products !! product_type) as [info|] eqn:Hp; [|done].
  destruct (decide (product_type = k)) as [<-|Hne].
  - rewrite lookup_insert_eq, Hp. simpl. f_equal.
    by apply lookup_union_r.
  - by rewrite lookup_insert_ne.
Qed.

Lemma configure_spacecrafts_keeps_filenames (spacecrafts : list string)
    products k :
  filename_of
    (foldl (λ acc spacecraft,
              configure_cached_product ("AUX" ++ spacecraft ++ "ORBCNT")
                (orbit_counter_options spacecraft) acc)
           products spacecrafts) k
  = filename_of products k.
Proof.
  revert products. induction spacecrafts as [|sc scs IH]; intros products;
    [done|].
  simpl. rewrite IH. by apply configure_keeps_filenames.
Qed.

(** The table before the two GFZ products are put in. *)
Lemma configured_filenames settings k :
  ∃ products,
    CACHED_PRODUCTS settings
    = ({[ "GFZ_AUX_DST" :=
            ({[ "filename" := PyStr (VIRES_AUX_DB_DST settings);
                "label" := PyStr "Dst-index";
                "updater" :=
                  PyCallable (simple_cached_product_updater update_dst);
                "tmp_extension" := PyStr ".tmp.cdf" ]}
               : gmap string value);
          "GFZ_AUX_KP" :=
            ({[ "filename" := PyStr (VIRES_AUX_DB_KP settings);
                "label" := PyStr "Kp-index";
                "updater" :=
                  PyCallable (simple_cached_product_updater update_kp);
                "tmp_extension" := PyStr ".tmp.cdf" ]}
               : gmap string value) ]}
         : gmap string (gmap string value)) ∪ products
    ∧ filename_of products k
      = (λ filename : string, Some (PyStr filename))
          <$> default ∅ (VIRES_CACHED_PRODUCTS settings) !! k.
Proof.
  eexists. split; [reflexivity|].
  rewrite configure_spacecrafts_keeps_filenames.
  rewrite !configure_keeps_filenames by reflexivity.
  rewrite lookup_fmap.
  by destruct (default ∅ (VIRES_CACHED_PRODUCTS settings) !! k).
Qed.

(** X10.  Every product type of [CACHED_PRODUCTS] has a file name: for the
    two GFZ products the one of the settings [VIRES_AUX_DB_DST] and
    [VIRES_AUX_DB_KP], for any other the one [VIRES_CACHED_PRODUCTS] gives
    it, whatever was configured on top. *)
Theorem cached_product_has_filename settings (product_type : string) info :
  CACHED_PRODUCTS settings !! product_type = Some info →
  ∃ filename : string,
    info !! "filename" = Some (PyStr filename)
    ∧ ((product_type = "GFZ_AUX_DST"
        ∧ filename = VIRES_AUX_DB_DST settings)
       ∨ (product_type = "GFZ_AUX_KP"
          ∧ filename = VIRES_AUX_DB_KP settings)
       ∨ (product_type ≠ "GFZ_AUX_DST" ∧ product_type ≠ "GFZ_AUX_KP"
          ∧ default ∅ (VIRES_CACHED_PRODUCTS settings) !! product_type
            = Some filename)).
Proof.
  intros Hin.
  destruct (configured_filenames settings product_type)
    as (products & Heq & Hfn).
  rewrite Heq in Hin. clear Heq.
  destruct (decide (product_type = "GFZ_AUX_DST")) as [->|Hd].
  { erewrite lookup_union_Some_l in Hin by apply lookup_insert_eq.
    injection Hin as <-. eexists. split; [reflexivity|]. left. done. }
  destruct (decide (product_type = "GFZ_AUX_KP")) as [->|Hk].
  { erewrite lookup_union_Some_l in Hin
      by (rewrite lookup_insert_ne by done; apply lookup_singleton_eq).
    injection Hin as <-. eexists. split; [reflexivity|]. right; left. done. }
  rewrite lookup_union_r in Hin.
  2:{ rewrite lookup_insert_ne by done. by rewrite lookup_singleton_ne. }
  rewrite Hin in Hfn. simpl in Hfn.
  destruct (default ∅ (VIRES_CACHED_PRODUCTS settings) !! product_type)
    as [filename|]; [|done].
  injection Hfn as Hfn. exists filename. split; [done|]. right; right. done.
Qed.

(** X11.  The product types the command accepts are those of the setting
    [VIRES_CACHED_PRODUCTS] and the two GFZ products: configuring adds
    none. *)
Theorem cached_product_types settings (product_type : string) :
  is_Some (CACHED_PRODUCTS settings !! product_type)
  ↔ product_type = "GFZ_AUX_DST" ∨ product_type = "GFZ_AUX_KP"
    ∨ is_Some (default ∅ (VIRES_CACHED_PRODUCTS settings) !! product_type).
Proof.
  destruct (configured_filenames settings product_type)
    as (products & Heq & Hfn).
  rewrite Heq. clear Heq.
  assert (is_Some (products !! product_type)
          ↔ is_Some (default ∅ (VIRES_CACHED_PRODUCTS settings)
                       !! product_type)) as Hsame.
  { destruct (products !! product_type);
      destruct (default ∅ (VIRES_CACHED_PRODUCTS settings) !! product_type);
      simpl in Hfn; try discriminate; split; intros [? ?]; try done; eauto. }
  rewrite <- Hsame.
  destruct (decide (product_type = "GFZ_AUX_DST")) as [->|Hd].
  { split; [by left|]. intros _. eexists.
    apply lookup_union_Some_l, lookup_insert_eq. }
  destruct (decide (product_type = "GFZ_AUX_KP")) as [->|Hk].
  { split; [by right; left|]. intros _. eexists.
    apply lookup_union_Some_l. rewrite lookup_insert_ne by done.
    apply lookup_singleton_eq. }
  rewrite lookup_union_r.
  2:{ rewrite lookup_insert_ne by done. by rewrite lookup_singleton_ne. }
  split; [by right; right|]. by intros [?|[?|?]].
Qed.

End CachedProductsFacts.

(** ** The orbit-counter command *)

Section OrbitCounterFacts.

Import UpdateCachedProduct UpdateOrbitCounter.

Context (file_A file_B file_C : string)
  (update_impl : OrbitCall → result unit).

Local Abbreviation handle_orbit := (handle file_A file_B file_C update_impl).

Lemma update_one_returns (kwargs : gmap string value) (opt dest : string)
    (source : value) (st : Run) :
  kwargs !! opt = Some source →
  (∀ c, update_impl c = Return tt) →
  update_one update_impl kwargs (opt, dest) st
  = (Return tt, {| warnings := warnings st;
                   update_calls :=
                     (update_calls st ++ call_for source dest)%list |}).
Proof.
  intros Hk Himpl. unfold update_one, bind, getitem. simpl. rewrite Hk. simpl.
  destruct st as [ws cs].
  destruct source; unfold ret, update_cached_product, call_for; simpl;
    rewrite ?Himpl, ?app_nil_r; reflexivity.
Qed.

(** X12.  With the three options parsed and an updater that does not
    raise, [handle] warns once about the deprecation and calls
    [update_cached_product] once for each option that was given, in the
    order A, B, C, each with the destination of its spacecraft; options left
    at [None] cause no call. *)
Theorem orbit_counter_one_call_per_option (kwargs : gmap string value)
    (source_a source_b source_c : value) (st : Run) :
  kwargs !! "filename_a" = Some source_a →
  kwargs !! "filename_b" = Some source_b →
  kwargs !! "filename_c" = Some source_c →
  (∀ c, update_impl c = Return tt) →
  handle_orbit kwargs st
  = (Return tt,
     {| warnings := (warnings st ++ [DEPRECATION_WARNING])%list;
        update_calls :=
          (update_calls st ++ call_for source_a file_A
             ++ call_for source_b file_B ++ call_for source_c file_C)%list |}).
Proof.
  intros Ha Hb Hc Himpl. unfold handle, cached_products.
  unfold bind at 1. unfold logger_warn, modify. simpl.
  unfold bind at 1.
  rewrite (update_one_returns kwargs _ _ source_a _ Ha Himpl). simpl.
  unfold bind at 1.
  rewrite (update_one_returns kwargs _ _ source_b _ Hb Himpl). simpl.
  unfold bind at 1.
  rewrite (update_one_returns kwargs _ _ source_c _ Hc Himpl). simpl.
  unfold ret. by rewrite <- !app_assoc.
Qed.

(** X13.  An exception of [update_cached_product] ends the command: when
    the update for spacecraft A raises, the exception reaches the caller
    and the other two options are not looked at. *)
Theorem orbit_counter_stops_at_failure (kwargs : gmap string value)
    (source_a : value) (e : exn) (st : Run) :
  kwargs !! "filename_a" = Some source_a →
  source_a ≠ PyNone →
  (∀ c, oc_destination c = file_A → update_impl c = Raise e) →
  ∃ c, handle_orbit kwargs st
       = (Raise e,
          {| warnings := (warnings st ++ [DEPRECATION_WARNING])%list;
             update_calls := (update_calls st ++ [c])%list |})
       ∧ oc_destination c = file_A ∧ oc_sources c = [source_a].
Proof.
  intros Ha Hgiven Himpl. unfold handle, cached_products.
  unfold bind at 1. unfold logger_warn, modify. simpl.
  unfold bind at 1. unfold update_one at 1. unfold bind at 1.
  unfold getitem. simpl. rewrite Ha. simpl.
  destruct source_a; [done| | |]; unfold update_cached_product; simpl;
    rewrite Himpl by reflexivity; eexists; split_and!; reflexivity.
Qed.

End OrbitCounterFacts.

(** ** The selection of product collections *)

Section SelectionFacts.

Import CollectionSelection.

Context {Row : Type} (identifier : Row → string)
  (type_identifier mission spacecraft grade : Row → option string).

Local Abbreviation select_plain :=
  (select_collections type_identifier mission spacecraft grade
     (select_collections_by_id identifier)).
Local Abbreviation select_protected :=
  (select_collections type_identifier mission spacecraft grade
     (select_collections_by_id_protected identifier)).

Lemma filter_in_nil (field : Row → option string) (query : list Row) :
  filter_in field [] query = [].
Proof.
  unfold filter_in. induction query as [|row query IH]; [done|].
  simpl. unfold field_in at 1. destruct (field row); [|done].
  rewrite bool_decide_eq_false_2; [done|]. apply not_elem_of_nil.
Qed.

Lemma elem_of_filter_in (field : Row → option string) (values : list string)
    (query : list Row) (row : Row) :
  row ∈ filter_in field values query
  ↔ row ∈ query ∧ ∃ v, field row = Some v ∧ v ∈ values.
Proof.
  unfold filter_in. rewrite !list_elem_of_In, filter_In.
  unfold field_in. destruct (field row) as [v|].
  - rewrite bool_decide_eq_true. split.
    + intros [? ?]. split; [done|]. by exists v.
    + intros [? (v' & [= <-] & ?)]. done.
  - split; [intros [_ [=]] | intros [_ (? & [=] & _)]].
Qed.

Lemma elem_of_filter_if_given (field : Row → option string)
    (given : option (list string)) (query : list Row) (row : Row) :
  row ∈ filter_if_given field given query
  ↔ row ∈ query ∧ passes field given row.
Proof.
  unfold filter_if_given, passes.
  destruct (default [] given) as [|v0 vs] eqn:Hg.
  - split; [intros ?; split; [done|by left] | by intros [? _]].
  - rewrite elem_of_filter_in. split.
    + intros [? ?]. split; [done|by right].
    + intros [? [?|?]]; done.
Qed.

(** X14.  The protected selection selects nothing when no identifier is
    given and [--all] is not set, whatever the other filters say, and it
    warns about it. *)
Theorem protected_without_ids_selects_nothing (kwargs : Options)
    (query : list Row) (warnings : list string) :
  opt_identifier kwargs = [] →
  opt_select_all kwargs = false →
  select_protected query kwargs warnings
  = (Return [], (warnings ++ [NOTHING_SELECTED])%list).
Proof.
  intros Hids Hall. unfold select_collections.
  unfold select_collections_by_id_protected. rewrite Hids, Hall. simpl.
  rewrite filter_in_nil. reflexivity.
Qed.

(** X15.  With an identifier given, or with [--all], the protected
    selection is the plain one: the same rows, no warning. *)
Theorem protected_agrees_with_plain (kwargs : Options) (query : list Row)
    (warnings : list string) :
  opt_identifier kwargs ≠ [] ∨ opt_select_all kwargs = true →
  select_protected query kwargs warnings
  = select_plain query kwargs warnings
  ∧ (select_plain query kwargs warnings).2 = warnings.
Proof.
  intros Hgiven. unfold select_collections.
  unfold select_collections_by_id_protected, select_collections_by_id.
  destruct (opt_identifier kwargs) as [|id0 ids] eqn:Hids.
  - destruct Hgiven as [?|Hall]; [done|]. rewrite Hall. simpl. done.
  - rewrite bool_decide_eq_true_2 by done. simpl. done.
Qed.

(** X16.  The plain selection keeps exactly the rows of the query that
    pass every filter: a filter that is not given, or given without values,
    holds nothing back, and no identifiers means all identifiers. *)
Theorem selection_is_conjunction (kwargs : Options) (query : list Row)
    (warnings : list string) :
  ∃ rows,
    select_plain query kwargs warnings = (Return rows, warnings)
    ∧ ∀ row,
        row ∈ rows
        ↔ row ∈ query
          ∧ passes type_identifier (opt_product_type kwargs) row
          ∧ passes mission (opt_mission kwargs) row
          ∧ passes spacecraft (opt_spacecraft kwargs) row
          ∧ passes grade (opt_grade kwargs) row
          ∧ (opt_identifier kwargs = []
             ∨ identifier row ∈ opt_identifier kwargs).
Proof.
  unfold select_collections, select_collections_by_id.
  destruct (opt_identifier kwargs) as [|id0 ids] eqn:Hids.
  - eexists. split; [reflexivity|]. intros row.
    rewrite !elem_of_filter_if_given. split.
    + intros [[[[? ?] ?] ?] ?]. split_and!; auto.
    + intros (? & ? & ? & ? & ? & _). split_and!; auto.
  - eexists. split; [reflexivity|]. intros row.
    rewrite elem_of_filter_in, !elem_of_filter_if_given. split.
    + intros [[[[[? ?] ?] ?] ?] (v & Hv & ?)]. injection Hv as <-.
      split_and!; auto.
    + intros (? & ? & ? & ? & ? & [?|?]); [done|].
      split; [split_and!; auto|]. by exists (identifier row).
Qed.

End SelectionFacts.

(** ** Python strings *)

Section StrFacts.

Import Str.

Implicit Types (c : ascii) (s t : string).

Lemma contains_app c s t :
  contains c (s ++ t) = contains c s || contains c t.
Proof.
  induction s as [|c' s IH]; [done|]. simpl. rewrite IH.
  by rewrite orb_assoc.
Qed.

Lemma find_None c s : find c s = None ↔ contains c s = false.
Proof.
  induction s as [|c' s IH]; [done|]. simpl.
  destruct (Ascii.eqb c' c); simpl; [done|].
  rewrite <- IH. by destruct (find c s).
Qed.

(** The first occurrence cuts the string in two, the first part being free
    of the character. *)
Lemma find_Some c s i :
  find c s = Some i →
  s = take i s ++ String c (drop (i + 1) s)
  ∧ contains c (take i s) = false.
Proof.
  revert i. induction s as [|c' s IH]; intros i; [done|]. simpl.
  destruct (Ascii.eqb c' c) eqn:Hc.
  - intros [= <-]. simpl. apply Ascii.eqb_eq in Hc as ->. by destruct s.
  - destruct (find c s) as [j|] eqn:Hj; [|done]. simpl.
    intros [= <-]. destruct (IH j eq_refl) as [Hs Hno].
    split.
    + change (String c' s
              = String c' (take j s ++ String c (drop (j + 1) s))).
      by rewrite <- Hs.
    + simpl. by rewrite Hc.
Qed.

Lemma find_app_first c s t :
  contains c s = false → find c (s ++ String c t) = Some (String.length s).
Proof.
  induction s as [|c' s IH]; simpl.
  - intros _. by rewrite Ascii.eqb_refl.
  - intros H. apply orb_false_iff in H as [Hc Hs]. rewrite Hc.
    by rewrite (IH Hs).
Qed.

Lemma take_app_length s t : take (String.length s) (s ++ t) = s.
Proof.
  induction s as [|c s IH]; simpl; [by destruct t|]. by rewrite IH.
Qed.

Lemma drop_app_length s t : drop (String.length s) (s ++ t) = t.
Proof. induction s as [|c s IH]; simpl; [by destruct t|]. done. Qed.

Lemma before_no_char c s : contains c (before c s) = false.
Proof.
  unfold before. destruct (find c s) as [i|] eqn:Hf.
  - by apply find_Some in Hf as [_ ?].
  - by apply find_None.
Qed.

Lemma before_app c s t :
  contains c s = false → before c (s ++ String c t) = s.
Proof.
  intros H. unfold before. rewrite (find_app_first _ _ _ H).
  apply take_app_length.
Qed.

Lemma before_whole c s : contains c s = false → before c s = s.
Proof. intros H. unfold before. by apply find_None in H as ->. Qed.

Lemma contains_before c c' s :
  contains c s = false → contains c (before c' s) = false.
Proof.
  intros H. unfold before. destruct (find c' s) as [i|] eqn:Hf; [|done].
  apply find_Some in Hf as [Hs _]. rewrite Hs, contains_app in H.
  by apply orb_false_iff in H as [? _].
Qed.

(** *** [basename] *)

Lemma append_cons c s t : (String c s ++ t)%string = String c (s ++ t).
Proof. reflexivity. Qed.

Lemma append_empty_r s : (s ++ EmptyString)%string = s.
Proof.
  induction s as [|a s IH]; [done|]. by rewrite append_cons, IH.
Qed.

Lemma append_snoc s c t :
  ((s ++ String c EmptyString) ++ t)%string = (s ++ String c t)%string.
Proof.
  induction s as [|a s IH]; [done|]. by rewrite !append_cons, IH.
Qed.

Lemma basename_from_plain (acc path : string) :
  contains "/" path = false → basename_from acc path = (acc ++ path)%string.
Proof.
  revert acc. induction path as [|c path IH]; intros acc; simpl.
  - intros _. by rewrite append_empty_r.
  - intros H. apply orb_false_iff in H as [Hc Hp]. rewrite Hc.
    rewrite (IH _ Hp). apply append_snoc.
Qed.

Lemma basename_from_slash (acc dir rest : string) :
  basename_from acc (dir ++ String "/" rest) = basename_from EmptyString rest.
Proof.
  revert acc. induction dir as [|c dir IH]; intros acc; simpl; [done|].
  destruct (Ascii.eqb c "/"); apply IH.
Qed.

Lemma basename_from_no_slash (acc path : string) :
  contains "/" acc = false →
  contains "/" (basename_from acc path) = false.
Proof.
  revert acc. induction path as [|c path IH]; intros acc Hacc; [done|].
  simpl. destruct (Ascii.eqb c "/") eqn:Hc; [by apply IH|].
  apply IH. rewrite contains_app, Hacc. simpl. by rewrite Hc.
Qed.

(** *** [strip] *)

Section StripFacts.

Context (isspace : ascii → bool).

(** A string is stripped when it neither begins nor ends with white
    space. *)
Lemma lstrip_suffix s : ∃ pad, s = (pad ++ lstrip isspace s)%string.
Proof.
  induction s as [|c s [pad IH]]; [by exists EmptyString|]. simpl.
  destruct (isspace c); [|by exists EmptyString].
  exists (String c pad). rewrite append_cons. by f_equal.
Qed.

Lemma rstrip_prefix s : ∃ pad, s = (rstrip isspace s ++ pad)%string.
Proof.
  induction s as [|c s [pad IH]]; [by exists EmptyString|]. simpl.
  destruct (rstrip isspace s) as [|c' r] eqn:Hr.
  - destruct (isspace c).
    + exists (String c pad). rewrite IH at 1. reflexivity.
    + exists pad. rewrite IH at 1. reflexivity.
  - exists pad. rewrite IH at 1. reflexivity.
Qed.

Lemma rstrip_idem s : rstrip isspace (rstrip isspace s) = rstrip isspace s.
Proof.
  induction s as [|c s IH]; [done|]. simpl.
  destruct (rstrip isspace s) as [|c' r] eqn:Hr.
  - destruct (isspace c) eqn:Hc; [done|]. simpl. by rewrite Hc.
  - simpl in *. by rewrite IH.
Qed.

Lemma lstrip_rstrip s :
  lstrip isspace (rstrip isspace (lstrip isspace s))
  = rstrip isspace (lstrip isspace s).
Proof.
  induction s as [|c s IH]; [done|]. simpl.
  destruct (isspace c) eqn:Hc; [done|]. simpl.
  destruct (rstrip isspace s); simpl; rewrite ?Hc; simpl; by rewrite ?Hc.
Qed.

Lemma strip_idem s : strip isspace (strip isspace s) = strip isspace s.
Proof. unfold strip. by rewrite lstrip_rstrip, rstrip_idem. Qed.

Lemma contains_strip c s :
  contains c s = false → contains c (strip isspace s) = false.
Proof.
  intros H. unfold strip.
  destruct (lstrip_suffix s) as [p1 H1].
  destruct (rstrip_prefix (lstrip isspace s)) as [p2 H2].
  rewrite H1, H2, !contains_app in H.
  apply orb_false_iff in H as [_ H]. by apply orb_false_iff in H as [? _].
Qed.

End StripFacts.

End StrFacts.

(** ** The helper functions of [vires_product_add] *)

Section ProductAddFacts.

Import Str ProductAdd.

(** X17.  [_split_location] cuts at the first colon: the format has no
    colon and format, colon and location make up the item again; without
    a colon the format is [None] and the location is the item.  Conversely
    a format without colon joined to any location is split back into the
    two. *)
Theorem split_location_round_trip (item : string) :
  match _split_location item with
  | (Some format, location) =>
      item = (format ++ ":" ++ location)%string
      ∧ contains ":" format = false
  | (None, location) => location = item ∧ contains ":" item = false
  end
  ∧ ∀ format location : string,
      contains ":" format = false →
      _split_location (format ++ ":" ++ location) = (Some format, location).
Proof.
  split.
  - unfold _split_location. destruct (find ":" item) as [idx|] eqn:Hf.
    + by apply find_Some in Hf.
    + split; [done|]. by apply find_None.
  - intros format location Hno. unfold _split_location.
    change (format ++ ":" ++ location)%string
      with (format ++ String ":" location)%string.
    rewrite (find_app_first _ _ _ Hno), take_app_length.
    replace (String.length format + 1) with (S (String.length format))
      by lia.
    f_equal. clear Hno. induction format as [|c f IH]; [done|]. apply IH.
Qed.

(** X18.  A product identifier holds neither a slash nor a dot, and the
    identifier of [<directory>/<name>.<extension>] is [<name>] when the name
    holds neither and the extension holds no slash. *)
Theorem product_id_of_path (data_file : string) :
  contains "/" (get_product_id data_file) = false
  ∧ contains "." (get_product_id data_file) = false
  ∧ ∀ directory name extension : string,
      contains "/" name = false → contains "." name = false →
      contains "/" extension = false →
      get_product_id (directory ++ "/" ++ name ++ "." ++ extension) = name.
Proof.
  unfold get_product_id, basename. split_and!.
  - apply contains_before. by apply basename_from_no_slash.
  - apply before_no_char.
  - intros directory name extension Hn Hd He.
    change (directory ++ "/" ++ name ++ "." ++ extension)%string
      with (directory ++ String "/" (name ++ String "." extension))%string.
    rewrite basename_from_slash, basename_from_plain.
    + simpl. by apply before_app.
    + rewrite contains_app, Hn. simpl. exact He.
Qed.

(** X19.  The lines [_read_lines] yields are not empty, hold no [#], and
    have no white space around them; each is a line of the input with its
    comment and padding removed. *)
Theorem read_lines_are_clean (isspace : ascii → bool)
    (lines : list string) (line : string) :
  line ∈ _read_lines isspace lines →
  line ≠ EmptyString
  ∧ contains "#" line = false
  ∧ strip isspace line = line
  ∧ ∃ raw, raw ∈ lines ∧ line = strip isspace (before "#" raw).
Proof.
  induction lines as [|raw lines IH]; simpl.
  - intros H. by apply elem_of_nil in H.
  - destruct (strip isspace (before "#" raw)) as [|c rest] eqn:Hs.
    + intros H. destruct (IH H) as (? & ? & ? & raw' & ? & ?).
      split_and!; try done. exists raw'. split; [by right|done].
    + intros H. apply elem_of_cons in H as [->|H].
      * split_and!.
        -- done.
        -- rewrite <- Hs. apply contains_strip, before_no_char.
        -- rewrite <- Hs. apply strip_idem.
        -- exists raw. split; [by left|done].
      * destruct (IH H) as (? & ? & ? & raw' & ? & ?).
        split_and!; try done. exists raw'. split; [by right|done].
Qed.

Lemma no_action_in_summary (t : Tally) :
  NoActionPerformed ∈ summary t ↔ total_count t = 0.
Proof.
  unfold summary. rewrite !elem_of_app. split.
  - intros [H|[H|[H|[H|H]]]].
    + destruct (0 <? inserted_count t)%nat; [|by apply elem_of_nil in H].
      by apply list_elem_of_singleton in H.
    + destruct (0 <? skipped_count t)%nat; [|by apply elem_of_nil in H].
      by apply list_elem_of_singleton in H.
    + destruct (0 <? removed_count t)%nat; [|by apply elem_of_nil in H].
      by apply list_elem_of_singleton in H.
    + destruct (0 <? failed_count t)%nat; [|by apply elem_of_nil in H].
      by apply list_elem_of_singleton in H.
    + destruct (total_count t =? 0)%nat eqn:Ht;
        [by apply Nat.eqb_eq in Ht | by apply elem_of_nil in H].
  - intros ->. do 4 right. simpl. by apply list_elem_of_singleton.
Qed.

(** X20.  [handle] counts every data file once: the total is the number of
    files, and it is the sum of the products registered, skipped and failed;
    "No action performed." is printed exactly when there was no file. *)
Theorem handle_tally {DB : Type}
    (register : string → string → DB → result (list string * list string) * DB)
    (data_files : list string) (database : DB) :
  total_count (tally (handle_products register data_files database))
  = length data_files
  ∧ total_count (tally (handle_products register data_files database))
    = (inserted_count (tally (handle_products register data_files database))
       + skipped_count (tally (handle_products register data_files database))
       + failed_count (tally (handle_products register data_files database)))%nat
  ∧ (NoActionPerformed
       ∈ output (handle_products register data_files database)
     ↔ data_files = []).
Proof.
  unfold handle_products. simpl.
  set (st0 := {| db := database;
                 tally := {| total_count := 0; inserted_count := 0;
                             removed_count := 0; skipped_count := 0;
                             failed_count := 0 |};
                 output := [] |}).
  assert (∀ (dfs : list string) (st : @Run DB),
            let st' := foldl (λ st f, handle_one register f st) st dfs in
            total_count (tally st')
            = (total_count (tally st) + length dfs)%nat
            ∧ ((total_count (tally st)
                = inserted_count (tally st) + skipped_count (tally st)
                  + failed_count (tally st))%nat →
               (total_count (tally st')
                = inserted_count (tally st') + skipped_count (tally st')
                  + failed_count (tally st'))%nat)
            ∧ (NoActionPerformed ∉ output st →
               NoActionPerformed ∉ output st')) as Hloop.
  { induction dfs as [|f dfs IH]; intros st; simpl; [split_and!; auto; lia|].
    destruct (IH (handle_one register f st)) as (IH1 & IH2 & IH3).
    assert (total_count (tally (handle_one register f st))
            = S (total_count (tally st))
            ∧ ((total_count (tally st)
                = inserted_count (tally st) + skipped_count (tally st)
                  + failed_count (tally st))%nat →
               (total_count (tally (handle_one register f st))
                = inserted_count (tally (handle_one register f st))
                  + skipped_count (tally (handle_one register f st))
                  + failed_count (tally (handle_one register f st)))%nat)
            ∧ (NoActionPerformed ∉ output st →
               NoActionPerformed ∉ output (handle_one register f st)))
      as (S1 & S2 & S3).
    { unfold handle_one.
      destruct (register (get_product_id f) f (db st))
        as [[[removed inserted]|e] db']; simpl.
      - split_and!; [lia| |done]. destruct inserted; lia.
      - split_and!; [lia|lia|]. intros Hno Hin.
        apply elem_of_app in Hin as [?|Hin]; [done|].
        apply elem_of_cons in Hin as [?|Hin]; [done|].
        by apply list_elem_of_singleton in Hin. }
    split_and!; [lia | auto | auto]. }
  destruct (Hloop data_files st0) as (H1 & H2 & H3).
  split_and!; [exact H1 | apply H2; reflexivity |].
  rewrite elem_of_app, no_action_in_summary, H1. simpl. split.
  - intros [Hin|Hlen].
    + exfalso. revert Hin. apply H3, not_elem_of_nil.
    + by destruct data_files.
  - intros ->. by right.
Qed.

End ProductAddFacts.

(** ** The input parsers *)

Section ParserFacts.

Import Str InputParsers.

Context (isspace : ascii → bool).

(** *** Ordered dictionaries *)

Lemma od_set_keys {V} (key : string) (value : V) (d : list (string * V))
    (k : string) :
  k ∈ (od_set key value d).*1 ↔ k = key ∨ k ∈ d.*1.
Proof.
  induction d as [|[k0 v0] d IH]; simpl.
  - rewrite list_elem_of_singleton. split; [by left|].
    intros [?|H]; [done|]. by apply elem_of_nil in H.
  - destruct (String.eqb k0 key) eqn:Hk; simpl.
    + apply String.eqb_eq in Hk as ->. rewrite !elem_of_cons. tauto.
    + rewrite !elem_of_cons, IH. tauto.
Qed.

Lemma od_set_NoDup {V} (key : string) (value : V) (d : list (string * V)) :
  NoDup d.*1 → NoDup (od_set key value d).*1.
Proof.
  induction d as [|[k0 v0] d IH]; simpl; intros Hnd.
  - apply NoDup_singleton.
  - apply NoDup_cons in Hnd as [Hk0 Hnd].
    destruct (String.eqb k0 key) eqn:Hk; simpl.
    + by apply NoDup_cons.
    + apply NoDup_cons. split; [|by apply IH].
      rewrite od_set_keys. intros [->|?]; [|done].
      by rewrite String.eqb_refl in Hk.
Qed.

(** *** [split] *)

Lemma split_length (c : ascii) (s : string) :
  length (split c s) = S (count c s).
Proof.
  induction s as [|c' s IH]; [done|]. simpl.
  destruct (Ascii.eqb c' c); simpl; [by rewrite IH|].
  destruct (split c s); simpl in *; lia.
Qed.

(** *** [parse_models] *)

Section ModelsFacts.

Context {S Mdl Shc : Type}
  (get_model : string → S → result (option Mdl) * S)
  (read_model_shc : Shc → option Mdl).

Local Abbreviation parse_ids := (parse_model_ids get_model read_model_shc).

Lemma parse_model_ids_keys (input_id : string) (model_ids : list string)
    (shc : Shc) (shc_input_id : string) (models result : list (string * Mdl))
    (st st' : S) :
  parse_ids input_id model_ids shc shc_input_id models st = (Ok result, st') →
  NoDup models.*1 →
  NoDup result.*1
  ∧ ∀ k, k ∈ result.*1 ↔ k ∈ models.*1 ∨ k ∈ model_ids.
Proof.
  revert models st. induction model_ids as [|model_id ids IH];
    intros models st; simpl.
  - intros [= <- <-] Hnd. split; [done|]. intros k.
    rewrite elem_of_nil. tauto.
  - destruct (parse_model get_model read_model_shc input_id model_id shc
                shc_input_id st) as [[model|f] st1]; [|done].
    intros Hrun Hnd.
    destruct (IH _ _ Hrun (od_set_NoDup _ _ _ Hnd)) as [Hnd' Hkeys].
    split; [done|]. intros k. rewrite Hkeys, od_set_keys, elem_of_cons. tauto.
Qed.

Lemma parse_model_ids_unknown (input_id : string) (model_ids : list string)
    (shc : Shc) (shc_input_id : string) (models : list (string * Mdl))
    (st : S) (model_id : string) :
  model_id ∈ model_ids →
  model_id ≠ "Custom_Model" →
  (∀ st, (get_model model_id st).1 = Return None) →
  ∃ f st',
    parse_ids input_id model_ids shc shc_input_id models st = (Fail f, st').
Proof.
  intros Hin Hcustom Hnone. revert models st.
  induction model_ids as [|id0 ids IH]; intros models st.
  - by apply elem_of_nil in Hin.
  - simpl.
    destruct (parse_model get_model read_model_shc input_id id0 shc
                shc_input_id st) as [[model|f] st1] eqn:Hp; [|by eauto].
    apply elem_of_cons in Hin as [<-|Hin]; [|by apply IH].
    exfalso. unfold parse_model in Hp.
    apply String.eqb_neq in Hcustom. rewrite Hcustom in Hp.
    specialize (Hnone st).
    destruct (get_model model_id st) as [[[m|]|e] st2]; simpl in Hnone;
      congruence.
Qed.

(** X21.  The dictionary [parse_models] returns has one entry for each
    identifier of the comma-separated list, white space around the
    identifiers being ignored: its keys are distinct, stripped, and exactly
    the stripped items of the list (none for a blank list). *)
Theorem parse_models_keys (input_id model_ids : string) (shc : Shc)
    (shc_input_id : string) (st st' : S) (models : list (string * Mdl)) :
  parse_models isspace get_model read_model_shc input_id model_ids shc
    shc_input_id st = (Ok models, st') →
  NoDup models.*1
  ∧ (∀ k, k ∈ models.*1 → strip isspace k = k)
  ∧ (∀ k, k ∈ models.*1
          ↔ strip isspace model_ids ≠ EmptyString
            ∧ k ∈ strip isspace <$> split "," model_ids).
Proof.
  unfold parse_models.
  destruct (strip isspace model_ids) as [|c rest] eqn:Hblank.
  - intros [= <- <-]. split_and!.
    + apply NoDup_nil_2.
    + intros k H. by apply elem_of_nil in H.
    + intros k. simpl. rewrite elem_of_nil. split; [done|]. by intros [? _].
  - intros Hrun.
    destruct (parse_model_ids_keys _ _ _ _ _ _ _ _ Hrun (NoDup_nil_2))
      as [Hnd Hkeys].
    split_and!; [done| |].
    + intros k Hk. apply Hkeys in Hk as [Hk|Hk]; [by apply elem_of_nil in Hk|].
      apply list_elem_of_fmap in Hk as (piece & -> & _). apply strip_idem.
    + intros k. rewrite Hkeys. simpl. rewrite elem_of_nil. split.
      * intros [?|?]; [done|]. done.
      * intros [_ ?]. by right.
Qed.

(** X22.  One unknown identifier rejects the whole list: when an item of a
    list that is not blank is not ["Custom_Model"] and [get_model] answers
    [None] for it, [parse_models] raises and returns no dictionary. *)
Theorem parse_models_rejects_unknown (input_id model_ids : string)
    (shc : Shc) (shc_input_id : string) (st : S) (model_id : string) :
  strip isspace model_ids ≠ EmptyString →
  model_id ∈ strip isspace <$> split "," model_ids →
  model_id ≠ "Custom_Model" →
  (∀ st, (get_model model_id st).1 = Return None) →
  ∃ f st',
    parse_models isspace get_model read_model_shc input_id model_ids shc
      shc_input_id st = (Fail f, st').
Proof.
  intros Hblank Hin Hcustom Hnone. unfold parse_models.
  destruct (strip isspace model_ids) as [|c rest]; [done|].
  by apply (parse_model_ids_unknown _ _ _ _ _ _ model_id).
Qed.

End ModelsFacts.

(** *** [parse_variables] *)

(** X23.  [parse_variables] returns no variable for a blank string, and
    else one name for each comma-separated item of the stripped string, that
    is one more than it has commas; every name is stripped (and may be
    empty). *)
Theorem parse_variables_names (input_id variables_strings : string) :
  length (parse_variables isspace input_id variables_strings)
  = match strip isspace variables_strings with
    | EmptyString => 0
    | stripped => Datatypes.S (count "," stripped)
    end
  ∧ ∀ name, name ∈ parse_variables isspace input_id variables_strings →
            strip isspace name = name.
Proof.
  unfold parse_variables.
  destruct (strip isspace variables_strings) as [|c rest] eqn:Hs.
  - split; [done|]. intros name H. by apply elem_of_nil in H.
  - split.
    + by rewrite length_fmap, split_length.
    + intros name H. apply list_elem_of_fmap in H as (piece & -> & _).
      apply strip_idem.
Qed.

(** *** [parse_filters] *)

Section FiltersFacts.

Context {F : Type} (float : string → option F).

Local Abbreviation parse_one := (parse_filter isspace float).
Local Abbreviation parse_items := (parse_filter_items isspace float).

(** A filter that is accepted is put at the end, under a name that is
    new, not empty and stripped. *)
Lemma parse_filter_accepts (item : string)
    (filters filters' : list (string * (F * F))) :
  parse_one item filters = inr filters' →
  length (split ":" item) = 2
  ∧ ∃ name bounds,
      filters' = (filters ++ [(name, bounds)])%list
      ∧ (name ∉ filters.*1)
      ∧ name ≠ EmptyString ∧ strip isspace name = name.
Proof.
  unfold parse_filter.
  destruct (split ":" item) as [|raw [|bounds [|? ?]]]; try done.
  destruct (strip isspace raw) as [|c rest] eqn:Hname; [done|].
  destruct (floats float (split "," bounds)) as [why|[|lo [|hi [|? ?]]]];
    try done.
  case_bool_decide as Hdup; [done|]. intros [= <-]. split; [done|].
  exists (String c rest), (lo, hi). split_and!; try done.
  rewrite <- Hname. apply strip_idem.
Qed.

Lemma parse_filter_items_accepts (items : list string)
    (filters result : list (string * (F * F))) :
  parse_items items filters = inr result →
  (NoDup filters.*1 → NoDup result.*1)
  ∧ ((∀ name, name ∈ filters.*1 →
        name ≠ EmptyString ∧ strip isspace name = name) →
     ∀ name, name ∈ result.*1 →
       name ≠ EmptyString ∧ strip isspace name = name)
  ∧ length result = (length filters + length items)%nat
  ∧ ∀ item, item ∈ items → length (split ":" item) = 2.
Proof.
  revert filters. induction items as [|item items IH]; intros filters; simpl.
  - intros [= <-]. split_and!; [done | done | lia |].
    intros item H. by apply elem_of_nil in H.
  - destruct (parse_one item filters) as [why|filters'] eqn:Hone; [done|].
    intros Hrest.
    destruct (parse_filter_accepts _ _ _ Hone)
      as (Hcolon & name & bounds & -> & Hnew & Hne & Hstrip).
    destruct (IH _ Hrest) as (IHnd & IHgood & IHlen & IHcolon).
    split_and!.
    + intros Hnd. apply IHnd. rewrite fmap_app. simpl.
      apply NoDup_app. split_and!; [done| |apply NoDup_singleton].
      intros k Hk Hk'. apply list_elem_of_singleton in Hk' as ->. done.
    + intros Hgood. apply IHgood. intros k. rewrite fmap_app, elem_of_app.
      simpl. rewrite list_elem_of_singleton. intros [Hk| ->]; [by apply Hgood|].
      done.
    + rewrite IHlen, length_app. simpl. lia.
    + intros item' Hin. apply elem_of_cons in Hin as [->|Hin]; [done|].
      by apply IHcolon.
Qed.

(** X24.  The filters [parse_filters] returns have distinct names, none
    empty, all stripped, and, the string not being blank, there is one
    filter for each of its items between semicolons. *)
Theorem parse_filters_names (input_id filter_string : string)
    (filters : list (string * (F * F))) :
  parse_filters isspace float input_id filter_string = Ok filters →
  NoDup filters.*1
  ∧ (∀ name, name ∈ filters.*1 →
       name ≠ EmptyString ∧ strip isspace name = name)
  ∧ length filters
    = match strip isspace filter_string with
      | EmptyString => 0
      | _ => Datatypes.S (count ";" filter_string)
      end.
Proof.
  unfold parse_filters.
  destruct (strip isspace filter_string) as [|c rest].
  - intros [= <-]. split_and!; [apply NoDup_nil_2| |done].
    intros name H. by apply elem_of_nil in H.
  - destruct (parse_items (split ";" filter_string) []) as [why|result]
      eqn:Hrun; [done|].
    intros [= <-].
    destruct (parse_filter_items_accepts _ _ _ Hrun)
      as (Hnd & Hgood & Hlen & _).
    split_and!.
    + apply Hnd, NoDup_nil_2.
    + apply Hgood. intros name H. by apply elem_of_nil in H.
    + by rewrite Hlen, split_length.
Qed.

(** X25.  An item without exactly one colon rejects the whole string: a
    string that is not blank and has such an item between its semicolons
    (an empty item after a trailing semicolon, say) raises
    [InvalidInputValueError] for the input. *)
Theorem parse_filters_rejects_item (input_id filter_string item : string) :
  strip isspace filter_string ≠ EmptyString →
  item ∈ split ";" filter_string →
  length (split ":" item) ≠ 2 →
  ∃ why,
    parse_filters isspace float input_id filter_string
    = Fail (InvalidInputValueError input_id why).
Proof.
  intros Hblank Hin Hcolon. unfold parse_filters.
  destruct (strip isspace filter_string) as [|c rest]; [done|].
  destruct (parse_items (split ";" filter_string) []) as [why|result]
    eqn:Hrun; [by eauto|].
  exfalso. apply Hcolon.
  by apply (parse_filter_items_accepts _ _ _ Hrun).
Qed.

End FiltersFacts.

End ParserFacts.

(** *** [get_subtracted_variables] *)

Section RegexFacts.

Import Str InputParsers.

Implicit Types (keywords : list string) (s base : string) (x y : ascii).

(** The shape the expression describes: a group that is not empty and has
    no newline, an underscore, one of the keywords, two letters out of A,
    B, C, and anything after. *)
Local Abbreviation shaped keywords s base x y :=
  (∃ keyword rest : string,
     keyword ∈ keywords
     ∧ s = (base ++ String "_" (keyword ++ String x (String y rest)))%string).

Lemma after_prefix_Some (prefix s rest : string) :
  after_prefix prefix s = Some rest ↔ s = (prefix ++ rest)%string.
Proof.
  revert s. induction prefix as [|a prefix IH]; intros s; simpl.
  - split; [by intros [= ->] | by intros ->].
  - destruct s as [|b s]; [done|]. rewrite append_cons.
    destruct (Ascii.eqb a b) eqn:Hab.
    + apply Ascii.eqb_eq in Hab as ->. rewrite IH. split; [by intros ->|].
      by intros [= ->].
    + apply Ascii.eqb_neq in Hab. split; [done|]. by intros [= -> _].
Qed.

Lemma match_tail_sound keywords s x y :
  match_tail keywords s = Some (x, y) →
  is_ABC x = true ∧ is_ABC y = true
  ∧ ∃ keyword rest : string,
      keyword ∈ keywords
      ∧ s = String "_" (keyword ++ String x (String y rest)).
Proof.
  unfold match_tail. destruct s as [|c s]; [done|].
  destruct (Ascii.eqb c "_") eqn:Hc.
  2:{ apply Ascii.eqb_neq in Hc.
      destruct c as [[] [] [] [] [] [] [] []]; done. }
  apply Ascii.eqb_eq in Hc as ->.
  induction keywords as [|keyword keywords IH]; [done|]. simpl.
  destruct (after_prefix keyword s) as [[|x' [|y' rest]]|] eqn:Hp;
    try (intros H; destruct (IH H) as (? & ? & kw & r & ? & ?);
         split_and!; [done|done|]; exists kw, r; split; [by right|done]).
  destruct (is_ABC x' && is_ABC y') eqn:Habc.
  - intros [= <- <-]. apply andb_true_iff in Habc as [? ?].
    split_and!; [done|done|]. exists keyword, rest. split; [by left|].
    by apply after_prefix_Some in Hp as ->.
  - intros H; destruct (IH H) as (? & ? & kw & r & ? & ?).
    split_and!; [done|done|]. exists kw, r. split; [by right|done].
Qed.

Lemma match_tail_complete keywords (keyword rest : string) x y :
  keyword ∈ keywords → is_ABC x = true → is_ABC y = true →
  is_Some (match_tail keywords
             (String "_" (keyword ++ String x (String y rest)))).
Proof.
  intros Hin Hx Hy. unfold match_tail.
  induction keywords as [|kw keywords IH]; [by apply elem_of_nil in Hin|].
  simpl.
  destruct (match after_prefix kw (keyword ++ String x (String y rest)) with
            | Some (String x0 (String y0 _)) =>
                if is_ABC x0 && is_ABC y0 then Some (x0, y0) else None
            | _ => None
            end) as [xy|] eqn:Hkw; [by eexists|].
  apply elem_of_cons in Hin as [->|Hin]; [|by apply IH].
  exfalso.
  assert (after_prefix kw (kw ++ String x (String y rest))
          = Some (String x (String y rest))) as Hp
    by by apply after_prefix_Some.
  rewrite Hp, Hx, Hy in Hkw. done.
Qed.

Lemma match_from_sound keywords base s (group : string) x y :
  match_from keywords base s = Some (group, x, y) →
  is_ABC x = true ∧ is_ABC y = true ∧ group ≠ EmptyString
  ∧ ∃ taken tail : string,
      group = (base ++ taken)%string
      ∧ s = (taken ++ tail)%string
      ∧ contains "010" taken = false
      ∧ ∃ keyword rest : string,
          keyword ∈ keywords
          ∧ tail = String "_" (keyword ++ String x (String y rest)).
Proof.
  revert base. induction s as [|c s IH]; intros base; [done|].
  assert (match base with
          | EmptyString => None
          | _ => (λ xy : ascii * ascii, (base, xy.1, xy.2))
                   <$> match_tail keywords (String c s)
          end = Some (group, x, y) →
          is_ABC x = true ∧ is_ABC y = true ∧ group ≠ EmptyString
          ∧ ∃ taken tail : string,
              group = (base ++ taken)%string
              ∧ String c s = (taken ++ tail)%string
              ∧ contains "010" taken = false
              ∧ ∃ keyword rest : string,
                  keyword ∈ keywords
                  ∧ tail = String "_" (keyword ++ String x (String y rest)))
    as Hhere.
  { destruct base as [|b base']; [done|].
    destruct (match_tail keywords (String c s)) as [[x0 y0]|] eqn:Ht; [|done].
    simpl. intros [= <- <- <-].
    destruct (match_tail_sound _ _ _ _ Ht) as (? & ? & kw & r & ? & ?).
    split_and!; [done|done|done|].
    exists EmptyString, (String c s). rewrite append_empty_r.
    split_and!; [done|done|done|]. by exists kw, r. }
  simpl. destruct (Ascii.eqb c "010") eqn:Hnl; [exact Hhere|].
  destruct (match_from keywords (base ++ String c EmptyString) s)
    as [[[g x0] y0]|] eqn:Hrec; [|exact Hhere].
  intros [= <- <- <-].
  destruct (IH _ Hrec) as (? & ? & ? & taken & tail & -> & -> & Hno & Hkw).
  split_and!; [done|done|done|].
  exists (String c taken), tail. rewrite append_snoc.
  split_and!; [done|done| |done]. simpl. by rewrite Hnl.
Qed.

Lemma match_from_complete keywords base (taken tail : string) :
  contains "010" taken = false →
  (base ++ taken)%string ≠ EmptyString →
  is_Some (match_tail keywords tail) →
  is_Some (match_from keywords base (taken ++ tail)).
Proof.
  revert base. induction taken as [|c taken IH]; intros base Hno Hne Htail.
  - rewrite append_empty_r in Hne.
    change (EmptyString ++ tail)%string with tail.
    destruct Htail as [xy Hxy].
    destruct tail as [|c tail]; [done|]. cbn [match_from].
    rewrite Hxy.
    destruct (Ascii.eqb c "010"); [by destruct base; [|eexists]|].
    destruct (match_from keywords (base ++ String c EmptyString) tail);
      [by eexists|].
    destruct base; [done|]. by eexists.
  - rewrite append_cons. cbn [match_from]. cbn [contains] in Hno.
    apply orb_false_iff in Hno as [Hnl Hno]. rewrite Hnl.
    destruct (IH (base ++ String c EmptyString)%string) as [g Hg];
      [done| |done|].
    + rewrite append_snoc. exact Hne.
    + rewrite Hg. by eexists.
Qed.

(** X26.  [get_subtracted_variables] extracts, in their order, the
    variables that begin with a group (not empty, without newline)
    followed by [_res] or [_diff] and two letters out of A, B, C: each
    entry carries a variable of the list with such a group and letters, and
    every variable of the list of that shape has an entry. *)
Theorem subtracted_variables_shape (variables : list string) :
  (∀ (variable group : string) x y,
     (variable, (group, x, y)) ∈ get_subtracted_variables variables →
     variable ∈ variables
     ∧ group ≠ EmptyString ∧ contains "010" group = false
     ∧ is_ABC x = true ∧ is_ABC y = true
     ∧ shaped ["res"; "diff"] variable group x y)
  ∧ (∀ (variable group : string) x y,
       variable ∈ variables →
       group ≠ EmptyString → contains "010" group = false →
       is_ABC x = true → is_ABC y = true →
       shaped ["res"; "diff"] variable group x y →
       variable ∈ (get_subtracted_variables variables).*1).
Proof.
  unfold get_subtracted_variables. split.
  - intros variable group x y Hin.
    apply list_elem_of_omap in Hin as (v & Hv & Hm).
    destruct (RE_SUBTRACTED_VARIABLE v) as [[[g x0] y0]|] eqn:Hre; [|done].
    injection Hm as <- <- <- <-.
    destruct (match_from_sound _ _ _ _ _ _ Hre)
      as (? & ? & ? & taken & tail & Hg & Hs & Hno & kw & r & ? & ->).
    simpl in Hg. subst g. split_and!; try done. by exists kw, r.
  - intros variable group x y Hin Hne Hno Hx Hy (kw & r & Hkw & Hs).
    apply list_elem_of_fmap.
    assert (is_Some (RE_SUBTRACTED_VARIABLE variable)) as [groups Hre].
    { unfold RE_SUBTRACTED_VARIABLE. rewrite Hs.
      apply match_from_complete; [done|done|].
      by apply match_tail_complete. }
    exists (variable, groups). split; [done|].
    apply list_elem_of_omap. exists variable. split; [done|].
    by rewrite Hre.
Qed.

End RegexFacts.

(** *** [parse_collections] *)

Section CollectionsFacts.

Import InputParsers.

Context {Series : Type} (collections : list Collection)
  (ProductTimeSeries : Collection → Series).

Implicit Types (objs : list Collection) (ids : list string).

(** What the dictionary of the available collections holds under an
    identifier is a collection of the table with that identifier. *)
Lemma available_collections_lookup ids (id_ : string) (obj : Collection) :
  available_collections collections ids !! id_ = Some obj →
  obj ∈ collections ∧ identifier obj = id_.
Proof.
  unfold available_collections.
  assert (∀ (l : list Collection) (acc : gmap string Collection),
            (∀ o, o ∈ l → o ∈ collections) →
            (∀ k o, acc !! k = Some o → o ∈ collections ∧ identifier o = k) →
            ∀ k o, foldl (λ acc obj, <[identifier obj := obj]> acc) acc l
                     !! k = Some o →
                   o ∈ collections ∧ identifier o = k) as Hfold.
  { induction l as [|o0 l IH]; intros acc Hl Hacc k o; simpl; [apply Hacc|].
    apply IH.
    - intros o' Ho'. apply Hl. by right.
    - intros k' o'. destruct (decide (identifier o0 = k')) as [<-|Hne].
      + rewrite lookup_insert_eq. intros [= <-]. split; [|done].
        apply Hl. by left.
      + rewrite lookup_insert_ne by done. apply Hacc. }
  apply Hfold.
  - intros o Ho. by apply list_elem_of_filter in Ho as [_ ?].
  - intros k o. by rewrite lookup_empty.
Qed.

Lemma pick_picks ids objs :
  pick (available_collections collections ids) ids = inr objs →
  identifier <$> objs = ids ∧ ∀ obj, obj ∈ objs → obj ∈ collections.
Proof.
  generalize (available_collections_lookup ids).
  generalize (available_collections collections ids) at 1 2.
  intros available Hav. revert objs.
  induction ids as [|id_ ids' IH]; intros objs; simpl.
  - intros [= <-]. split; [done|]. intros obj H. by apply elem_of_nil in H.
  - destruct (available !! id_) as [obj|] eqn:Hl; [|done].
    destruct (pick available ids') as [missing|objs'] eqn:Hp; [done|].
    intros [= <-]. destruct (IH _ eq_refl) as [Hids Hin].
    destruct (Hav _ _ Hl) as [Hobj Hid]. split.
    + rewrite fmap_cons. by f_equal.
    + intros o Ho. apply elem_of_cons in Ho as [->|Ho]; [done|by apply Hin].
Qed.

(** The first loop gives every label the collections its identifiers
    name, in their order. *)
Lemma resolve_ids_resolves (items : list (string * ids_value))
    (result : list (string * list Collection)) :
  resolve_ids collections items = inr result →
  Forall2 (λ item entry,
             entry.1 = item.1
             ∧ item.2 = IdList (identifier <$> entry.2)
             ∧ ∀ obj, obj ∈ entry.2 → obj ∈ collections) items result.
Proof.
  revert result. induction items as [|[label [|ids]] items IH];
    intros result; simpl.
  - intros [= <-]. constructor.
  - done.
  - destruct (pick (available_collections collections ids) ids)
      as [missing|objs] eqn:Hp; [done|].
    destruct (resolve_ids collections items) as [why|result'] eqn:Hr; [done|].
    intros [= <-]. destruct (pick_picks _ _ Hp) as [Hids Hin].
    constructor; [|by apply IH]. simpl. by rewrite Hids.
Qed.

Lemma collect_slaves_distinct (label master_rtype : string)
    (rtypes slave_rtypes result : list string) :
  collect_slaves label master_rtype rtypes slave_rtypes = inr result →
  NoDup (master_rtype :: slave_rtypes) →
  result = (slave_rtypes ++ rtypes)%list ∧ NoDup (master_rtype :: result).
Proof.
  revert slave_rtypes. induction rtypes as [|rtype rtypes IH];
    intros slave_rtypes; simpl.
  - intros [= <-] Hnd. by rewrite app_nil_r.
  - destruct (String.eqb rtype master_rtype) eqn:Hm; [done|]. simpl.
    case_bool_decide as Hin; [done|]. intros Hrun Hnd.
    apply String.eqb_neq in Hm.
    destruct (IH _ Hrun) as [-> Hnd'].
    + apply NoDup_cons in Hnd as [Hm' Hnd]. apply NoDup_cons. split.
      * rewrite elem_of_app, list_elem_of_singleton. intros [?|?]; [done|].
        by subst.
      * apply NoDup_app. split_and!; [done| |apply NoDup_singleton].
        intros x Hx Hx'. apply list_elem_of_singleton in Hx' as ->. done.
    + split; [by rewrite <- app_assoc | done].
Qed.

(** The second loop lets through only labels with at least one collection,
    the first collections all of the range type of the master, and no
    range type twice under one label. *)
Lemma check_types_checks (result : list (string * list Collection))
    (master_rtype : option string) (range_types : list string)
    (final : option string * list string) :
  check_types result master_rtype range_types = inr final →
  ∃ rtype,
    (∀ given, master_rtype = Some given → rtype = given)
    ∧ ∀ label objs, (label, objs) ∈ result →
        NoDup (range_type <$> objs)
        ∧ ∃ master slaves,
            objs = master :: slaves ∧ range_type master = rtype.
Proof.
  revert master_rtype range_types.
  induction result as [|[label objs] result IH];
    intros master_rtype range_types; simpl.
  - intros _. exists (default EmptyString master_rtype). split.
    + by intros given ->.
    + intros l o H. by apply elem_of_nil in H.
  - destruct objs as [|master slaves]; [done|].
    assert (∀ rtype rts,
              match collect_slaves label rtype (range_type <$> slaves) [] with
              | inl why => inl why
              | inr slave_rtypes =>
                  check_types result (Some rtype)
                    (foldl (λ acc rt,
                              if bool_decide (rt ∈ acc) then acc
                              else (acc ++ [rt])%list) rts slave_rtypes)
              end = inr final →
              range_type master = rtype →
              ∀ l o, (l, o) ∈ (label, master :: slaves) :: result →
                NoDup (range_type <$> o)
                ∧ ∃ m sl, o = m :: sl ∧ range_type m = rtype) as Hstep.
    { intros rtype rts Hrun Hm l o Hin.
      destruct (collect_slaves label rtype (range_type <$> slaves) [])
        as [why|slave_rtypes] eqn:Hs; [done|].
      destruct (collect_slaves_distinct _ _ _ _ _ Hs) as [-> Hnd].
      { apply NoDup_singleton. }
      destruct (IH _ _ Hrun) as (rtype' & Hgiven & Hrest).
      rewrite (Hgiven rtype eq_refl) in Hrest.
      apply elem_of_cons in Hin as [[= -> ->]|Hin]; [|by apply (Hrest l)].
      split; [by rewrite fmap_cons, Hm|]. by exists master, slaves. }
    destruct master_rtype as [given|].
    + destruct (String.eqb given (range_type master)) eqn:Hg; [|done].
      apply String.eqb_eq in Hg. intros Hrun. exists given.
      split; [by intros ? [= ->]|]. by apply (Hstep given range_types).
    + intros Hrun. exists (range_type master). split; [done|].
      by apply (Hstep (range_type master) [range_type master]).
Qed.

(** X27.  What [parse_collections] returns mirrors a well-formed input:
    the input is an object, every label comes back with the time series of
    exactly the collections its identifiers name, in their order, all found
    in the table; each label has at least one collection, the first
    collections of all labels have one and the same range type, and no
    range type occurs twice under one label. *)
Theorem parse_collections_sound (input_id : string) (source : source_value)
    (parsed : list (string * list Series)) :
  parse_collections collections ProductTimeSeries input_id source
    = Ok parsed →
  ∃ items resolved,
    source = Object items
    ∧ parsed = (λ entry : string * list Collection,
                  (entry.1, ProductTimeSeries <$> entry.2)) <$> resolved
    ∧ Forall2 (λ item entry,
                 entry.1 = item.1
                 ∧ item.2 = IdList (identifier <$> entry.2)
                 ∧ ∀ obj, obj ∈ entry.2 → obj ∈ collections) items resolved
    ∧ ∃ master_rtype,
        ∀ label objs, (label, objs) ∈ resolved →
          NoDup (range_type <$> objs)
          ∧ ∃ master slaves,
              objs = master :: slaves ∧ range_type master = master_rtype.
Proof.
  unfold parse_collections. destruct source as [|items]; [done|].
  destruct (resolve_ids collections items) as [why|resolved] eqn:Hr; [done|].
  destruct (check_types resolved None []) as [why|final] eqn:Hc; [done|].
  intros [= <-]. exists items, resolved. split_and!; [done|done| |].
  - by apply resolve_ids_resolves.
  - destruct (check_types_checks _ _ _ _ Hc) as (rtype & _ & Hall).
    by exists rtype.
Qed.

End CollectionsFacts.

(** ** The further properties on the test bench *)

Section Bench2.

Import Scenario Scenario2 Scenario3.

Local Open Scope Z_scope.

Local Abbreviation lookup_bench := (get_model_with_sources int_truthy bench_cache).

(** X1 at work: a lookup of ["TEST"] and the entries of ["ZERO"]. *)
Lemma lookup_touches_one_entry_witness :
  cache (lookup_bench fs_v1 "TEST" empty_store).2 !! "ZERO"%string
  = cache (@empty_store Z) !! "ZERO"%string
  ∧ sources (lookup_bench fs_v1 "TEST" empty_store).2 !! "ZERO"%string
    = sources (@empty_store Z) !! "ZERO"%string.
Proof.
  apply (lookup_touches_one_entry int_truthy bench_cache fs_v1 "TEST"
           empty_store (lookup_bench fs_v1 "TEST" empty_store).1).
  - apply surjective_pairing.
  - vm_compute. discriminate.
Defined.

(** X4 at work: the factory whose model file cannot tell its sources. *)
Lemma sources_failure_keeps_new_model_witness :
  ∃ st', lookup_bench fs_v1 "UNSOURCED" empty_store
         = (Raise (OtherError "sources not available"), st')
         ∧ cache st' !! resolve bench_cache "UNSOURCED"
           = Some {| inst_id := next_id (@empty_store Z); inst_model := 1 |}
         ∧ sources st' = sources (@empty_store Z)
         ∧ log st' = log (@empty_store Z).
Proof.
  apply (sources_failure_keeps_new_model int_truthy bench_cache fs_v1
           "UNSOURCED" empty_store unsourced_factory true
           {[ "f.dat"%string := 1 ]});
    vm_compute; reflexivity.
Defined.

(** X5 at work: the lookup after that failure. *)
Lemma lookup_after_sources_failure_witness :
  ∃ st1 st2,
    lookup_bench fs_v1 "UNSOURCED" empty_store
    = (Raise (OtherError "sources not available"), st1)
    ∧ lookup_bench fs_v1 "UNSOURCED" st1
      = (Raise (KeyError (resolve bench_cache "UNSOURCED")), st2)
    ∧ loader_calls st2 = loader_calls st1.
Proof.
  apply (lookup_after_sources_failure int_truthy bench_cache fs_v1
           "UNSOURCED" empty_store unsourced_factory true
           {[ "f.dat"%string := 1 ]} 1);
    vm_compute; reflexivity.
Defined.

(** X6 at work: the factory whose models are the integer 0. *)
Lemma false_model_is_rebuilt_witness :
  loader_calls
    (lookups int_truthy bench_cache [(fs_v1, "ZERO"); (fs_v1, "ZERO")]
       empty_store)
  = S (loader_calls
         (lookups int_truthy bench_cache [(fs_v1, "ZERO")] empty_store))
  ∧ ∀ m' srcs,
      Return (Some {| inst_id := 1%nat; inst_model := 0 |}, Some from_f_dat)
      = Return (Some m', srcs) →
      inst_id m'
      = next_id (lookups int_truthy bench_cache [(fs_v1, "ZERO")] empty_store)
      ∧ loader zero_factory (files zero_factory) fs_v1
        = Return (inst_model m').
Proof.
  apply (false_model_is_rebuilt int_truthy bench_cache fs_v1 "ZERO"
           (lookups int_truthy bench_cache [(fs_v1, "ZERO")] empty_store)
           zero_factory {| inst_id := 0%nat; inst_model := 0 |} false
           {[ "f.dat"%string := 1 ]});
    vm_compute; reflexivity.
Defined.

(** X9 at work: the two default factories over [MMA_SHA_2C]. *)
Lemma default_factories_independent_witness :
  monitors
    (get_model_with_sources int_truthy (MODEL_CACHE test_magmod test_filesmod)
       fs_v1 "MMA_SHA_2C-Primary" empty_store).2 !! tracker mma_secondary
  = monitors (@empty_store Z) !! tracker mma_secondary
  ∧ cache
      (get_model_with_sources int_truthy
         (MODEL_CACHE test_magmod test_filesmod)
         fs_v1 "MMA_SHA_2C-Primary" empty_store).2
      !! "MMA_SHA_2C-Secondary"%string
    = cache (@empty_store Z) !! "MMA_SHA_2C-Secondary"%string
  ∧ sources
      (get_model_with_sources int_truthy
         (MODEL_CACHE test_magmod test_filesmod)
         fs_v1 "MMA_SHA_2C-Primary" empty_store).2
      !! "MMA_SHA_2C-Secondary"%string
    = sources (@empty_store Z) !! "MMA_SHA_2C-Secondary"%string.
Proof.
  apply (default_factories_independent int_truthy test_magmod test_filesmod
           fs_v1 "MMA_SHA_2C-Primary" "MMA_SHA_2C-Secondary" mma_secondary
           empty_store _
           (get_model_with_sources int_truthy
              (MODEL_CACHE test_magmod test_filesmod)
              fs_v1 "MMA_SHA_2C-Primary" empty_store).1).
  - vm_compute. discriminate.
  - vm_compute. reflexivity.
  - apply surjective_pairing.
Defined.

(** X10 at work: the product of the bench settings. *)
Lemma cached_product_has_filename_witness :
  ∃ filename : string,
    default ∅ (UpdateCachedProduct.CACHED_PRODUCTS test_settings
                 !! "MMA_SHA_2F"%string) !! "filename"%string
    = Some (UpdateCachedProduct.PyStr filename)
    ∧ (("MMA_SHA_2F"%string = "GFZ_AUX_DST"%string
        ∧ filename = UpdateCachedProduct.VIRES_AUX_DB_DST test_settings)
       ∨ ("MMA_SHA_2F"%string = "GFZ_AUX_KP"%string
          ∧ filename = UpdateCachedProduct.VIRES_AUX_DB_KP test_settings)
       ∨ ("MMA_SHA_2F"%string ≠ "GFZ_AUX_DST"%string
          ∧ "MMA_SHA_2F"%string ≠ "GFZ_AUX_KP"%string
          ∧ default ∅ (UpdateCachedProduct.VIRES_CACHED_PRODUCTS
                         test_settings) !! "MMA_SHA_2F"%string
            = Some filename)).
Proof.
  apply (cached_product_has_filename test_settings "MMA_SHA_2F").
  vm_compute. reflexivity.
Defined.

(** X12 at work: [--alpha a.txt --charlie -]. *)
Lemma orbit_counter_one_call_per_option_witness :
  UpdateOrbitCounter.handle "A.cdf" "B.cdf" "C.cdf" update_ok orbit_kwargs
    orbit_start
  = (Return tt,
     {| UpdateOrbitCounter.warnings :=
          (UpdateOrbitCounter.warnings orbit_start
             ++ [UpdateOrbitCounter.DEPRECATION_WARNING])%list;
        UpdateOrbitCounter.update_calls :=
          (UpdateOrbitCounter.update_calls orbit_start
             ++ UpdateOrbitCounter.call_for
                  (UpdateCachedProduct.PyStr "a.txt") "A.cdf"
             ++ UpdateOrbitCounter.call_for UpdateCachedProduct.PyNone
                  "B.cdf"
             ++ UpdateOrbitCounter.call_for
                  (UpdateCachedProduct.PyStr "-") "C.cdf")%list |}).
Proof.
  apply (orbit_counter_one_call_per_option "A.cdf" "B.cdf" "C.cdf" update_ok
           orbit_kwargs);
    vm_compute; reflexivity.
Defined.

(** X13 at work: the download of the first file fails. *)
Lemma orbit_counter_stops_at_failure_witness :
  ∃ c, UpdateOrbitCounter.handle "A.cdf" "B.cdf" "C.cdf" update_broken
         orbit_kwargs orbit_start
       = (Raise (OtherError "download failed"),
          {| UpdateOrbitCounter.warnings :=
               (UpdateOrbitCounter.warnings orbit_start
                  ++ [UpdateOrbitCounter.DEPRECATION_WARNING])%list;
             UpdateOrbitCounter.update_calls :=
               (UpdateOrbitCounter.update_calls orbit_start ++ [c])%list |})
       ∧ UpdateOrbitCounter.oc_destination c = "A.cdf"%string
       ∧ UpdateOrbitCounter.oc_sources c
         = [UpdateCachedProduct.PyStr "a.txt"].
Proof.
  apply (orbit_counter_stops_at_failure "A.cdf" "B.cdf" "C.cdf" update_broken
           orbit_kwargs (UpdateCachedProduct.PyStr "a.txt")).
  - vm_compute. reflexivity.
  - discriminate.
  - intros c _. reflexivity.
Defined.

(** X14 at work: no identifier, no [--all]. *)
Lemma protected_without_ids_selects_nothing_witness :
  CollectionSelection.select_collections no_field no_field no_field no_field
    (CollectionSelection.select_collections_by_id_protected (λ row, row))
    ["SW_MAGA"%string; "SW_MAGB"%string] no_options []
  = (Return [], ([] ++ [CollectionSelection.NOTHING_SELECTED])%list).
Proof.
  apply (protected_without_ids_selects_nothing (λ row : string, row)
           no_field no_field no_field no_field no_options);
    reflexivity.
Defined.

(** X15 at work: [--all]. *)
Lemma protected_agrees_with_plain_witness :
  CollectionSelection.select_collections no_field no_field no_field no_field
    (CollectionSelection.select_collections_by_id_protected (λ row, row))
    ["SW_MAGA"%string; "SW_MAGB"%string] all_options []
  = CollectionSelection.select_collections no_field no_field no_field
      no_field (CollectionSelection.select_collections_by_id (λ row, row))
      ["SW_MAGA"%string; "SW_MAGB"%string] all_options []
  ∧ (CollectionSelection.select_collections no_field no_field no_field
       no_field (CollectionSelection.select_collections_by_id (λ row, row))
       ["SW_MAGA"%string; "SW_MAGB"%string] all_options []).2 = [].
Proof.
  apply (protected_agrees_with_plain (λ row : string, row)
           no_field no_field no_field no_field all_options).
  right. reflexivity.
Defined.

(** X19 at work: a comment, a padded line with a comment. *)
Lemma read_lines_are_clean_witness :
  "a.cdf"%string ≠ EmptyString
  ∧ Str.contains "#" "a.cdf" = false
  ∧ Str.strip Str.byte_isspace "a.cdf" = "a.cdf"%string
  ∧ ∃ raw, raw ∈ ["# products"%string; "  a.cdf  # first"%string]
           ∧ "a.cdf"%string
             = Str.strip Str.byte_isspace (Str.before "#" raw).
Proof.
  apply (read_lines_are_clean Str.byte_isspace
           ["# products"%string; "  a.cdf  # first"%string]).
  vm_compute. left.
Defined.

(** X21 at work: two identifiers with white space around them. *)
Lemma parse_models_keys_witness :
  NoDup [("A"%string, "A"%string); ("B"%string, "B"%string)].*1
  ∧ (∀ k, k ∈ [("A"%string, "A"%string); ("B"%string, "B"%string)].*1 →
       Str.strip Str.byte_isspace k = k)
  ∧ (∀ k, k ∈ [("A"%string, "A"%string); ("B"%string, "B"%string)].*1
          ↔ Str.strip Str.byte_isspace " A , B " ≠ EmptyString
            ∧ k ∈ Str.strip Str.byte_isspace <$> Str.split "," " A , B ").
Proof.
  apply (parse_models_keys Str.byte_isspace get_any no_shc "model_ids"
           " A , B " tt "shc" tt tt).
  vm_compute. reflexivity.
Defined.

(** X22 at work: an empty item between two commas. *)
Lemma parse_models_rejects_unknown_witness :
  ∃ f st',
    InputParsers.parse_models Str.byte_isspace get_A no_shc "model_ids"
      "A,,B" tt "shc" tt = (InputParsers.Fail f, st').
Proof.
  apply (parse_models_rejects_unknown Str.byte_isspace get_A no_shc
           "model_ids" "A,,B" tt "shc" tt EmptyString).
  - vm_compute. discriminate.
  - vm_compute. right. left.
  - discriminate.
  - intros st. reflexivity.
Defined.

(** X24 at work: two filters. *)
Lemma parse_filters_names_witness :
  NoDup [("F"%string, (1, 2)%nat); ("B_NEC[0]"%string, (2, 1)%nat)].*1
  ∧ (∀ name,
       name ∈ [("F"%string, (1, 2)%nat); ("B_NEC[0]"%string, (2, 1)%nat)].*1 →
       name ≠ EmptyString ∧ Str.strip Str.byte_isspace name = name)
  ∧ length [("F"%string, (1, 2)%nat); ("B_NEC[0]"%string, (2, 1)%nat)]
    = match Str.strip Str.byte_isspace "F:1,2; B_NEC[0] : 2, 1" with
      | EmptyString => 0%nat
      | _ => S (Str.count ";" "F:1,2; B_NEC[0] : 2, 1")
      end.
Proof.
  apply (parse_filters_names Str.byte_isspace small_float "filters").
  vm_compute. reflexivity.
Defined.

(** X25 at work: a trailing semicolon. *)
Lemma parse_filters_rejects_item_witness :
  ∃ why,
    InputParsers.parse_filters Str.byte_isspace small_float "filters"
      "F:1,2;"
    = InputParsers.Fail (InputParsers.InvalidInputValueError "filters" why).
Proof.
  apply (parse_filters_rejects_item Str.byte_isspace small_float "filters"
           "F:1,2;" EmptyString).
  - vm_compute. discriminate.
  - vm_compute. right. left.
  - vm_compute. discriminate.
Defined.

(** X27 at work: two labels over the bench table. *)
Lemma parse_collections_sound_witness :
  ∃ items resolved,
    bench_source = InputParsers.Object items
    ∧ [("A"%string, ["MAG_A"%string; "EFI_A"%string]);
       ("B"%string, ["MAG_B"%string])]
      = (λ entry : string * list InputParsers.Collection,
           (entry.1, InputParsers.identifier <$> entry.2)) <$> resolved
    ∧ Forall2 (λ item entry,
                 entry.1 = item.1
                 ∧ item.2
                   = InputParsers.IdList
                       (InputParsers.identifier <$> entry.2)
                 ∧ ∀ obj, obj ∈ entry.2 → obj ∈ bench_collections)
        items resolved
    ∧ ∃ master_rtype,
        ∀ label objs, (label, objs) ∈ resolved →
          NoDup (InputParsers.range_type <$> objs)
          ∧ ∃ master slaves,
              objs = master :: slaves
              ∧ InputParsers.range_type master = master_rtype.
Proof.
  apply (parse_collections_sound bench_collections InputParsers.identifier
           "collection_ids" bench_source).
  vm_compute. reflexivity.
Defined.

(** X28 at work: ["f.dat"] is gone at the second lookup, and the check
    of the monitor as modelled raises. *)
Lemma check_error_reaches_caller_witness :
  ∃ st',
    lookup_test fs_without (after [fs_v1]) = (Raise (OSError "f.dat"), st')
    ∧ loader_calls st' = loader_calls (after [fs_v1])
    ∧ next_id st' = next_id (after [fs_v1])
    ∧ log st' = log (after [fs_v1])
    ∧ cache st' = cache (after [fs_v1])
    ∧ sources st' = sources (after [fs_v1])
    ∧ monitors st'
      = <[tracker test_factory := {[ "f.dat"%string := 1 ]}]>
          (monitors (after [fs_v1])).
Proof.
  apply (check_error_reaches_caller int_truthy test_cache fs_without "TEST"
           (after [fs_v1]) test_factory);
    vm_compute; reflexivity.
Defined.

End Bench2.
